(** * Live-MoCap-For-Blender: stream receiver and retargeting engine

    A shallow embedding of [live_mocap_tool/data_stream.py],
    [live_mocap_tool/mocap_logic.py] and [live_mocap_tool/operators.py],
    followed by the properties of the specification stated over it.

    Conventions of the embedding.
    - Text is [string]; a character is a code point below 256.
    - Python floats and the [mathutils] vector and quaternion types are
      modelled in exact real arithmetic ([R]): rounding is abstracted.
      The reconnect delay only ever takes the values 1, 2, 4 and 8, which
      binary floating point represents exactly, and is modelled in [Z].
    - A Python exception is a value of an error type; a call that can
      raise returns a sum.
    - Dictionaries whose iteration order is never observed are [gmap]s;
      the bone map, which is iterated, is an association list that keeps
      Python's insertion order.
    - A decoded frame handed to the engine is a record of the fields the
      engine reads, each of the type the wire schema gives it; lists keep
      their arbitrary lengths, so every length test and every index of
      the source is live.
    - A function that mutates an object it is given returns the object
      with its new field values. *)

From Stdlib Require Import Reals Lra ZArith String Ascii List.
From stdpp Require Import gmap strings list.

Open Scope Z_scope.

(** ** Python string primitives *)

Module PyStr.

Definition nl : ascii := "010"%char.

(** [str.isspace] on one code point below 256. *)
Definition is_space (c : ascii) : bool :=
  let n := nat_of_ascii c in
  ((9 <=? n)%nat && (n <=? 13)%nat) || ((28 <=? n)%nat && (n <=? 32)%nat)
  || (n =? 133)%nat || (n =? 160)%nat.

Fixpoint lstrip (s : string) : string :=
  match s with
  | EmptyString => EmptyString
  | String c r => if is_space c then lstrip r else s
  end.

Fixpoint rev_onto (s acc : string) : string :=
  match s with
  | EmptyString => acc
  | String c r => rev_onto r (String c acc)
  end.

Definition rev (s : string) : string := rev_onto s EmptyString.

Definition rstrip (s : string) : string := rev (lstrip (rev s)).

(** [s.strip()] *)
Definition strip (s : string) : string := rstrip (lstrip s).

(** Truth value of a string: the empty string is falsy. *)
Definition truthy (s : string) : bool :=
  match s with EmptyString => false | _ => true end.

(** [s.split(sep, 1)] with a one-character separator: [None] when [sep]
    does not occur (Python returns the one-element list [[s]]), otherwise
    the text before and after the first occurrence. *)
Fixpoint split1 (sep : ascii) (s : string) : option (string * string) :=
  match s with
  | EmptyString => None
  | String c r =>
      if Ascii.eqb c sep then Some (EmptyString, r)
      else match split1 sep r with
           | Some (a, b) => Some (String c a, b)
           | None => None
           end
  end.

(** [s.split(sep, 1)[-1]] *)
Definition split1_last (sep : ascii) (s : string) : string :=
  match split1 sep s with
  | Some (_, b) => b
  | None => s
  end.

(** [s.split(sep)[-1]]: the text after the last occurrence of [sep], the
    whole of [s] when there is none. [cur] holds the current piece,
    reversed. *)
Fixpoint last_piece (sep : ascii) (s cur : string) : string :=
  match s with
  | EmptyString => rev cur
  | String c r =>
      if Ascii.eqb c sep then last_piece sep r EmptyString
      else last_piece sep r (String c cur)
  end.

Definition split_last (sep : ascii) (s : string) : string := last_piece sep s EmptyString.

(** [s[:n]] *)
Fixpoint take (n : nat) (s : string) : string :=
  match n, s with
  | S k, String c r => String c (take k r)
  | _, _ => EmptyString
  end.

(** [s[n:]] *)
Fixpoint drop (n : nat) (s : string) : string :=
  match n, s with
  | S k, String _ r => drop k r
  | _, _ => s
  end.

Definition lower_char (c : ascii) : ascii :=
  let n := nat_of_ascii c in
  if ((65 <=? n)%nat && (n <=? 90)%nat) || ((192 <=? n)%nat && (n <=? 222)%nat && negb (n =? 215)%nat)
  then ascii_of_nat (n + 32) else c.

Definition upper_char (c : ascii) : ascii :=
  let n := nat_of_ascii c in
  if ((97 <=? n)%nat && (n <=? 122)%nat) || ((224 <=? n)%nat && (n <=? 254)%nat && negb (n =? 247)%nat)
  then ascii_of_nat (n - 32) else c.

Fixpoint map_chars (f : ascii -> ascii) (s : string) : string :=
  match s with
  | EmptyString => EmptyString
  | String c r => String (f c) (map_chars f r)
  end.

(** [s.lower()] *)
Definition lower (s : string) : string := map_chars lower_char s.

(** [s.capitalize()] *)
Definition capitalize (s : string) : string :=
  match s with
  | EmptyString => EmptyString
  | String c r => String (upper_char c) (lower r)
  end.

(** [s.startswith(p)] *)
Definition startswith (p s : string) : bool := String.prefix p s.

(** [p in s] *)
Fixpoint contains (p s : string) : bool :=
  String.prefix p s ||
  match s with
  | EmptyString => false
  | String _ r => contains p r
  end.

(** [s.replace(' ', '')] and the like: delete every occurrence of [c]. *)
Fixpoint remove_char (c : ascii) (s : string) : string :=
  match s with
  | EmptyString => EmptyString
  | String d r => if Ascii.eqb d c then remove_char c r else String d (remove_char c r)
  end.

End PyStr.

(** ** [data_stream.py] *)

Module DataStream.

Inductive Status : Set :=
  | STATUS_DISCONNECTED
  | STATUS_CONNECTING
  | STATUS_CONNECTED
  | STATUS_RECONNECTING
  | STATUS_ERROR.

(** What the receiver thread raises inside its receive loop. *)
Inductive QueueExn : Set := Empty | Full.

Section Receiver.

(** A decoded frame is whatever [json.loads] returns; the decoder belongs
    to the Python library and is a parameter: [None] stands for
    [json.JSONDecodeError]. *)
Context {frame : Type}.
Variable json_loads : string -> option frame.

(** [queue.Queue(maxsize)]: first in, first out; [maxsize <= 0] is
    unbounded. *)
Record Queue : Type := mkQueue { maxsize : Z; items : list frame }.

Definition qsize (q : Queue) : Z := Z.of_nat (length (items q)).

Definition full (q : Queue) : bool := (0 <? maxsize q) && (maxsize q <=? qsize q).

Definition get_nowait (q : Queue) : QueueExn + (frame * Queue) :=
  match items q with
  | [] => inl Empty
  | x :: r => inr (x, mkQueue (maxsize q) r)
  end.

Definition put_nowait (x : frame) (q : Queue) : QueueExn + Queue :=
  if full q then inl Full else inr (mkQueue (maxsize q) (items q ++ [x])).

(** Lines 136-139: evict the pending frame when the queue is full, then
    insert. An exception leaves the queue as it was when raised. *)
Definition enqueue (x : frame) (q : Queue) : (QueueExn * Queue) + Queue :=
  if full q then
    match get_nowait q with
    | inl e => inl (e, q)
    | inr (_, q1) =>
        match put_nowait x q1 with
        | inl e => inl (e, q1)
        | inr q2 => inr q2
        end
    end
  else
    match put_nowait x q with
    | inl e => inl (e, q)
    | inr q2 => inr q2
    end.

(** State of the line loop: the text buffer, the queue, the frames handed
    to the queue so far and the warnings printed so far. *)
Record LineState : Type := mkLineState {
  ls_buffer : string;
  ls_queue : Queue;
  ls_decoded : list frame;
  ls_warnings : list string
}.

Inductive LineResult : Type :=
  | LinesDone (s : LineState)
  | LinesRaised (e : QueueExn) (s : LineState)
  | LinesOutOfFuel.

(** Lines 127-144, [while '\n' in buffer: ...]. Every iteration removes at
    least the newline, so [length buffer] iterations always suffice. *)
Fixpoint process_lines (fuel : nat) (s : LineState) : LineResult :=
  match PyStr.split1 PyStr.nl (ls_buffer s) with
  | None => LinesDone s
  | Some (mocap_line, buffer) =>
      match fuel with
      | O => LinesOutOfFuel
      | S fuel' =>
          if negb (PyStr.truthy (PyStr.strip mocap_line)) then
            process_lines fuel' (mkLineState buffer (ls_queue s) (ls_decoded s) (ls_warnings s))
          else
            match json_loads mocap_line with
            | Some mocap_frame =>
                match enqueue mocap_frame (ls_queue s) with
                | inl (e, q) =>
                    LinesRaised e (mkLineState buffer q (ls_decoded s) (ls_warnings s))
                | inr q =>
                    process_lines fuel'
                      (mkLineState buffer q (ls_decoded s ++ [mocap_frame]) (ls_warnings s))
                end
            | None =>
                process_lines fuel'
                  (mkLineState (PyStr.split1_last PyStr.nl buffer) (ls_queue s) (ls_decoded s)
                     (ls_warnings s ++ [PyStr.take 50 mocap_line]))
            end
      end
  end.

Definition process_buffer (s : LineState) : LineResult :=
  process_lines (String.length (ls_buffer s)) s.

(** What the socket and the owner of the receiver do to the thread: the
    outcome of one [_connect_socket], the outcome of one [recv] (a decoded
    chunk, empty when the peer has closed; [socket.timeout];
    [ConnectionResetError]; any other exception, a failed UTF-8 decoding
    of the chunk included), or [stop()]. *)
Inductive Event : Type :=
  | ConnectFails
  | ConnectOk
  | Recv (chunk : string)
  | RecvTimeout
  | RecvReset
  | RecvError
  | Stop.

Inductive Pause : Set :=
  | Backoff (delay : Z)
  | ErrorPause.

Record Receiver : Type := mkReceiver {
  running : bool;
  status : Status;
  reconnect_delay : Z;
  sock : bool;
  buffer : string;
  data_queue : Queue;
  decoded : list frame;
  warnings : list string;
  slept : list Pause
}.

(** [MocapReceiver(ip, port, max_queue_size)] followed by [start()], with
    the thread about to enter [_run_socket_listener]. *)
Definition start (max_queue_size : Z) : Receiver :=
  mkReceiver true STATUS_DISCONNECTED 1 false EmptyString (mkQueue max_queue_size [])
    [] [] [].

Definition set_conn (r : Receiver) (st : Status) (d : Z) (sk : bool) (b : string)
    (p : list Pause) : Receiver :=
  mkReceiver (running r) st d sk b (data_queue r) (decoded r) (warnings r) (slept r ++ p).

(** One turn of [_run_socket_listener]. While [sock] is unset the thread
    is in the connection loop (lines 97-106) and reacts to the outcome of
    [_connect_socket]; once set it is in the reception loop (lines
    113-157) and reacts to the outcome of [recv]. An outcome that cannot
    occur in the current loop leaves the receiver as it is. [status] is
    the value the turn leaves behind; [slept] records every [time.sleep]
    of the thread, the backoff ones with their delay. *)
Definition step (r : Receiver) (e : Event) : Receiver :=
  if negb (running r) then r else
  match e, sock r with
  | Stop, _ =>
      mkReceiver false STATUS_DISCONNECTED (reconnect_delay r) false (buffer r)
        (data_queue r) (decoded r) (warnings r) (slept r)
  | ConnectFails, false =>
      set_conn r STATUS_RECONNECTING (Z.min (reconnect_delay r * 2) 8) false (buffer r)
        [Backoff (reconnect_delay r)]
  | ConnectOk, false =>
      set_conn r STATUS_CONNECTED 1 true EmptyString []
  | Recv chunk, true =>
      if negb (PyStr.truthy chunk) then
        set_conn r STATUS_RECONNECTING (reconnect_delay r) false (buffer r) []
      else
        match process_buffer
                (mkLineState (buffer r +:+ chunk) (data_queue r) (decoded r) (warnings r)) with
        | LinesDone s =>
            mkReceiver true (status r) (reconnect_delay r) true (ls_buffer s) (ls_queue s)
              (ls_decoded s) (ls_warnings s) (slept r)
        | LinesRaised _ s =>
            mkReceiver true STATUS_ERROR (reconnect_delay r) false (ls_buffer s) (ls_queue s)
              (ls_decoded s) (ls_warnings s) (slept r ++ [ErrorPause])
        | LinesOutOfFuel => r
        end
  | RecvTimeout, true => r
  | RecvReset, true =>
      set_conn r STATUS_RECONNECTING (reconnect_delay r) false (buffer r) []
  | RecvError, true =>
      set_conn r STATUS_ERROR (reconnect_delay r) false (buffer r) [ErrorPause]
  | _, _ => r
  end.

Definition run (r : Receiver) (evs : list Event) : Receiver := fold_left step evs r.

(** Lines 167-175, [get_latest_data]: drain the queue and return the last
    frame taken, [None] when there was none. *)
Fixpoint drain (fuel : nat) (q : Queue) (latest : option frame) : option (option frame * Queue) :=
  match get_nowait q with
  | inl _ => Some (latest, q)
  | inr (x, q1) =>
      match fuel with
      | O => None
      | S fuel' => drain fuel' q1 (Some x)
      end
  end.

Definition get_latest_data (q : Queue) : option (option frame * Queue) :=
  drain (length (items q)) q None.

(** The producer's side of the handoff, once per frame of [xs], with no
    read in between. *)
Fixpoint enqueue_all (xs : list frame) (q : Queue) : (QueueExn * Queue) + Queue :=
  match xs with
  | [] => inr q
  | x :: r =>
      match enqueue x q with
      | inl e => inl e
      | inr q1 => enqueue_all r q1
      end
  end.

End Receiver.

Arguments Queue : clear implicits.
Arguments LineState : clear implicits.
Arguments LineResult : clear implicits.
Arguments Receiver : clear implicits.

End DataStream.

(** ** [mathutils]: vectors and quaternions

    Blender's [mathutils] is not part of the repository; its operations
    are given here with their documented meaning, in exact arithmetic. *)

Module Mathutils.

Local Open Scope R_scope.

Record Vector : Type := mkVector { vx : R; vy : R; vz : R }.

Record Quaternion : Type := mkQuaternion { qw : R; qx : R; qy : R; qz : R }.

Definition vadd (a b : Vector) : Vector := mkVector (vx a + vx b) (vy a + vy b) (vz a + vz b).

Definition vsub (a b : Vector) : Vector := mkVector (vx a - vx b) (vy a - vy b) (vz a - vz b).

(** [v * s] *)
Definition vscale (v : Vector) (s : R) : Vector := mkVector (vx v * s) (vy v * s) (vz v * s).

(** [v / s] for a non-zero literal [s] *)
Definition vdiv (v : Vector) (s : R) : Vector := mkVector (vx v / s) (vy v / s) (vz v / s).

Definition dot (a b : Vector) : R := vx a * vx b + vy a * vy b + vz a * vz b.

(** [v.length] *)
Definition length (v : Vector) : R := sqrt (dot v v).

(** [v.normalized()]: the zero vector stays zero. *)
Definition normalized (v : Vector) : Vector :=
  if Req_dec_T (length v) 0 then mkVector 0 0 0 else vdiv v (length v).

(** [a.cross(b)] *)
Definition cross (a b : Vector) : Vector :=
  mkVector (vy a * vz b - vz a * vy b) (vz a * vx b - vx a * vz b) (vx a * vy b - vy a * vx b).

(** [a.angle(b)]: [None] stands for the [ValueError] raised on a
    zero-length operand. *)
Definition angle (a b : Vector) : option R :=
  if Req_dec_T (length a) 0 then None
  else if Req_dec_T (length b) 0 then None
  else Some (acos (Rmax (-1) (Rmin 1 (dot (normalized a) (normalized b))))).

(** [Quaternion()] *)
Definition identity : Quaternion := mkQuaternion 1 0 0 0.

(** [Quaternion(axis, angle)] *)
Definition axis_angle (axis : Vector) (theta : R) : Quaternion :=
  if Req_dec_T (length axis) 0 then identity
  else
    let n := normalized axis in
    let s := sin (theta / 2) in
    mkQuaternion (cos (theta / 2)) (vx n * s) (vy n * s) (vz n * s).

(** [a @ b]: the Hamilton product. *)
Definition qmul (a b : Quaternion) : Quaternion :=
  mkQuaternion
    (qw a * qw b - qx a * qx b - qy a * qy b - qz a * qz b)
    (qw a * qx b + qx a * qw b + qy a * qz b - qz a * qy b)
    (qw a * qy b - qx a * qz b + qy a * qw b + qz a * qx b)
    (qw a * qz b + qx a * qy b - qy a * qx b + qz a * qw b).

Definition qdot (a b : Quaternion) : R := qw a * qw b + qx a * qx b + qy a * qy b + qz a * qz b.

(** [q.inverted()]: the conjugate over the squared norm; the zero
    quaternion is returned as it is. *)
Definition inverted (q : Quaternion) : Quaternion :=
  let f := qdot q q in
  if Req_dec_T f 0 then q
  else mkQuaternion (qw q / f) (- qx q / f) (- qy q / f) (- qz q / f).

End Mathutils.

(** ** [mocap_logic.py] *)

Module MocapLogic.

Import Mathutils.

(** *** The host's objects, as far as the engine touches them *)

Record PoseBone : Type := mkPoseBone {
  name : string;
  rotation_mode : string;
  rotation_quaternion : Quaternion;
  location : Vector;
  bone_length : R
}.

Record Object : Type := mkObject {
  obj_name : string;
  obj_type : string;
  obj_mode : string;
  pose_bones : list PoseBone
}.

Record MappingItem : Type := mkMappingItem { mocap_name : string; blender_name : string }.

(** [bpy.context.scene.mocap_properties] *)
Record Props : Type := mkProps {
  target_armature : option Object;
  mapping_collection : list MappingItem;
  mocap_mode : string;
  is_running : bool;
  data_active : bool
}.

Inductive Exn : Set := IndexError | RuntimeError | ValueError | ZeroDivisionError.

(** The lines the module prints. *)
Inductive Msg : Type :=
  | MsgNotArmature
  | MsgPoseModeFailed
  | MsgMediapipeError (e : Exn)
  | MsgCalibrationNotArmature
  | MsgCalibrated (bones_calibrated : nat)
  | MsgSetBone (bname : string)
  | MsgSetBoneError (bname : string)
  | MsgIKApplied (upper_name lower_name : string)
  | MsgAutoMapped (added : list (string * string))
  | MsgAutoMapNone.

(** The module's global [CALIBRATION_OFFSETS], the part of [bpy.context]
    the engine reads and writes, and the console. [mode_set_ok] tells
    whether [bpy.ops.object.mode_set(mode='POSE')] succeeds; when it does
    not, the call raises [RuntimeError]. *)
Record Session : Type := mkSession {
  active_object : option string;
  mode_set_ok : bool;
  props : Props;
  CALIBRATION_OFFSETS : gmap string Quaternion;
  printed : list Msg
}.

Definition print (m : Msg) (s : Session) : Session :=
  mkSession (active_object s) (mode_set_ok s) (props s) (CALIBRATION_OFFSETS s) (printed s ++ [m]).

Definition set_offsets (o : gmap string Quaternion) (s : Session) : Session :=
  mkSession (active_object s) (mode_set_ok s) (props s) o (printed s).

Definition set_active (a : option string) (s : Session) : Session :=
  mkSession a (mode_set_ok s) (props s) (CALIBRATION_OFFSETS s) (printed s).

Definition set_mode (m : string) (o : Object) : Object :=
  mkObject (obj_name o) (obj_type o) m (pose_bones o).

(** [pose_bones.get(name)] *)
Fixpoint get_bone (n : string) (bones : list PoseBone) : option PoseBone :=
  match bones with
  | [] => None
  | b :: r => if String.eqb (name b) n then Some b else get_bone n r
  end.

(** Writing through a reference obtained from [pose_bones.get]: the bone
    of that name in the collection takes the new field values. *)
Fixpoint store_bone (b : PoseBone) (bones : list PoseBone) : list PoseBone :=
  match bones with
  | [] => []
  | b0 :: r => if String.eqb (name b0) (name b) then b :: r else b0 :: store_bone b r
  end.

Definition with_bones (bones : list PoseBone) (o : Object) : Object :=
  mkObject (obj_name o) (obj_type o) (obj_mode o) bones.

(** *** The bone map: a Python dictionary in insertion order *)

Fixpoint dict_set (k v : string) (d : list (string * string)) : list (string * string) :=
  match d with
  | [] => [(k, v)]
  | (k0, v0) :: r => if String.eqb k0 k then (k, v) :: r else (k0, v0) :: dict_set k v r
  end.

Fixpoint dict_get (k : string) (d : list (string * string)) : option string :=
  match d with
  | [] => None
  | (k0, v0) :: r => if String.eqb k0 k then Some v0 else dict_get k r
  end.

Definition get_bone_map_from_properties (p : Props) : list (string * string) :=
  fold_left
    (fun bone_map item =>
       if PyStr.truthy (mocap_name item) && PyStr.truthy (blender_name item)
       then dict_set (mocap_name item) (blender_name item) bone_map
       else bone_map)
    (mapping_collection p) [].

(** *** One decoded wire message *)

Record Joint : Type := mkJoint {
  rotation_wzxy : option (list R);
  joint_location : option (list R)
}.

Record Mediapipe : Type := mkMediapipe {
  pose : option (list (list R));
  hands : option (list (string * list (list R)))
}.

Record Frame : Type := mkFrame {
  frame_mode : option string;
  joints : gmap string Joint;
  mediapipe : option Mediapipe
}.

(** *** [apply_rotation], lines 73-97

    The calibration offsets are the module's global; the bone is returned
    with the fields the function assigns. *)
Definition apply_rotation (offsets : gmap string Quaternion) (pose_bone : PoseBone)
    (rotation_data : list R) : PoseBone :=
  match rotation_data with
  | [w; x; y; z] =>
      let mocap_quat := mkQuaternion w x y z in
      let blender_bone_name := name pose_bone in
      let final_quat :=
        match offsets !! blender_bone_name with
        | Some offset_quat => qmul offset_quat mocap_quat
        | None => mocap_quat
        end in
      mkPoseBone (name pose_bone) "QUATERNION" final_quat (location pose_bone)
        (bone_length pose_bone)
  | _ => pose_bone
  end.

(** *** [map_whole_body] and [map_hands_only], lines 100-139 *)

Definition set_location (v : Vector) (b : PoseBone) : PoseBone :=
  mkPoseBone (name b) (rotation_mode b) (rotation_quaternion b) v (bone_length b).

(** The rotation loop shared by both mappers; [keep] is the filter on the
    mocap joint name. *)
Definition apply_mapped_rotations (keep : string -> bool) (offsets : gmap string Quaternion)
    (bone_map : list (string * string)) (mocap_joints : gmap string Joint)
    (bones : list PoseBone) : list PoseBone :=
  fold_left
    (fun bones '(mocap_name, blender_name) =>
       if keep mocap_name then
         match mocap_joints !! mocap_name with
         | Some j =>
             match get_bone blender_name bones, rotation_wzxy j with
             | Some pose_bone, Some rot => store_bone (apply_rotation offsets pose_bone rot) bones
             | _, _ => bones
             end
         | None => bones
         end
       else bones)
    bone_map bones.

Definition map_whole_body (s : Session) (armature_obj : Object) (mocap_joints : gmap string Joint)
    : Object :=
  let bone_map := get_bone_map_from_properties (props s) in
  let bones := pose_bones armature_obj in
  let hips_mocap_name := "Hips"%string in
  let bones1 :=
    match mocap_joints !! hips_mocap_name, dict_get hips_mocap_name bone_map with
    | Some j, Some hips_blender =>
        match get_bone hips_blender bones, joint_location j with
        | Some hips_bone, Some [x; y; z] =>
            store_bone (set_location (mkVector x y z) hips_bone) bones
        | _, _ => bones
        end
    | _, _ => bones
    end in
  with_bones
    (apply_mapped_rotations (fun _ => true) (CALIBRATION_OFFSETS s) bone_map mocap_joints bones1)
    armature_obj.

Definition HAND_FILTER : list string :=
  ["Hand"; "Finger"; "Index"; "Thumb"; "Middle"; "Ring"; "Pinky"]%string.

Definition map_hands_only (s : Session) (armature_obj : Object) (mocap_joints : gmap string Joint)
    : Object :=
  let bone_map := get_bone_map_from_properties (props s) in
  with_bones
    (apply_mapped_rotations
       (fun mocap_name => existsb (fun f => PyStr.contains f mocap_name) HAND_FILTER)
       (CALIBRATION_OFFSETS s) bone_map mocap_joints (pose_bones armature_obj))
    armature_obj.

(** *** [calibrate_pose], lines 191-225 *)

(** The loop of lines 216-222, over [bone_map.values()]: the offsets and
    the count of calibrated bones. *)
Definition calibrate_bones (bones : list PoseBone) (bone_map : list (string * string))
    (acc : gmap string Quaternion * nat) : gmap string Quaternion * nat :=
  fold_left
    (fun '(offsets, n) '(_, blender_name) =>
       match get_bone blender_name bones with
       | Some pose_bone =>
           (<[blender_name := inverted (rotation_quaternion pose_bone)]> offsets, S n)
       | None => (offsets, n)
       end)
    bone_map acc.

Definition calibrate_pose (armature_obj : option Object) (s : Session)
    : (Exn + bool) * option Object * Session :=
  let s := set_offsets ∅ s in
  match armature_obj with
  | None => (inr false, None, print MsgCalibrationNotArmature s)
  | Some obj =>
      if negb (String.eqb (obj_type obj) "ARMATURE") then
        (inr false, Some obj, print MsgCalibrationNotArmature s)
      else
        let bone_map := get_bone_map_from_properties (props s) in
        let s := set_active (Some (obj_name obj)) s in
        if negb (String.eqb (obj_mode obj) "POSE") && negb (mode_set_ok s) then
          (inl RuntimeError, Some obj, s)
        else
          let obj := set_mode "POSE" obj in
          let '(offsets, bones_calibrated) :=
            calibrate_bones (pose_bones obj) bone_map (CALIBRATION_OFFSETS s, O) in
          (inr true, Some obj, print (MsgCalibrated bones_calibrated) (set_offsets offsets s))
  end.

(** *** Landmark retargeting: an error and state monad

    [apply_mediapipe_pose] and its helpers mutate the bones of the
    armature, print, and raise. A computation takes the armature and the
    session and returns them with either a value or the exception that
    left it; what was mutated before the exception stays mutated. *)

Record Ctx : Type := mkCtx { arm : Object; ses : Session }.

Definition M (A : Type) : Type := Ctx -> (Exn + A) * Ctx.

Definition ret {A : Type} (a : A) : M A := fun c => (inr a, c).

Definition bind {A B : Type} (m : M A) (k : A -> M B) : M B :=
  fun c => match m c with
           | (inl e, c1) => (inl e, c1)
           | (inr a, c1) => k a c1
           end.

Definition try_except {A : Type} (m : M A) (handler : Exn -> M A) : M A :=
  fun c => match m c with
           | (inl e, c1) => handler e c1
           | (inr a, c1) => (inr a, c1)
           end.

Definition lift {A : Type} (r : Exn + A) : M A := fun c => (r, c).

Definition say (m : Msg) : M unit := fun c => (inr tt, mkCtx (arm c) (print m (ses c))).

Definition write_bone (b : PoseBone) : M unit :=
  fun c => (inr tt, mkCtx (with_bones (store_bone b (pose_bones (arm c))) (arm c)) (ses c)).

Declare Scope mocap_scope.
Delimit Scope mocap_scope with mocap.
Notation "x <- m ;; k" := (bind m (fun x => k))
  (at level 100, m at next level, right associativity) : mocap_scope.
Notation "m ;;; k" := (bind m (fun _ => k))
  (at level 100, right associativity) : mocap_scope.

(** The same for computations that only read: [Exn + A]. *)
Definition rbind {A B : Type} (r : Exn + A) (k : A -> Exn + B) : Exn + B :=
  match r with
  | inl e => inl e
  | inr a => k a
  end.

Notation "x <~ r ;; k" := (rbind r (fun x => k))
  (at level 100, r at next level, right associativity) : mocap_scope.

(** [l[i]] for a non-negative literal [i] *)
Definition index {A : Type} (l : list A) (i : nat) : Exn + A :=
  match l !! i with
  | Some x => inr x
  | None => inl IndexError
  end.

Local Open Scope mocap_scope.

(** [lm_to_vec], lines 287-290 *)
Definition lm_to_vec (lm : list R) : Exn + Vector :=
  x <~ index lm 0 ;;
  y <~ index lm 1 ;;
  z <~ index lm 2 ;;
  inr (mkVector ((x - 0.5) * 2.0) ((0.5 - y) * 2.0) (- z))%R.

(** [lm_to_vec(pose_list[i])], and the expression
    [Vector(((pose_list[i][0]-0.5)*2.0, (0.5-pose_list[i][1])*2.0, -pose_list[i][2]))]
    of lines 405-442, which computes the same. *)
Definition landmark_vec (pose_list : list (list R)) (i : nat) : Exn + Vector :=
  lm <~ index pose_list i ;; lm_to_vec lm.

(** [smooth_lm], lines 294-302, on the dictionary [_LAST_LM] *)
Definition smooth_lm (LAST_LM : gmap nat Vector) (idx : nat) (vec : Vector)
    : Vector * gmap nat Vector :=
  let alpha := 0.6%R in
  match LAST_LM !! idx with
  | None => (vec, <[idx := vec]> LAST_LM)
  | Some prev =>
      let res := vadd (vscale prev (1.0 - alpha)%R) (vscale vec alpha) in
      (res, <[idx := res]> LAST_LM)
  end.

Record Smoothed : Type := mkSmoothed {
  sm_ls : Vector; sm_rs : Vector; sm_le : Vector; sm_re : Vector; sm_lw : Vector; sm_rw : Vector
}.

(** Lines 293 and 309-315: [_LAST_LM = {}] is a local of
    [apply_mediapipe_pose], created empty by every call. *)
Definition smooth_landmarks (pose_list : list (list R)) : Exn + Smoothed :=
  let LAST_LM : gmap nat Vector := ∅ in
  v <~ landmark_vec pose_list 11 ;; let '(ls, LAST_LM) := smooth_lm LAST_LM 11 v in
  v <~ landmark_vec pose_list 12 ;; let '(rs, LAST_LM) := smooth_lm LAST_LM 12 v in
  v <~ landmark_vec pose_list 13 ;; let '(le, LAST_LM) := smooth_lm LAST_LM 13 v in
  v <~ landmark_vec pose_list 14 ;; let '(re, LAST_LM) := smooth_lm LAST_LM 14 v in
  v <~ landmark_vec pose_list 15 ;; let '(lw, LAST_LM) := smooth_lm LAST_LM 15 v in
  v <~ landmark_vec pose_list 16 ;; let '(rw, LAST_LM) := smooth_lm LAST_LM 16 v in
  inr (mkSmoothed ls rs le re lw rw).

(** [resolve_bone_name], lines 243-284 *)
Definition resolve_bone_name (bone_map : list (string * string)) (bones : list PoseBone)
    (mocap_name : string) : option string :=
  match dict_get mocap_name bone_map with
  | Some b => Some b
  | None =>
      let side_names :=
        if PyStr.startswith "left" (PyStr.lower mocap_name) then [".L"; "_L"; "_left"; " L"]
        else if PyStr.startswith "right" (PyStr.lower mocap_name) then [".R"; "_R"; "_right"; " R"]
        else [""; ".L"; ".R"; "_L"; "_R"] in
      let base :=
        match List.find (fun prefix => PyStr.startswith prefix mocap_name)
                ["left"; "right"; "Left"; "Right"] with
        | Some prefix => PyStr.drop (String.length prefix) mocap_name
        | None => mocap_name
        end in
      let base := PyStr.remove_char " "%char (PyStr.strip base) in
      let candidates :=
        flat_map
          (fun s => [base +:+ s; "Upper" +:+ base +:+ s; "upper_" +:+ PyStr.lower base +:+ s;
                     PyStr.capitalize base +:+ s])
          side_names in
      match List.find (fun c => bool_decide (is_Some (get_bone c bones))) candidates with
      | Some c => Some c
      | None =>
          match List.find (fun b => PyStr.contains (PyStr.lower base) (PyStr.lower (name b)))
                  bones with
          | Some b => Some (name b)
          | None => None
          end
      end
  end.

(** [set_bone_direction], lines 320-355 *)
Definition set_bone_direction (source_vec target_vec : Vector) (blender_bone_name : string)
    : M unit :=
  fun c =>
  match get_bone blender_bone_name (pose_bones (arm c)) with
  | None => ret tt c
  | Some pose_bone =>
      let dir_vec := vsub target_vec source_vec in
      if Req_dec_T (length dir_vec) 0 then ret tt c
      else
        let dir_vec := normalized dir_vec in
        let up := mkVector 0 1 0 in
        let axis := cross up dir_vec in
        let quat :=
          if Req_dec_T (length axis) 0 then Some identity
          else match angle up dir_vec with
               | Some theta => Some (axis_angle (normalized axis) theta)
               | None => None
               end in
        match quat with
        | None => say (MsgSetBoneError blender_bone_name) c
        | Some quat =>
            let bname := name pose_bone in
            let final_q :=
              match CALIBRATION_OFFSETS (ses c) !! bname with
              | Some offset_q => qmul offset_q quat
              | None => quat
              end in
            (write_bone (mkPoseBone bname "QUATERNION" final_q (location pose_bone)
                           (bone_length pose_bone)) ;;;
             say (MsgSetBone bname)) c
        end
  end.

(** Python's float division: a zero divisor raises. *)
Definition pydiv (a b : R) : Exn + R :=
  if Req_dec_T b 0 then inl ZeroDivisionError else inr (a / b)%R.

(** The joint position computed by [two_bone_ik], lines 375-391; [None]
    when the function returns at [d < eps]. *)
Definition ik_joint_pos (root target : Vector) (L1 L2 : R) : Exn + option Vector :=
  let d := length (vsub target root) in
  let eps := (/ 1000000)%R in
  if Rlt_dec d eps then inr None
  else
    let d_clamped := Rmin (Rmax d (Rabs (L1 - L2) + / 1000)) (L1 + L2 - / 1000) in
    let dir_rt := normalized (vsub target root) in
    a <~ pydiv (L1 * L1 - L2 * L2 + d_clamped * d_clamped) (2.0 * d_clamped) ;;
    inr (Some (vadd root (vscale dir_rt a))).

(** [two_bone_ik], lines 357-396 *)
Definition two_bone_ik (root_vec mid_vec tip_vec : Vector) (upper_name lower_name : string)
    : M unit :=
  fun c =>
  match get_bone upper_name (pose_bones (arm c)), get_bone lower_name (pose_bones (arm c)) with
  | Some upper, Some lower =>
      let L1 := bone_length upper in
      let L2 := bone_length lower in
      let target := tip_vec in
      let root := root_vec in
      (j <- lift (ik_joint_pos root target L1 L2) ;;
       match j with
       | None => ret tt
       | Some joint_pos =>
           set_bone_direction root joint_pos upper_name ;;;
           set_bone_direction joint_pos target lower_name ;;;
           say (MsgIKApplied upper_name lower_name)
       end) c
  | _, _ => ret tt c
  end.

(** Truth value of a name that may be [None]. *)
Definition truthy_name (n : option string) : bool :=
  match n with
  | Some s => PyStr.truthy s
  | None => false
  end.

(** The list [segments], lines 399-408; its elements are evaluated in
    order and the first missing landmark raises. *)
Definition segments (pose_list : list (list R)) (sm : Smoothed)
    : Exn + list (string * string * Vector * Vector) :=
  h23 <~ landmark_vec pose_list 23 ;;
  l23 <~ landmark_vec pose_list 23 ;;
  l25 <~ landmark_vec pose_list 25 ;;
  r24 <~ landmark_vec pose_list 24 ;;
  r26 <~ landmark_vec pose_list 26 ;;
  inr [ ("LeftShoulder", "LeftElbow", sm_ls sm, sm_le sm);
        ("LeftElbow", "LeftWrist", sm_le sm, sm_lw sm);
        ("RightShoulder", "RightElbow", sm_rs sm, sm_re sm);
        ("RightElbow", "RightWrist", sm_re sm, sm_rw sm);
        ("Hips", "LeftUpLeg", vdiv (vadd (sm_ls sm) (sm_le sm)) 2.0, h23);
        ("LeftUpLeg", "LeftLeg", l23, l25);
        ("RightUpLeg", "RightLeg", r24, r26) ]%string.

(** The loop of lines 411-419 *)
Fixpoint apply_segments (resolve : string -> option string)
    (segs : list (string * string * Vector * Vector)) : M unit :=
  match segs with
  | [] => ret tt
  | (mocap_a, mocap_b, a_vec, b_vec) :: rest =>
      let a_name := resolve mocap_a in
      let b_name := resolve mocap_b in
      (if truthy_name a_name then set_bone_direction a_vec b_vec (default EmptyString a_name)
       else if truthy_name b_name then set_bone_direction a_vec b_vec (default EmptyString b_name)
       else ret tt) ;;;
      apply_segments resolve rest
  end.

(** Lines 422-448: hips, spine, neck and head, inside
    [try: ... except Exception: pass]. *)
Definition apply_torso (resolve : string -> option string) (pose_list : list (list R)) : M unit :=
  let when_named (n : option string) (k : string -> M unit) : M unit :=
    match n with
    | Some b => if PyStr.truthy b then k b else ret tt
    | None => ret tt
    end in
  try_except
    (hip_l <- lift (landmark_vec pose_list 23) ;;
     hip_r <- lift (landmark_vec pose_list 24) ;;
     let hips_mid := vdiv (vadd hip_l hip_r) 2.0 in
     spine <- lift (landmark_vec pose_list 11) ;;
     n11 <- lift (landmark_vec pose_list 11) ;;
     n12 <- lift (landmark_vec pose_list 12) ;;
     let neck_mid := vdiv (vadd n11 n12) 2.0 in
     when_named (resolve "Hips"%string) (set_bone_direction hips_mid spine) ;;;
     when_named (resolve "Spine"%string) (set_bone_direction hips_mid neck_mid) ;;;
     let neck_bname := resolve "Neck"%string in
     let head_bname := resolve "Head"%string in
     nose <- lift (landmark_vec pose_list 0) ;;
     when_named neck_bname (set_bone_direction neck_mid nose) ;;;
     when_named head_bname (set_bone_direction neck_mid nose))
    (fun _ => ret tt).

(** [apply_mediapipe_pose], lines 228-448 *)
Definition apply_mediapipe_pose (mediapipe_data : Mediapipe) : M unit :=
  fun c =>
  match pose mediapipe_data with
  | None => ret tt c
  | Some pose_list =>
      if bool_decide (pose_list = []) || (Datatypes.length pose_list <? 16)%nat then ret tt c
      else
        let bone_map := get_bone_map_from_properties (props (ses c)) in
        let resolve := resolve_bone_name bone_map (pose_bones (arm c)) in
        match smooth_landmarks pose_list with
        | inl _ => ret tt c
        | inr sm =>
            (segs <- lift (segments pose_list sm) ;;
             apply_segments resolve segs ;;;
             apply_torso resolve pose_list) c
        end
  end.

(** *** [apply_mocap_data], lines 142-189

    The function has no [return] with a value and lets no exception out:
    the body sits in [try: ... except Exception: print(...)], so every
    path ends in Python's [None], here [inr tt]. *)

Definition dict_truthy (m : Mediapipe) : bool :=
  bool_decide (is_Some (pose m)) || bool_decide (is_Some (hands m)).

Definition apply_mocap_data (armature_obj : option Object) (mocap_data_json : Frame)
    (s : Session) : (Exn + unit) * option Object * Session :=
  let data := mocap_data_json in
  let mocap_joints := joints data in
  let mediapipe_data := mediapipe data in
  match armature_obj with
  | None => (inr tt, None, print MsgNotArmature s)
  | Some obj =>
      if negb (String.eqb (obj_type obj) "ARMATURE") then
        (inr tt, Some obj, print MsgNotArmature s)
      else
        let s := set_active (Some (obj_name obj)) s in
        if negb (String.eqb (obj_mode obj) "POSE") && negb (mode_set_ok s) then
          (inr tt, Some obj, print MsgPoseModeFailed s)
        else
          let obj := set_mode "POSE" obj in
          let c := mkCtx obj s in
          let c :=
            match mediapipe_data with
            | Some mp =>
                if dict_truthy mp then
                  snd (try_except (apply_mediapipe_pose mp) (fun e => say (MsgMediapipeError e)) c)
                else c
            | None => c
            end in
          let obj :=
            if String.eqb (mocap_mode (props (ses c))) "WHOLE_BODY" then
              map_whole_body (ses c) (arm c) mocap_joints
            else if String.eqb (mocap_mode (props (ses c))) "HANDS_ONLY" then
              map_hands_only (ses c) (arm c) mocap_joints
            else arm c in
          (inr tt, Some obj, ses c)
  end.

(** *** [auto_map_mixamorig], lines 20-71 *)

Definition wanted : list (string * string) :=
  [ ("Hips", "mixamorig:Hips");
    ("Spine", "mixamorig:Spine");
    ("Neck", "mixamorig:Neck");
    ("Head", "mixamorig:Head");
    ("LeftShoulder", "mixamorig:LeftShoulder");
    ("LeftElbow", "mixamorig:LeftForeArm");
    ("LeftWrist", "mixamorig:LeftHand");
    ("RightShoulder", "mixamorig:RightShoulder");
    ("RightElbow", "mixamorig:RightForeArm");
    ("RightWrist", "mixamorig:RightHand");
    ("LeftUpLeg", "mixamorig:LeftUpLeg");
    ("LeftLeg", "mixamorig:LeftLeg");
    ("RightUpLeg", "mixamorig:RightUpLeg");
    ("RightLeg", "mixamorig:RightLeg") ]%string.

Definition set_mapping (items : list MappingItem) (p : Props) : Props :=
  mkProps (target_armature p) items (mocap_mode p) (is_running p) (data_active p).

Section AutoMap.

(** [pose_names] is a Python set of strings: [set_iter] gives the order
    in which it is iterated, which the language leaves open. *)
Variable set_iter : list string -> list string.

(** The bone found for one pattern, lines 54-60 *)
Definition find_bone (pose_names : list string) (pattern : string) : option string :=
  if bool_decide (pattern ∈ pose_names) then Some pattern
  else
    let short := PyStr.split_last ":"%char pattern in
    List.find (fun bn => PyStr.contains (PyStr.lower short) (PyStr.lower bn)) pose_names.

Definition auto_map_mixamorig (p : Props) : Props * list Msg :=
  match target_armature p with
  | None => (p, [])
  | Some arm_obj =>
      if negb (String.eqb (obj_type arm_obj) "ARMATURE") then (p, [])
      else
        let pose_names := set_iter (map name (pose_bones arm_obj)) in
        let added :=
          flat_map
            (fun '(mocap_name, pattern) =>
               match find_bone pose_names pattern with
               | Some found => if PyStr.truthy found then [(mocap_name, found)] else []
               | None => []
               end)
            wanted in
        (set_mapping (map (fun '(m, b) => mkMappingItem m b) added) p,
         [match added with [] => MsgAutoMapNone | _ => MsgAutoMapped added end])
  end.

End AutoMap.

End MocapLogic.

(** ** [operators.py]: the start-capture operator *)

Module Operators.

Import MocapLogic.

Inductive Verdict : Set := CANCELLED | RUNNING_MODAL.

Inductive Report : Type :=
  | WarnAlreadyRunning
  | InfoAutoSelected (arm_name : string)
  | InfoStarted
  | ErrorStartFailed.

(** [bpy.data.objects], the scene's properties, the module's global
    [MOCAP_RECEIVER], and whether starting the receiver thread and the
    modal timer succeeds. *)
Record Blender : Type := mkBlender {
  data_objects : list Object;
  scene_props : Props;
  MOCAP_RECEIVER : option (DataStream.Receiver Frame);
  start_ok : bool;
  console : list Msg;
  reports : list Report
}.

Definition set_target (o : option Object) (p : Props) : Props :=
  mkProps o (mapping_collection p) (mocap_mode p) (is_running p) (data_active p).

Definition set_flags (run active : bool) (p : Props) : Props :=
  mkProps (target_armature p) (mapping_collection p) (mocap_mode p) run active.

Section Execute.

Variable set_iter : list string -> list string.

(** [MOCAP_OT_live_capture.execute], lines 68-113 *)
Definition execute (b : Blender) : Verdict * Blender :=
  let props := scene_props b in
  if is_running props then
    (CANCELLED,
     mkBlender (data_objects b) props (MOCAP_RECEIVER b) (start_ok b) (console b)
       (reports b ++ [WarnAlreadyRunning]))
  else
    let '(props, rep) :=
      match target_armature props with
      | Some _ => (props, [])
      | None =>
          match List.find (fun o => String.eqb (obj_type o) "ARMATURE") (data_objects b) with
          | Some arm => (set_target (Some arm) props, [InfoAutoSelected (obj_name arm)])
          | None => (props, [])
          end
      end in
    let '(props, out) :=
      match target_armature props with
      | Some _ => auto_map_mixamorig set_iter props
      | None => (props, [])
      end in
    if start_ok b then
      (RUNNING_MODAL,
       mkBlender (data_objects b) (set_flags true false props) (Some (DataStream.start 1))
         (start_ok b) (console b ++ out) (reports b ++ rep ++ [InfoStarted]))
    else
      (CANCELLED,
       mkBlender (data_objects b) props None (start_ok b) (console b ++ out)
         (reports b ++ rep ++ [ErrorStartFailed])).

End Execute.

End Operators.

(** ** A reference JSON decoder

    The receiver is stated over any decoder. To run it on concrete
    traffic, this module gives one: a recursive-descent parser for the
    JSON grammar, returning the syntax tree of the text or [None] where
    Python's [json.loads] raises [JSONDecodeError]. *)

Module Json.

#[local] Unset Elimination Schemes.
Inductive value : Type :=
  | JNull
  | JBool (b : bool)
  | JNumber (text : string)
  | JString (text : string)
  | JArray (elems : list value)
  | JObject (members : list (string * value)).
#[local] Set Elimination Schemes.

Definition dquote : ascii := "034"%char.
Definition backslash : ascii := "092"%char.

Definition is_ws (c : ascii) : bool :=
  Ascii.eqb c " " || Ascii.eqb c "009" || Ascii.eqb c "010" || Ascii.eqb c "013".

Fixpoint skip_ws (s : string) : string :=
  match s with
  | String c r => if is_ws c then skip_ws r else s
  | EmptyString => s
  end.

Definition is_digit (c : ascii) : bool :=
  let n := nat_of_ascii c in (48 <=? n)%nat && (n <=? 57)%nat.

(** The longest run of digits at the head of [s], and the rest. *)
Fixpoint digits (s : string) : string * string :=
  match s with
  | String c r => if is_digit c then let '(d, t) := digits r in (String c d, t)
                  else (EmptyString, s)
  | EmptyString => (EmptyString, s)
  end.

(** The body of a string after its opening quote, up to the closing one;
    an escape keeps the character that follows, a control character is
    refused. *)
Fixpoint string_body (s : string) : option (string * string) :=
  match s with
  | EmptyString => None
  | String c r =>
      if Ascii.eqb c dquote then Some (EmptyString, r)
      else if Ascii.eqb c backslash then
        match r with
        | String e r1 =>
            match string_body r1 with
            | Some (t, rest) => Some (String c (String e t), rest)
            | None => None
            end
        | EmptyString => None
        end
      else if (nat_of_ascii c <? 32)%nat then None
      else match string_body r with
           | Some (t, rest) => Some (String c t, rest)
           | None => None
           end
  end.

(** [-? int frac? exp?] *)
Definition number (s : string) : option (string * string) :=
  let '(sign, s1) :=
    match s with
    | String "-" r => ("-"%string, r)
    | _ => (EmptyString, s)
    end in
  let '(int, s2) := digits s1 in
  let int_ok :=
    match int with
    | EmptyString => false
    | String "0" (String _ _) => false
    | _ => true
    end in
  if negb int_ok then None
  else
    let frac :=
      match s2 with
      | String "." r =>
          let '(d, t) := digits r in
          if PyStr.truthy d then Some ("." +:+ d, t) else None
      | _ => Some (EmptyString, s2)
      end in
    match frac with
    | None => None
    | Some (fr, s3) =>
        let exp :=
          match s3 with
          | String e r =>
              if Ascii.eqb e "e" || Ascii.eqb e "E" then
                let '(sg, r1) :=
                  match r with
                  | String "+" t => ("+"%string, t)
                  | String "-" t => ("-"%string, t)
                  | _ => (EmptyString, r)
                  end in
                let '(d, t) := digits r1 in
                if PyStr.truthy d then Some (String e sg +:+ d, t) else None
              else Some (EmptyString, s3)
          | EmptyString => Some (EmptyString, s3)
          end in
        match exp with
        | None => None
        | Some (ex, s4) => Some (sign +:+ int +:+ fr +:+ ex, s4)
        end
    end.

Definition literal (s : string) : option (value * string) :=
  if String.prefix "null" s then Some (JNull, PyStr.drop 4 s)
  else if String.prefix "true" s then Some (JBool true, PyStr.drop 4 s)
  else if String.prefix "false" s then Some (JBool false, PyStr.drop 5 s)
  else if String.prefix "NaN" s then Some (JNumber "NaN", PyStr.drop 3 s)
  else if String.prefix "Infinity" s then Some (JNumber "Infinity", PyStr.drop 8 s)
  else if String.prefix "-Infinity" s then Some (JNumber "-Infinity", PyStr.drop 9 s)
  else match number s with
       | Some (t, r) => Some (JNumber t, r)
       | None => None
       end.

(** One value at the head of [s], after white space. [elements] reads
    what follows an opening bracket or a comma of an array, [members] the
    same for an object. *)
Fixpoint parse (fuel : nat) (s : string) : option (value * string) :=
  match fuel with
  | O => None
  | S n =>
      match skip_ws s with
      | String c r =>
          if Ascii.eqb c "{" then
            match skip_ws r with
            | String "}" r1 => Some (JObject [], r1)
            | r1 =>
                match members n r1 with
                | Some (ms, r2) => Some (JObject ms, r2)
                | None => None
                end
            end
          else if Ascii.eqb c "[" then
            match skip_ws r with
            | String "]" r1 => Some (JArray [], r1)
            | r1 =>
                match elements n r1 with
                | Some (es, r2) => Some (JArray es, r2)
                | None => None
                end
            end
          else if Ascii.eqb c dquote then
            match string_body r with
            | Some (t, r1) => Some (JString t, r1)
            | None => None
            end
          else literal (String c r)
      | EmptyString => None
      end
  end
with elements (fuel : nat) (s : string) : option (list value * string) :=
  match fuel with
  | O => None
  | S n =>
      match parse n s with
      | Some (v, r) =>
          match skip_ws r with
          | String "," r1 =>
              match elements n r1 with
              | Some (vs, r2) => Some (v :: vs, r2)
              | None => None
              end
          | String "]" r1 => Some ([v], r1)
          | _ => None
          end
      | None => None
      end
  end
with members (fuel : nat) (s : string) : option (list (string * value) * string) :=
  match fuel with
  | O => None
  | S n =>
      match skip_ws s with
      | String q r =>
          if Ascii.eqb q dquote then
            match string_body r with
            | Some (k, r1) =>
                match skip_ws r1 with
                | String ":" r2 =>
                    match parse n r2 with
                    | Some (v, r3) =>
                        match skip_ws r3 with
                        | String "," r4 =>
                            match members n r4 with
                            | Some (ms, r5) => Some ((k, v) :: ms, r5)
                            | None => None
                            end
                        | String "}" r4 => Some ([(k, v)], r4)
                        | _ => None
                        end
                    | None => None
                    end
                | _ => None
                end
            | None => None
            end
          else None
      | EmptyString => None
      end
  end.

(** [json.loads(s)]: one value and nothing but white space after it. *)
Definition loads (s : string) : option value :=
  match parse (S (2 * String.length s)) s with
  | Some (v, r) => match skip_ws r with EmptyString => Some v | _ => None end
  | None => None
  end.

(** Test data is written with single quotes, which [dq] turns into the
    double quotes of JSON. *)
Definition dq (s : string) : string :=
  PyStr.map_chars (fun c => if Ascii.eqb c "'" then dquote else c) s.

End Json.

(** * Properties *)

(** ** The stream receiver *)

Section ReceiverProperties.

Import DataStream.

Context {frame : Type}.
Variable json_loads : string -> option frame.

#[local] Abbreviation Queue := (DataStream.Queue frame).
#[local] Abbreviation LineState := (DataStream.LineState frame).
#[local] Abbreviation Receiver := (DataStream.Receiver frame).

(** *** Lines and fuel *)

Lemma split1_shorter (sep : ascii) (s a b : string) :
  PyStr.split1 sep s = Some (a, b) -> (String.length b < String.length s)%nat.
Proof.
  revert a b. induction s as [|c r IH]; intros a b; simpl; [discriminate|].
  destruct (Ascii.eqb c sep).
  - intros [= <- <-]. lia.
  - destruct (PyStr.split1 sep r) as [[a1 b1]|] eqn:E; [|discriminate].
    intros [= <- <-]. specialize (IH _ _ eq_refl). lia.
Qed.

Lemma split1_last_length (sep : ascii) (s : string) :
  (String.length (PyStr.split1_last sep s) <= String.length s)%nat.
Proof.
  unfold PyStr.split1_last.
  destruct (PyStr.split1 sep s) as [[a b]|] eqn:E; [|lia].
  apply split1_shorter in E. lia.
Qed.

(** A line followed by its newline splits off whole. *)
Lemma split1_line (sep : ascii) (a rest : string) :
  PyStr.split1 sep a = None ->
  PyStr.split1 sep (a +:+ String sep rest) = Some (a, rest).
Proof.
  induction a as [|c r IH]; simpl.
  - intros _. now rewrite Ascii.eqb_refl.
  - destruct (Ascii.eqb c sep); [discriminate|].
    destruct (PyStr.split1 sep r) as [[a1 b1]|]; [discriminate|].
    intros _. now rewrite IH.
Qed.

(** The single-slot handoff, with no consumer: the queue holds the last
    frame handed over and nothing else. *)
Definition single_slot (q : Queue) (handed : list frame) : Prop :=
  maxsize q = 1 /\ items q = option_list (last handed).

Lemma single_slot_length (q : Queue) (handed : list frame) :
  single_slot q handed -> (length (items q) <= 1)%nat.
Proof. intros [_ ->]. destruct (last handed); simpl; lia. Qed.

Lemma enqueue_single_slot (x : frame) (q : Queue) :
  maxsize q = 1 -> (length (items q) <= 1)%nat ->
  enqueue x q = inr (mkQueue 1 [x]).
Proof.
  destruct q as [m [|y [|z l]]]; simpl; intros -> Hl; try (simpl in Hl; lia); reflexivity.
Qed.

Lemma process_lines_single_slot (fuel : nat) (s : LineState) :
  single_slot (ls_queue s) (ls_decoded s) ->
  (String.length (ls_buffer s) <= fuel)%nat ->
  exists s', process_lines json_loads fuel s = LinesDone s'
             /\ single_slot (ls_queue s') (ls_decoded s').
Proof.
  revert s. induction fuel as [|n IH]; intros s Hq Hlen.
  - destruct s as [b q d w]; simpl in *. destruct b; [|simpl in Hlen; lia].
    simpl. eauto.
  - simpl. destruct (PyStr.split1 PyStr.nl (ls_buffer s)) as [[line rest]|] eqn:E; [|eauto].
    pose proof (split1_shorter _ _ _ _ E) as Hs.
    destruct (negb (PyStr.truthy (PyStr.strip line))).
    { apply IH; simpl; [assumption|lia]. }
    destruct (json_loads line) as [f|].
    + rewrite enqueue_single_slot by (try apply Hq; eapply single_slot_length; eassumption).
      apply IH; simpl; [|lia]. split; [reflexivity|]. now rewrite last_snoc.
    + apply IH; simpl; [assumption|].
      pose proof (split1_last_length PyStr.nl rest). lia.
Qed.

(** The line loop never runs out of fuel, whatever the queue holds. *)
Lemma process_lines_enough_fuel (fuel : nat) (s : LineState) :
  (String.length (ls_buffer s) <= fuel)%nat ->
  process_lines json_loads fuel s <> LinesOutOfFuel.
Proof.
  revert s. induction fuel as [|n IH]; intros s Hlen.
  - destruct s as [b q d w]; simpl in *. destruct b; [|simpl in Hlen; lia].
    simpl. discriminate.
  - simpl. destruct (PyStr.split1 PyStr.nl (ls_buffer s)) as [[line rest]|] eqn:E;
      [|discriminate].
    pose proof (split1_shorter _ _ _ _ E) as Hs.
    destruct (negb (PyStr.truthy (PyStr.strip line))); [apply IH; simpl; lia|].
    destruct (json_loads line) as [f|].
    + destruct (enqueue f (ls_queue s)) as [[e q]|q]; [discriminate|].
      apply IH; simpl; lia.
    + apply IH; simpl. pose proof (split1_last_length PyStr.nl rest). lia.
Qed.

Lemma process_buffer_terminates (s : LineState) :
  process_buffer json_loads s <> LinesOutOfFuel.
Proof. apply process_lines_enough_fuel. lia. Qed.

(** [get_latest_data] always returns. *)
Lemma drain_enough_fuel (fuel : nat) (q : Queue) (latest : option frame) :
  (length (items q) <= fuel)%nat ->
  drain fuel q latest
  = Some (match last (items q) with Some x => Some x | None => latest end,
          mkQueue (maxsize q) []).
Proof.
  revert q latest. induction fuel as [|n IH]; intros [m l] latest Hlen; simpl in *.
  - destruct l; [reflexivity|simpl in Hlen; lia].
  - destruct l as [|x l]; [reflexivity|]. unfold get_nowait; simpl.
    rewrite IH by (simpl in *; lia). simpl. rewrite last_cons.
    now destruct (last l).
Qed.

Lemma get_latest_data_returns (q : Queue) :
  get_latest_data q = Some (last (items q), mkQueue (maxsize q) []).
Proof.
  unfold get_latest_data. rewrite drain_enough_fuel by lia. now destruct (last (items q)).
Qed.

(** *** Invariants of the receiver thread *)

Definition delay_ok (r : Receiver) : Prop :=
  (reconnect_delay r = 1 \/ reconnect_delay r = 2 \/ reconnect_delay r = 4 \/ reconnect_delay r = 8)
  /\ (sock r = true -> reconnect_delay r = 1)
  /\ Forall (fun p => match p with Backoff d => 1 <= d <= 8 | ErrorPause => True end) (slept r).

Definition receiver_inv (r : Receiver) : Prop :=
  single_slot (data_queue r) (decoded r) /\ delay_ok r.

Lemma start_inv : receiver_inv (start 1).
Proof.
  repeat split; simpl; auto.
Qed.

Lemma step_inv (r : Receiver) (e : Event) : receiver_inv r -> receiver_inv (step json_loads r e).
Proof.
  intros Hr. pose proof Hr as [[Hm Hi] (Hd & Hs & Hsl)]. unfold step.
  destruct (running r) eqn:Hrun; simpl; [|exact Hr].
  destruct e, (sock r) eqn:Hsock; simpl; try exact Hr.
  - (* a failed attempt *)
    repeat split; simpl; try assumption; try discriminate.
    + lia.
    + rewrite Forall_app. split; [assumption|]. constructor; [lia|constructor].
  - (* a successful attempt *)
    repeat split; simpl; try assumption; auto. now rewrite app_nil_r.
  - (* a chunk *)
    destruct (negb (PyStr.truthy chunk)); simpl.
    { repeat split; simpl; try assumption; try discriminate. now rewrite app_nil_r. }
    unfold process_buffer; cbn [ls_buffer].
    destruct (process_lines_single_slot
                (String.length (buffer r +:+ chunk))
                (mkLineState (buffer r +:+ chunk) (data_queue r) (decoded r) (warnings r)))
      as (s' & -> & Hq'); [split; assumption|simpl; lia|].
    repeat split; simpl; try apply Hq'; auto.
  - (* connection reset *)
    repeat split; simpl; try assumption; try discriminate. now rewrite app_nil_r.
  - (* another socket error *)
    repeat split; simpl; try assumption; try discriminate.
    rewrite Forall_app. split; [assumption|]. repeat constructor.
  - (* stop, while connecting *)
    repeat split; simpl; try assumption; try discriminate.
  - (* stop, while connected *)
    repeat split; simpl; try assumption; try discriminate.
Qed.

Lemma run_snoc (r : Receiver) (evs : list Event) (e : Event) :
  run json_loads r (evs ++ [e]) = step json_loads (run json_loads r evs) e.
Proof. unfold run. now rewrite fold_left_app. Qed.

Lemma run_app (r : Receiver) (evs1 evs2 : list Event) :
  run json_loads r (evs1 ++ evs2) = run json_loads (run json_loads r evs1) evs2.
Proof. unfold run. now rewrite fold_left_app. Qed.

Lemma run_inv (r : Receiver) (evs : list Event) :
  receiver_inv r -> receiver_inv (run json_loads r evs).
Proof.
  revert r. induction evs as [|e evs IH]; intros r Hr; simpl; [assumption|].
  apply IH, step_inv, Hr.
Qed.

(** *** The handoff queue *)

Lemma enqueue_all_single_slot (xs : list frame) (q : Queue) :
  maxsize q = 1 -> (length (items q) <= 1)%nat ->
  exists q', enqueue_all xs q = inr q'
             /\ maxsize q' = 1
             /\ items q' = match last xs with Some x => [x] | None => items q end.
Proof.
  revert q. induction xs as [|x xs IH]; intros q Hm Hl; simpl.
  - eauto.
  - rewrite enqueue_single_slot by assumption.
    destruct (IH (mkQueue 1 [x])) as (q' & -> & Hm' & Hi'); [reflexivity|simpl; lia|].
    exists q'. repeat split; [assumption|].
    rewrite Hi', last_cons. now destruct (last xs).
Qed.

Lemma get_latest_data_one (m : Z) (x : frame) :
  get_latest_data (mkQueue m [x]) = Some (Some x, mkQueue m []).
Proof. reflexivity. Qed.

Lemma get_latest_data_none (m : Z) :
  get_latest_data (mkQueue m ([] : list frame)) = Some (None, mkQueue m []).
Proof. reflexivity. Qed.

(** C6. The handoff queue of a receiver never holds more than one frame,
    whatever the traffic, and its producer is never refused; after any
    number N >= 1 of enqueues with no read in between (here the frames
    [fs] and then [f]), every intermediate queue holds at most one frame,
    the accessor returns exactly the last frame [f] and leaves the queue
    empty, and the next call returns [None]. *)
Theorem handoff_keeps_only_newest (evs : list Event) (fs : list frame) (f : frame) :
  let r := run json_loads (start 1) evs in
  (length (items (data_queue r)) <= 1)%nat
  /\ (forall chunk : string,
        exists s, process_buffer json_loads
                    (mkLineState (buffer r +:+ chunk) (data_queue r) (decoded r) (warnings r))
                  = LinesDone s)
  /\ (forall k : nat,
        exists q, enqueue_all (take k (fs ++ [f])) (data_queue r) = inr q
                  /\ (length (items q) <= 1)%nat)
  /\ exists q1 q2,
       enqueue_all (fs ++ [f]) (data_queue r) = inr q1
       /\ get_latest_data q1 = Some (Some f, q2)
       /\ items q2 = []
       /\ get_latest_data q2 = Some (None, q2).
Proof.
  intros r.
  destruct (run_inv (start 1) evs start_inv) as [Hq _]. fold r in Hq.
  pose proof (single_slot_length _ _ Hq) as Hl. destruct Hq as [Hm Hi].
  split; [assumption|]. split; [|split].
  - intros chunk. unfold process_buffer; cbn [ls_buffer].
    destruct (process_lines_single_slot
                (String.length (buffer r +:+ chunk))
                (mkLineState (buffer r +:+ chunk) (data_queue r) (decoded r) (warnings r)))
      as (s' & -> & _); [split; assumption|simpl; lia|]. eauto.
  - intros k.
    destruct (enqueue_all_single_slot (take k (fs ++ [f])) _ Hm Hl) as (q & -> & _ & Hq).
    exists q. split; [reflexivity|]. rewrite Hq.
    destruct (last (take k (fs ++ [f]))); [simpl; lia|exact Hl].
  - destruct (enqueue_all_single_slot (fs ++ [f]) _ Hm Hl) as (q & -> & Hm' & Hq).
    rewrite last_snoc in Hq. destruct q as [m l]; simpl in *; subst.
    exists (mkQueue 1 [f]), (mkQueue 1 []). repeat split.
Qed.

(** *** Reconnect backoff *)

Definition ladder (j n : nat) : list Pause :=
  map (fun k => Backoff (Z.min (2 ^ Z.of_nat (j + k)) 8)) (seq 0 n).

Lemma ladder_succ (j n : nat) :
  ladder j (S n) = Backoff (Z.min (2 ^ Z.of_nat j) 8) :: ladder (S j) n.
Proof.
  unfold ladder. simpl. rewrite Nat.add_0_r. f_equal.
  rewrite <- seq_shift, map_map. apply map_ext. intros k.
  now replace (j + S k)%nat with (S (j + k))%nat by lia.
Qed.

Lemma run_failures (n : nat) (r : Receiver) (j : nat) :
  running r = true -> sock r = false ->
  reconnect_delay r = Z.min (2 ^ Z.of_nat j) 8 ->
  let r' := run json_loads r (repeat ConnectFails n) in
  slept r' = slept r ++ ladder j n
  /\ reconnect_delay r' = Z.min (2 ^ Z.of_nat (j + n)) 8
  /\ running r' = true /\ sock r' = false.
Proof.
  revert r j. induction n as [|n IH]; intros r j Hrun Hsock Hd; simpl.
  - rewrite app_nil_r, Nat.add_0_r. auto.
  - set (r1 := step json_loads r ConnectFails).
    assert (H1 : running r1 = true /\ sock r1 = false
                 /\ slept r1 = slept r ++ [Backoff (reconnect_delay r)]
                 /\ reconnect_delay r1 = Z.min (reconnect_delay r * 2) 8).
    { unfold r1, step. rewrite Hrun, Hsock. simpl. auto. }
    destruct H1 as (Hrun1 & Hsock1 & Hsl1 & Hd1).
    destruct (IH r1 (S j) Hrun1 Hsock1) as (Hsl & Hd' & Hr' & Hs').
    { rewrite Hd1, Hd. rewrite Nat2Z.inj_succ, Z.pow_succ_r by lia.
      assert (0 < 2 ^ Z.of_nat j) by (apply Z.pow_pos_nonneg; lia). lia. }
    repeat split; try assumption.
    + rewrite Hsl, Hsl1, ladder_succ, Hd, <- app_assoc. reflexivity.
    + rewrite Hd'. now replace (S j + n)%nat with (j + S n)%nat by lia.
Qed.

Lemma step_keeps_floor (r : Receiver) (e : Event) :
  e <> ConnectFails -> reconnect_delay r = 1 -> reconnect_delay (step json_loads r e) = 1.
Proof.
  intros He Hd. unfold step.
  destruct (running r); simpl; [|assumption].
  destruct e, (sock r); simpl; try assumption; try reflexivity; try congruence.
  destruct (negb (PyStr.truthy chunk)); simpl; [assumption|].
  destruct (process_buffer _ _); simpl; assumption.
Qed.

Lemma run_keeps_floor (mid : list Event) (r : Receiver) :
  Forall (fun e => e <> ConnectFails) mid ->
  reconnect_delay r = 1 -> reconnect_delay (run json_loads r mid) = 1.
Proof.
  revert r. induction mid as [|e mid IH]; intros r Hmid Hd; simpl; [assumption|].
  inversion Hmid; subst. apply IH; [assumption|]. now apply step_keeps_floor.
Qed.

(** C7. The delay slept before a retry is the current backoff delay; it
    starts at 1 when the thread starts, a failed attempt doubles it up to
    the ceiling of 8 (strictly doubling below the ceiling), it never
    leaves the range 1..8, and a successful connect sets it back to 1:
    the run of [n] failures that follows a success, however long the
    connection lasted, sleeps 1, 2, 4, 8, 8, ... again. *)
Theorem backoff_doubles_to_ceiling_and_resets (evs mid : list Event) (n : nat) :
  let r := run json_loads (start 1) evs in
  1 <= reconnect_delay r <= 8
  /\ Forall (fun p => match p with Backoff d => 1 <= d <= 8 | ErrorPause => True end) (slept r)
  /\ slept (run json_loads (start 1) (repeat ConnectFails n)) = ladder 0 n
  /\ (running r = true -> sock r = false ->
        let r1 := step json_loads r ConnectFails in
        slept r1 = slept r ++ [Backoff (reconnect_delay r)]
        /\ reconnect_delay r1 = Z.min (reconnect_delay r * 2) 8
        /\ (reconnect_delay r < 8 -> reconnect_delay r1 = 2 * reconnect_delay r))
  /\ (running r = true -> sock r = false ->
        Forall (fun e => e <> ConnectFails) mid ->
        let r2 := run json_loads (step json_loads r ConnectOk) mid in
        reconnect_delay (step json_loads r ConnectOk) = 1
        /\ reconnect_delay r2 = 1
        /\ (running r2 = true -> sock r2 = false ->
              slept (run json_loads r2 (repeat ConnectFails n)) = slept r2 ++ ladder 0 n)).
Proof.
  intros r.
  destruct (run_inv (start 1) evs start_inv) as [_ (Hd & Hs & Hsl)]. fold r in Hd, Hs, Hsl.
  split; [lia|]. split; [assumption|]. split; [|split].
  - now destruct (run_failures n (start 1) 0 eq_refl eq_refl eq_refl) as (-> & _).
  - intros Hrun Hsock. unfold step. rewrite Hrun, Hsock. simpl.
    repeat split. lia.
  - intros Hrun Hsock Hmid.
    assert (H1 : reconnect_delay (step json_loads r ConnectOk) = 1).
    { unfold step. rewrite Hrun, Hsock. reflexivity. }
    pose proof (run_keeps_floor mid _ Hmid H1) as H2.
    repeat split; try assumption.
    intros Hrun2 Hsock2.
    now destruct (run_failures n _ 0 Hrun2 Hsock2 H2) as (-> & _).
Qed.

(** *** Malformed lines *)

(** The text of newline-terminated lines, as it travels. *)
Definition wire (lines : list string) : string :=
  fold_right (fun l rest => l +:+ String PyStr.nl rest) EmptyString lines.

Lemma process_lines_more_fuel (n m : nat) (s s' : LineState) :
  process_lines json_loads n s = LinesDone s' -> (n <= m)%nat ->
  process_lines json_loads m s = LinesDone s'.
Proof.
  revert m s. induction n as [|n IH]; intros m s H Hle.
  - destruct m; simpl in *; destruct (PyStr.split1 PyStr.nl (ls_buffer s)) as [[a b]|];
      congruence.
  - destruct m as [|m]; [lia|]. simpl in *.
    destruct (PyStr.split1 PyStr.nl (ls_buffer s)) as [[a b]|]; [|assumption].
    destruct (negb (PyStr.truthy (PyStr.strip a))); [apply IH; [assumption|lia]|].
    destruct (json_loads a).
    + destruct (enqueue f (ls_queue s)) as [[e q]|q]; [discriminate|].
      apply IH; [assumption|lia].
    + apply IH; [assumption|lia].
Qed.

Lemma process_lines_valid (fuel : nat) (line rest : string) (q : Queue)
    (d : list frame) (w : list string) (f : frame) :
  PyStr.split1 PyStr.nl line = None ->
  PyStr.truthy (PyStr.strip line) = true ->
  json_loads line = Some f ->
  maxsize q = 1 -> (length (items q) <= 1)%nat ->
  process_lines json_loads (S fuel) (mkLineState (line +:+ String PyStr.nl rest) q d w)
  = process_lines json_loads fuel (mkLineState rest (mkQueue 1 [f]) (d ++ [f]) w).
Proof.
  intros Hnl Hne Hj Hm Hl. simpl. rewrite split1_line by assumption.
  rewrite Hne, Hj. simpl. now rewrite enqueue_single_slot.
Qed.

Lemma process_lines_malformed (fuel : nat) (line rest : string) (q : Queue)
    (d : list frame) (w : list string) :
  PyStr.split1 PyStr.nl line = None ->
  PyStr.truthy (PyStr.strip line) = true ->
  json_loads line = None ->
  process_lines json_loads (S fuel) (mkLineState (line +:+ String PyStr.nl rest) q d w)
  = process_lines json_loads fuel
      (mkLineState (PyStr.split1_last PyStr.nl rest) q d (w ++ [PyStr.take 50 line])).
Proof.
  intros Hnl Hne Hj. simpl. rewrite split1_line by assumption.
  now rewrite Hne, Hj.
Qed.

Lemma recv_connected (r : Receiver) (chunk : string) (s : LineState) (n : nat) :
  running r = true -> sock r = true -> PyStr.truthy chunk = true ->
  process_lines json_loads n
    (mkLineState (buffer r +:+ chunk) (data_queue r) (decoded r) (warnings r)) = LinesDone s ->
  (n <= String.length (buffer r +:+ chunk))%nat ->
  step json_loads r (Recv chunk)
  = mkReceiver true (status r) (reconnect_delay r) true (ls_buffer s) (ls_queue s)
      (ls_decoded s) (ls_warnings s) (slept r).
Proof.
  intros Hrun Hsock Hc Hp Hn. unfold step. rewrite Hrun, Hsock, Hc. simpl.
  unfold process_buffer; cbn [ls_buffer].
  now rewrite (process_lines_more_fuel _ _ _ _ Hp Hn).
Qed.

Lemma string_length_app (a b : string) :
  String.length (a +:+ b) = (String.length a + String.length b)%nat.
Proof. induction a as [|c a IH]; simpl; [reflexivity|now rewrite IH]. Qed.

Lemma connected_fresh :
  step json_loads (start 1) ConnectOk
  = mkReceiver true STATUS_CONNECTED 1 true EmptyString (mkQueue 1 []) [] [] [].
Proof. reflexivity. Qed.

Lemma truthy_line (a rest : string) : PyStr.truthy (a +:+ String PyStr.nl rest) = true.
Proof. now destruct a. Qed.

(** Rewrite the reception of a chunk with the result of its line loop. *)
Ltac use_recv n H :=
  match goal with
  | |- context [DataStream.step ?jl ?r (DataStream.Recv ?c)] =>
      rewrite (recv_connected r c _ n eq_refl eq_refl (truthy_line _ _) H)
  end.

(** C1, on the code. When the malformed line and the valid line after it
    arrive in one chunk, the handler of the decode failure cuts the
    buffer at the next newline a second time: the valid line that follows
    is thrown away undecoded. One failure is reported, one frame, not two,
    is decoded. *)
Theorem malformed_line_swallows_next_line (v1 bad v2 : string) (f1 f2 : frame) :
  PyStr.split1 PyStr.nl v1 = None ->
  PyStr.split1 PyStr.nl bad = None ->
  PyStr.split1 PyStr.nl v2 = None ->
  PyStr.truthy (PyStr.strip v1) = true ->
  PyStr.truthy (PyStr.strip bad) = true ->
  json_loads v1 = Some f1 ->
  json_loads bad = None ->
  json_loads v2 = Some f2 ->
  let r := run json_loads (start 1) [ConnectOk; Recv (wire [v1; bad; v2])] in
  decoded r = [f1]
  /\ warnings r = [PyStr.take 50 bad]
  /\ buffer r = EmptyString
  /\ items (data_queue r) = [f1]
  /\ status r = STATUS_CONNECTED.
Proof.
  intros N1 Nb N2 T1 Tb J1 Jb J2 r. subst r. unfold run. cbn [fold_left].
  rewrite connected_fresh.
  assert (Hp : process_lines json_loads 2
                 (mkLineState (wire [v1; bad; v2]) (mkQueue 1 []) [] [])
               = LinesDone (mkLineState EmptyString (mkQueue 1 [f1]) [f1] [PyStr.take 50 bad])).
  { cbn [wire fold_right].
    rewrite (process_lines_valid _ _ _ _ _ _ f1) by (try assumption; try reflexivity; simpl; lia).
    rewrite process_lines_malformed by assumption.
    unfold PyStr.split1_last. rewrite split1_line by assumption.
    reflexivity. }
  use_recv 2%nat Hp.
  - repeat split; reflexivity.
  - cbn [wire fold_right buffer]. change (EmptyString +:+ ?x) with x.
    rewrite !string_length_app. simpl. rewrite !string_length_app. simpl. lia.
Qed.

(** The same three lines, each in a chunk of its own: the cut finds no
    newline left in the buffer and both valid lines are decoded. *)
Lemma malformed_line_in_own_chunk_is_skipped (v1 bad v2 : string) (f1 f2 : frame) :
  PyStr.split1 PyStr.nl v1 = None ->
  PyStr.split1 PyStr.nl bad = None ->
  PyStr.split1 PyStr.nl v2 = None ->
  PyStr.truthy (PyStr.strip v1) = true ->
  PyStr.truthy (PyStr.strip bad) = true ->
  PyStr.truthy (PyStr.strip v2) = true ->
  json_loads v1 = Some f1 ->
  json_loads bad = None ->
  json_loads v2 = Some f2 ->
  let r := run json_loads (start 1)
             [ConnectOk; Recv (wire [v1]); Recv (wire [bad]); Recv (wire [v2])] in
  decoded r = [f1; f2] /\ warnings r = [PyStr.take 50 bad] /\ buffer r = EmptyString.
Proof.
  intros N1 Nb N2 T1 Tb T2 J1 Jb J2 r. subst r. unfold run. cbn [fold_left].
  rewrite connected_fresh.
  assert (H1 : process_lines json_loads 1 (mkLineState (wire [v1]) (mkQueue 1 []) [] [])
               = LinesDone (mkLineState EmptyString (mkQueue 1 [f1]) [f1] [])).
  { cbn [wire fold_right].
    rewrite (process_lines_valid _ _ _ _ _ _ f1) by (try assumption; try reflexivity; simpl; lia).
    reflexivity. }
  use_recv 1%nat H1;
    [|cbn [wire fold_right buffer]; change (EmptyString +:+ ?x) with x;
      rewrite string_length_app; simpl; lia].
  cbn [ls_buffer ls_queue ls_decoded ls_warnings status reconnect_delay slept].
  assert (H2 : process_lines json_loads 1
                 (mkLineState (wire [bad]) (mkQueue 1 [f1]) [f1] [])
               = LinesDone (mkLineState EmptyString (mkQueue 1 [f1]) [f1] [PyStr.take 50 bad])).
  { cbn [wire fold_right]. rewrite process_lines_malformed by assumption. reflexivity. }
  use_recv 1%nat H2;
    [|cbn [wire fold_right buffer]; change (EmptyString +:+ ?x) with x;
      rewrite string_length_app; simpl; lia].
  cbn [ls_buffer ls_queue ls_decoded ls_warnings status reconnect_delay slept].
  assert (H3 : process_lines json_loads 1
                 (mkLineState (wire [v2]) (mkQueue 1 [f1]) [f1] [PyStr.take 50 bad])
               = LinesDone (mkLineState EmptyString (mkQueue 1 [f2]) [f1; f2]
                              [PyStr.take 50 bad])).
  { cbn [wire fold_right].
    rewrite (process_lines_valid _ _ _ _ _ _ f2) by (try assumption; try reflexivity; simpl; lia).
    reflexivity. }
  use_recv 1%nat H3;
    [|cbn [wire fold_right buffer]; change (EmptyString +:+ ?x) with x;
      rewrite string_length_app; simpl; lia].
  repeat split; reflexivity.
Qed.

End ReceiverProperties.

(** *** The receiver on concrete traffic, with the reference decoder *)

Definition line_identity : string :=
  Json.dq "{'mode':'WHOLE_BODY','joints':{'Spine':{'rotation_wzxy':[1,0,0,0]}}}".

Definition line_cut : string := Json.dq "{'mode':'WHO".

Definition line_quarter_turn : string :=
  Json.dq "{'mode':'WHOLE_BODY','joints':{'Spine':{'rotation_wzxy':[0.707,0,0.707,0]}}}".

Definition spine_frame (w x y z : string) : Json.value :=
  Json.JObject
    [ ("mode", Json.JString "WHOLE_BODY");
      ("joints",
       Json.JObject
         [("Spine",
           Json.JObject
             [("rotation_wzxy",
               Json.JArray [Json.JNumber w; Json.JNumber x; Json.JNumber y; Json.JNumber z])])])
    ]%string.

Lemma malformed_line_swallows_next_line_witness :
  let r := DataStream.run Json.loads (DataStream.start 1)
             [DataStream.ConnectOk;
              DataStream.Recv (wire [line_identity; line_cut; line_quarter_turn])] in
  DataStream.decoded r = [spine_frame "1" "0" "0" "0"]
  /\ DataStream.warnings r = [PyStr.take 50 line_cut]
  /\ DataStream.buffer r = EmptyString
  /\ DataStream.items (DataStream.data_queue r) = [spine_frame "1" "0" "0" "0"]
  /\ DataStream.status r = DataStream.STATUS_CONNECTED.
Proof.
  apply (malformed_line_swallows_next_line Json.loads line_identity line_cut line_quarter_turn
           (spine_frame "1" "0" "0" "0") (spine_frame "0.707" "0" "0.707" "0"));
    vm_compute; reflexivity.
Defined.

(** Chunk by chunk, the same lines give both frames. *)
Example malformed_line_in_own_chunk_example :
  let r := DataStream.run Json.loads (DataStream.start 1)
             [DataStream.ConnectOk;
              DataStream.Recv (wire [line_identity]);
              DataStream.Recv (wire [line_cut]);
              DataStream.Recv (wire [line_quarter_turn])] in
  DataStream.decoded r = [spine_frame "1" "0" "0" "0"; spine_frame "0.707" "0" "0.707" "0"]
  /\ length (DataStream.warnings r) = 1%nat.
Proof. vm_compute. split; reflexivity. Qed.

Lemma backoff_doubles_to_ceiling_and_resets_witness :
  let r := DataStream.run Json.loads (DataStream.start 1)
             [DataStream.ConnectFails; DataStream.ConnectFails] in
  let r1 := DataStream.step Json.loads r DataStream.ConnectFails in
  let r2 := DataStream.run Json.loads (DataStream.step Json.loads r DataStream.ConnectOk)
              [DataStream.Recv (wire [line_identity]); DataStream.RecvReset] in
  (DataStream.slept r1 = DataStream.slept r ++ [DataStream.Backoff (DataStream.reconnect_delay r)]
   /\ DataStream.reconnect_delay r1 = Z.min (DataStream.reconnect_delay r * 2) 8
   /\ (DataStream.reconnect_delay r < 8 ->
       DataStream.reconnect_delay r1 = 2 * DataStream.reconnect_delay r))
  /\ DataStream.reconnect_delay (DataStream.step Json.loads r DataStream.ConnectOk) = 1
  /\ DataStream.reconnect_delay r2 = 1
  /\ DataStream.slept (DataStream.run Json.loads r2 (repeat DataStream.ConnectFails 6))
     = DataStream.slept r2 ++ ladder 0 6.
Proof.
  intros r r1 r2.
  pose proof (backoff_doubles_to_ceiling_and_resets Json.loads
                [DataStream.ConnectFails; DataStream.ConnectFails]
                [DataStream.Recv (wire [line_identity]); DataStream.RecvReset] 6) as H.
  cbv zeta in H. destruct H as (_ & _ & _ & Hfail & Hreset).
  assert (Hmid : Forall (fun e : DataStream.Event => e <> DataStream.ConnectFails)
                   [DataStream.Recv (wire [line_identity]); DataStream.RecvReset]).
  { repeat constructor; discriminate. }
  destruct (Hreset eq_refl eq_refl Hmid) as (H1 & H2 & H3).
  split; [exact (Hfail eq_refl eq_refl)|].
  split; [exact H1|]. split; [exact H2|].
  apply H3; vm_compute; reflexivity.
Defined.

Example backoff_sleeps_example :
  DataStream.slept (DataStream.run Json.loads (DataStream.start 1)
                      (repeat DataStream.ConnectFails 6))
  = [DataStream.Backoff 1; DataStream.Backoff 2; DataStream.Backoff 4; DataStream.Backoff 8;
     DataStream.Backoff 8; DataStream.Backoff 8].
Proof. vm_compute. reflexivity. Qed.

(** ** The retargeting engine *)

Section EngineProperties.

Import Mathutils MocapLogic.

Local Open Scope R_scope.

(** *** Quaternions *)

Lemma two_point_zero : 2.0 = 2.
Proof. lra. Qed.

Lemma inverted_left (q : Quaternion) : qdot q q <> 0 -> qmul (inverted q) q = identity.
Proof.
  destruct q as [w x y z]. intros H. unfold inverted.
  destruct (Req_dec_T _ _) as [e|n]; [contradiction|].
  unfold qmul, identity, qdot in *; simpl in *. f_equal; field; exact H.
Qed.

Lemma get_bone_name (n : string) (bones : list PoseBone) (b : PoseBone) :
  get_bone n bones = Some b -> name b = n.
Proof.
  induction bones as [|b0 r IH]; simpl; [discriminate|].
  destruct (String.eqb (name b0) n) eqn:E.
  - intros [= <-]. now apply String.eqb_eq.
  - exact IH.
Qed.

(** *** Calibration *)

Lemma calibrate_bones_keeps (bones : list PoseBone) (bone_map : list (string * string))
    (acc : gmap string Quaternion * nat) (k : string) (pb : PoseBone) :
  get_bone k bones = Some pb ->
  acc.1 !! k = Some (inverted (rotation_quaternion pb)) ->
  (calibrate_bones bones bone_map acc).1 !! k = Some (inverted (rotation_quaternion pb)).
Proof.
  intros Hk. revert acc. unfold calibrate_bones.
  induction bone_map as [|[m bn] l IH]; intros [offsets n] Hacc; simpl; [exact Hacc|].
  apply IH. destruct (get_bone bn bones) as [pb'|] eqn:E; simpl; [|exact Hacc].
  destruct (decide (bn = k)) as [->|Hne].
  - rewrite E in Hk. injection Hk as ->. apply lookup_insert_eq.
  - rewrite lookup_insert_ne by assumption. exact Hacc.
Qed.

Lemma calibrate_bones_lookup (bones : list PoseBone) (bone_map : list (string * string))
    (acc : gmap string Quaternion * nat) (k : string) (pb : PoseBone) :
  get_bone k bones = Some pb ->
  In k (map snd bone_map) ->
  (calibrate_bones bones bone_map acc).1 !! k = Some (inverted (rotation_quaternion pb)).
Proof.
  intros Hk. revert acc.
  induction bone_map as [|[m bn] l IH]; intros [offsets n] Hin; simpl in *; [contradiction|].
  destruct Hin as [->|Hin].
  - change (calibrate_bones bones ((m, k) :: l) (offsets, n))
      with (calibrate_bones bones l
              (match get_bone k bones with
               | Some pose_bone => (<[k := inverted (rotation_quaternion pose_bone)]> offsets, S n)
               | None => (offsets, n)
               end)).
    rewrite Hk. apply calibrate_bones_keeps; [assumption|]. apply lookup_insert_eq.
  - apply (IH _ Hin).
Qed.

(** C8. [apply_rotation] writes the calibration offset composed on the
    left of the incoming quaternion, and the incoming quaternion itself
    when the bone has no offset. With the inverse of a unit rotation as
    offset and that rotation arriving, the identity is written; this is
    what happens after [calibrate_pose] has captured a mapped bone at that
    rotation. *)
Theorem calibration_offset_premultiplies (offsets : gmap string Quaternion)
    (pose_bone : PoseBone) (w x y z : R) :
  let q_in := mkQuaternion w x y z in
  let written := rotation_quaternion (apply_rotation offsets pose_bone [w; x; y; z]) in
  (forall q_cal : Quaternion,
     offsets !! name pose_bone = Some q_cal -> written = qmul q_cal q_in)
  /\ (offsets !! name pose_bone = None -> written = q_in)
  /\ (qdot q_in q_in = 1 ->
      offsets !! name pose_bone = Some (inverted q_in) -> written = identity)
  /\ (forall (obj : Object) (s : Session),
        qdot q_in q_in = 1 ->
        String.eqb (obj_type obj) "ARMATURE" = true ->
        String.eqb (obj_mode obj) "POSE" || mode_set_ok s = true ->
        get_bone (name pose_bone) (pose_bones obj) = Some pose_bone ->
        rotation_quaternion pose_bone = q_in ->
        In (name pose_bone) (map snd (get_bone_map_from_properties (props s))) ->
        let s' := (calibrate_pose (Some obj) s).2 in
        (calibrate_pose (Some obj) s).1.1 = inr true
        /\ CALIBRATION_OFFSETS s' !! name pose_bone = Some (inverted q_in)
        /\ rotation_quaternion (apply_rotation (CALIBRATION_OFFSETS s') pose_bone [w; x; y; z])
           = identity).
Proof.
  intros q_in written.
  assert (Hleft : qdot q_in q_in = 1 -> qmul (inverted q_in) q_in = identity).
  { intros H. apply inverted_left. rewrite H. lra. }
  split; [|split; [|split]].
  - intros q_cal H. unfold written, apply_rotation. now rewrite H.
  - intros H. unfold written, apply_rotation. now rewrite H.
  - intros Hu H. unfold written, apply_rotation. rewrite H. simpl. now apply Hleft.
  - intros obj s Hu Ht Hm Hb Hr Hin.
    unfold calibrate_pose. rewrite Ht. cbn [negb].
    assert (Hgo : negb (String.eqb (obj_mode obj) "POSE")
                  && negb (mode_set_ok (set_active (Some (obj_name obj)) (set_offsets ∅ s)))
                  = false).
    { simpl. destruct (String.eqb (obj_mode obj) "POSE"), (mode_set_ok s);
        simpl in *; congruence. }
    rewrite Hgo.
    pose proof (calibrate_bones_lookup (pose_bones (set_mode "POSE" obj))
                  (get_bone_map_from_properties (props (set_offsets ∅ s)))
                  (CALIBRATION_OFFSETS (set_active (Some (obj_name obj)) (set_offsets ∅ s)), O)
                  (name pose_bone) pose_bone Hb Hin) as Hl.
    destruct (calibrate_bones _ _ _) as [offsets' n]. simpl in Hl |- *.
    rewrite Hr in Hl. split; [reflexivity|]. split; [exact Hl|].
    unfold apply_rotation. rewrite Hl. simpl. now apply Hleft.
Qed.

(** *** Two-bone IK *)

Lemma length_nonneg (v : Vector) : 0 <= length v.
Proof. apply sqrt_pos. Qed.

(** C9. With both rest lengths 1 and the target at distance 2 - 0.001
    from the root (0.001 being the margin of the clamp), the solver puts
    the joint at the midpoint of root and target; with the target on the
    root it returns at once, no bone is touched and nothing is divided. *)
Theorem two_bone_ik_boundary (root target : Vector) :
  (length (vsub target root) = 2 - / 1000 ->
   ik_joint_pos root target 1 1 = inr (Some (vdiv (vadd root target) 2))
   /\ forall (mid : Vector) (upper_name lower_name : string) (c : Ctx) (upper lower : PoseBone),
        get_bone upper_name (pose_bones (arm c)) = Some upper ->
        get_bone lower_name (pose_bones (arm c)) = Some lower ->
        bone_length upper = 1 -> bone_length lower = 1 ->
        two_bone_ik root mid target upper_name lower_name c
        = bind (set_bone_direction root (vdiv (vadd root target) 2) upper_name)
            (fun _ => bind (set_bone_direction (vdiv (vadd root target) 2) target lower_name)
                        (fun _ => say (MsgIKApplied upper_name lower_name))) c)
  /\ (length (vsub target root) = 0 ->
      (forall L1 L2 : R, ik_joint_pos root target L1 L2 = inr None)
      /\ forall (mid : Vector) (upper_name lower_name : string) (c : Ctx),
           two_bone_ik root mid target upper_name lower_name c = (inr tt, c)).
Proof.
  split.
  - intros Hd.
    assert (Hj : ik_joint_pos root target 1 1 = inr (Some (vdiv (vadd root target) 2))).
    { unfold ik_joint_pos. rewrite Hd.
      destruct (Rlt_dec _ _) as [Hlt|_]; [lra|].
      replace (Rabs (1 - 1)) with 0 by (replace (1 - 1) with 0 by lra; now rewrite Rabs_R0).
      rewrite Rmax_left by lra. rewrite Rmin_left by lra.
      unfold pydiv. destruct (Req_dec_T _ _) as [Hz|_]; [lra|]. simpl.
      unfold normalized. rewrite Hd. destruct (Req_dec_T _ _) as [Hz|_]; [lra|].
      destruct root as [rx ry rz], target as [tx ty tz].
      unfold vadd, vscale, vdiv, vsub; simpl. rewrite two_point_zero.
      do 2 f_equal. f_equal; field. }
    split; [exact Hj|].
    intros mid upper_name lower_name c upper lower Hu Hl H1 H2.
    unfold two_bone_ik. rewrite Hu, Hl, H1, H2.
    unfold bind at 1. unfold lift. rewrite Hj. reflexivity.
  - intros Hd.
    assert (Hj : forall L1 L2, ik_joint_pos root target L1 L2 = inr None).
    { intros L1 L2. unfold ik_joint_pos. rewrite Hd.
      destruct (Rlt_dec _ _) as [_|Hn]; [reflexivity|lra]. }
    split; [exact Hj|].
    intros mid upper_name lower_name c. unfold two_bone_ik.
    destruct (get_bone upper_name (pose_bones (arm c))),
      (get_bone lower_name (pose_bones (arm c))); try reflexivity.
    unfold bind, lift. rewrite Hj. reflexivity.
Qed.

(** *** Calibration on an invalid rig *)

(** The target is absent or is not an armature. *)
Definition invalid_rig (armature_obj : option Object) : Prop :=
  match armature_obj with
  | None => True
  | Some obj => String.eqb (obj_type obj) "ARMATURE" = false
  end.

(** C3, as the code has it. Calibration of an invalid rig reports failure
    and leaves the rig, the properties and the active object alone, but
    the stored offsets are cleared before the rig is looked at: the
    mapping is empty afterwards, never partly filled, whatever it held. *)
Theorem calibration_failure_leaves_offsets_empty (armature_obj : option Object) (s : Session) :
  invalid_rig armature_obj ->
  let '(result, rig, s') := calibrate_pose armature_obj s in
  result = inr false
  /\ rig = armature_obj
  /\ CALIBRATION_OFFSETS s' = ∅
  /\ props s' = props s
  /\ active_object s' = active_object s
  /\ printed s' = printed s ++ [MsgCalibrationNotArmature].
Proof.
  unfold invalid_rig, calibrate_pose. destruct armature_obj as [obj|].
  - intros ->. simpl. repeat split.
  - intros _. repeat split.
Qed.

Definition uncalibrated_session (offsets : gmap string Quaternion) : Session :=
  mkSession None true (mkProps None [] "WHOLE_BODY" false false) offsets [].

Lemma calibration_failure_leaves_offsets_empty_witness :
  let '(result, rig, s') :=
    calibrate_pose None (uncalibrated_session {["Spine"%string := identity]}) in
  result = inr false
  /\ rig = None
  /\ CALIBRATION_OFFSETS s' = ∅
  /\ props s' = props (uncalibrated_session {["Spine"%string := identity]})
  /\ active_object s' = active_object (uncalibrated_session {["Spine"%string := identity]})
  /\ printed s' = printed (uncalibrated_session {["Spine"%string := identity]})
                  ++ [MsgCalibrationNotArmature].
Proof.
  exact (calibration_failure_leaves_offsets_empty None
           (uncalibrated_session {["Spine"%string := identity]}) I).
Defined.

(** C3 as stated fails: with an offset stored for one bone, calibrating
    an absent rig reports failure and the stored mapping is no longer
    what it was. *)
Lemma calibration_failure_changes_offsets :
  let s := uncalibrated_session {["Spine"%string := identity]} in
  invalid_rig None
  /\ (calibrate_pose None s).1.1 = inr false
  /\ CALIBRATION_OFFSETS (calibrate_pose None s).2 <> CALIBRATION_OFFSETS s.
Proof.
  split; [exact I|]. split; [reflexivity|].
  simpl. intros H.
  apply (f_equal (fun m : gmap string Quaternion => m !! "Spine"%string)) in H.
  rewrite lookup_empty, lookup_singleton_eq in H. discriminate.
Qed.

(** *** An unusable rig in [apply_mocap_data] *)

(** The target is absent, is not an armature, or is out of pose mode and
    cannot be switched to it. *)
Definition rig_unusable (armature_obj : option Object) (s : Session) : Prop :=
  match armature_obj with
  | None => True
  | Some obj =>
      String.eqb (obj_type obj) "ARMATURE" = false
      \/ (String.eqb (obj_mode obj) "POSE" = false /\ mode_set_ok s = false)
  end.

(** Whatever it is given, [apply_mocap_data] returns [None]. *)
Lemma apply_mocap_data_returns_none (armature_obj : option Object) (data : Frame) (s : Session) :
  (apply_mocap_data armature_obj data s).1.1 = inr tt.
Proof.
  unfold apply_mocap_data. destruct armature_obj as [obj|]; [|reflexivity].
  destruct (negb (String.eqb (obj_type obj) "ARMATURE")); [reflexivity|].
  destruct (negb (String.eqb (obj_mode obj) "POSE") && negb (mode_set_ok _)); reflexivity.
Qed.

(** C5, as the code has it. On an unusable rig [apply_mocap_data] prints
    one line and returns [None], the value it returns from every call, so
    its caller is told nothing; no bone is touched, the offsets and the
    properties stay, and the next call runs as usual. *)
Theorem unusable_rig_is_logged_not_returned (armature_obj : option Object) (data : Frame)
    (s : Session) :
  rig_unusable armature_obj s ->
  let '(result, rig, s') := apply_mocap_data armature_obj data s in
  result = inr tt
  /\ (forall (o : option Object) (d : Frame) (s0 : Session),
        (apply_mocap_data o d s0).1.1 = result)
  /\ rig = armature_obj
  /\ CALIBRATION_OFFSETS s' = CALIBRATION_OFFSETS s
  /\ props s' = props s
  /\ (printed s' = printed s ++ [MsgNotArmature]
      \/ printed s' = printed s ++ [MsgPoseModeFailed]).
Proof.
  intros H. pose proof apply_mocap_data_returns_none as Hnone.
  destruct (apply_mocap_data armature_obj data s) as [[result rig] s'] eqn:E.
  assert (Hres : result = inr tt).
  { specialize (Hnone armature_obj data s). now rewrite E in Hnone. }
  subst result. split; [reflexivity|]. split; [exact Hnone|].
  revert E. unfold rig_unusable, apply_mocap_data in *. destruct armature_obj as [obj|].
  - destruct H as [Ht|[Hm Hs]].
    + rewrite Ht. simpl. intros [= <- <-]. repeat split. now left.
    + destruct (negb (String.eqb (obj_type obj) "ARMATURE")).
      * intros [= <- <-]. repeat split. now left.
      * simpl. rewrite Hm, Hs. simpl. intros [= <- <-]. repeat split. now right.
  - intros [= <- <-]. repeat split. now left.
Qed.

Definition empty_frame : Frame := mkFrame None ∅ None.

Definition rest_bone (n : string) : PoseBone :=
  mkPoseBone n "XYZ" identity (mkVector 0 0 0) 1.

Definition spine_rig : Object := mkObject "Armature" "ARMATURE" "POSE" [rest_bone "Spine"].

Lemma unusable_rig_is_logged_not_returned_witness :
  let '(result, rig, s') := apply_mocap_data None empty_frame (uncalibrated_session ∅) in
  result = inr tt
  /\ (forall (o : option Object) (d : Frame) (s0 : Session),
        (apply_mocap_data o d s0).1.1 = result)
  /\ rig = None
  /\ CALIBRATION_OFFSETS s' = CALIBRATION_OFFSETS (uncalibrated_session ∅)
  /\ props s' = props (uncalibrated_session ∅)
  /\ (printed s' = printed (uncalibrated_session ∅) ++ [MsgNotArmature]
      \/ printed s' = printed (uncalibrated_session ∅) ++ [MsgPoseModeFailed]).
Proof.
  exact (unusable_rig_is_logged_not_returned None empty_frame (uncalibrated_session ∅) I).
Defined.

(** C5 as stated fails: called without a rig, [apply_mocap_data] hands
    its caller the very value it hands over after applying a frame to a
    valid armature. *)
Lemma unusable_rig_not_surfaced :
  rig_unusable None (uncalibrated_session ∅)
  /\ (apply_mocap_data None empty_frame (uncalibrated_session ∅)).1.1 = inr tt
  /\ (apply_mocap_data None empty_frame (uncalibrated_session ∅)).1.1
     = (apply_mocap_data (Some spine_rig) empty_frame (uncalibrated_session ∅)).1.1.
Proof.
  split; [exact I|]. split; [reflexivity|].
  now rewrite !apply_mocap_data_returns_none.
Qed.

(** *** Landmark smoothing *)

Local Open Scope mocap_scope.

(** Every [smooth_lm] of a call finds its index absent from the
    dictionary. *)
Lemma smooth_landmarks_raw (pose_list : list (list R)) :
  smooth_landmarks pose_list
  = (ls <~ landmark_vec pose_list 11 ;;
     rs <~ landmark_vec pose_list 12 ;;
     le <~ landmark_vec pose_list 13 ;;
     re <~ landmark_vec pose_list 14 ;;
     lw <~ landmark_vec pose_list 15 ;;
     rw <~ landmark_vec pose_list 16 ;;
     inr (mkSmoothed ls rs le re lw rw)).
Proof.
  unfold smooth_landmarks, smooth_lm.
  destruct (landmark_vec pose_list 11) as [e|ls]; [reflexivity|]; simpl.
  rewrite lookup_empty.
  destruct (landmark_vec pose_list 12) as [e|rs]; [reflexivity|]; simpl.
  rewrite lookup_insert_ne, lookup_empty by lia.
  destruct (landmark_vec pose_list 13) as [e|le]; [reflexivity|]; simpl.
  rewrite !lookup_insert_ne, lookup_empty by lia.
  destruct (landmark_vec pose_list 14) as [e|re]; [reflexivity|]; simpl.
  rewrite !lookup_insert_ne, lookup_empty by lia.
  destruct (landmark_vec pose_list 15) as [e|lw]; [reflexivity|]; simpl.
  rewrite !lookup_insert_ne, lookup_empty by lia.
  destruct (landmark_vec pose_list 16) as [e|rw]; [reflexivity|]; simpl.
  rewrite !lookup_insert_ne, lookup_empty by lia.
  reflexivity.
Qed.


(** C2, on the code. The dictionary of last smoothed values is created
    empty inside every call of [apply_mediapipe_pose] and each index is
    smoothed once per call, so [smooth_lm] always takes its seeding
    branch: the smoothed landmarks of every frame, the first or not, are
    the raw converted landmarks of that frame, and nothing of an earlier
    frame enters them. *)
Theorem smoothing_starts_afresh_every_frame (pose_list : list (list R)) :
  smooth_landmarks pose_list
  = (ls <~ landmark_vec pose_list 11 ;;
     rs <~ landmark_vec pose_list 12 ;;
     le <~ landmark_vec pose_list 13 ;;
     re <~ landmark_vec pose_list 14 ;;
     lw <~ landmark_vec pose_list 15 ;;
     rw <~ landmark_vec pose_list 16 ;;
     inr (mkSmoothed ls rs le re lw rw)).
Proof. exact (smooth_landmarks_raw pose_list). Qed.

(** The smoother in the words of the specification: the previous
    smoothed value of the index, carried from the frame before, blended
    with the raw sample. *)
Definition spec_smoothed (previous : option Vector) (raw : Vector) : Vector :=
  match previous with
  | None => raw
  | Some p => vadd (vscale p (1 - 0.6)) (vscale raw 0.6)
  end.

(** A pose list of 33 landmarks at the image centre, except the left
    shoulder (index 11), which sits at [x]. *)
Definition pose_with_left_shoulder (x : R) : list (list R) :=
  repeat [0.5; 0.5; 0] 11 ++ [[x; 0.5; 0]] ++ repeat [0.5; 0.5; 0] 21.

(** Two frames of one session: the left shoulder moves from the centre to
    the right edge. The second frame's value is the raw one, not the
    blend with the first. *)
Example smoothing_two_frames :
  exists first second : Smoothed,
    smooth_landmarks (pose_with_left_shoulder 0.5) = inr first
    /\ smooth_landmarks (pose_with_left_shoulder 1) = inr second
    /\ landmark_vec (pose_with_left_shoulder 1) 11 = inr (sm_ls second)
    /\ vx (sm_ls second) = 1
    /\ vx (spec_smoothed (Some (sm_ls first)) (sm_ls second)) = 0.6.
Proof.
  eexists. eexists. rewrite !smooth_landmarks_raw.
  split; [reflexivity|]. split; [reflexivity|]. split; [reflexivity|].
  simpl. split; lra.
Qed.

(** *** The landmark list and its length *)

Lemma landmark_vec_raises_index_error (pose_list : list (list R)) (i : nat) (e : Exn) :
  landmark_vec pose_list i = inl e -> e = IndexError.
Proof.
  unfold landmark_vec, lm_to_vec, index, rbind.
  destruct (pose_list !! i) as [lm|]; [|now intros [= <-]].
  destruct (lm !! 0%nat); [|now intros [= <-]].
  destruct (lm !! 1%nat); [|now intros [= <-]].
  destruct (lm !! 2%nat); [discriminate|now intros [= <-]].
Qed.

Lemma landmark_vec_out_of_range (pose_list : list (list R)) (i : nat) :
  (Datatypes.length pose_list <= i)%nat -> landmark_vec pose_list i = inl IndexError.
Proof.
  intros H. unfold landmark_vec, index. now rewrite (lookup_ge_None_2 _ _ H).
Qed.

(** Every landmark has its three coordinates. *)
Definition well_formed (pose_list : list (list R)) : Prop :=
  Forall (fun lm => (3 <= Datatypes.length lm)%nat) pose_list.

Lemma landmark_vec_in_range (pose_list : list (list R)) (i : nat) :
  well_formed pose_list -> (i < Datatypes.length pose_list)%nat ->
  exists v, landmark_vec pose_list i = inr v.
Proof.
  intros Hwf Hi. unfold landmark_vec, index.
  destruct (lookup_lt_is_Some_2 _ _ Hi) as [lm Hlm]. rewrite Hlm. simpl.
  pose proof (proj1 (Forall_lookup _ _) Hwf _ _ Hlm) as H3.
  destruct lm as [|x [|y [|z r]]]; simpl in H3; try lia.
  unfold lm_to_vec. simpl. eauto.
Qed.

Lemma smooth_landmarks_short (pose_list : list (list R)) :
  (Datatypes.length pose_list <= 16)%nat -> exists e, smooth_landmarks pose_list = inl e.
Proof.
  intros H. rewrite smooth_landmarks_raw.
  rewrite (landmark_vec_out_of_range pose_list 16 H).
  destruct (landmark_vec pose_list 11); simpl; eauto.
  destruct (landmark_vec pose_list 12); simpl; eauto.
  destruct (landmark_vec pose_list 13); simpl; eauto.
  destruct (landmark_vec pose_list 14); simpl; eauto.
  destruct (landmark_vec pose_list 15); simpl; eauto.
Qed.

Lemma smooth_landmarks_long (pose_list : list (list R)) :
  well_formed pose_list -> (17 <= Datatypes.length pose_list)%nat ->
  exists sm, smooth_landmarks pose_list = inr sm.
Proof.
  intros Hwf H. rewrite smooth_landmarks_raw.
  destruct (landmark_vec_in_range pose_list 11 Hwf) as [? ->]; [lia|].
  destruct (landmark_vec_in_range pose_list 12 Hwf) as [? ->]; [lia|].
  destruct (landmark_vec_in_range pose_list 13 Hwf) as [? ->]; [lia|].
  destruct (landmark_vec_in_range pose_list 14 Hwf) as [? ->]; [lia|].
  destruct (landmark_vec_in_range pose_list 15 Hwf) as [? ->]; [lia|].
  destruct (landmark_vec_in_range pose_list 16 Hwf) as [? ->]; [lia|].
  simpl. eauto.
Qed.

Lemma segments_short (pose_list : list (list R)) (sm : Smoothed) :
  (Datatypes.length pose_list < 27)%nat -> segments pose_list sm = inl IndexError.
Proof.
  intros H. unfold segments.
  rewrite (landmark_vec_out_of_range pose_list 26) by lia.
  destruct (landmark_vec pose_list 23) as [e|h23] eqn:E23; simpl.
  { now rewrite (landmark_vec_raises_index_error _ _ _ E23). }
  destruct (landmark_vec pose_list 25) as [e|l25] eqn:E25; simpl.
  { now rewrite (landmark_vec_raises_index_error _ _ _ E25). }
  destruct (landmark_vec pose_list 24) as [e|r24] eqn:E24; simpl.
  { now rewrite (landmark_vec_raises_index_error _ _ _ E24). }
  reflexivity.
Qed.

(** C4, on the code. A pose list of fewer than 17 landmarks is dropped
    and no bone is touched. One of 17 to 26 well-formed landmarks is
    dropped as well: the list of segments reads the hip and knee
    landmarks 23 to 26 before any arm segment is applied, [IndexError]
    leaves the function, and the armature and the session are as they
    were. *)
Theorem landmark_set_needs_27_entries (mediapipe_data : Mediapipe)
    (pose_list : list (list R)) (c : Ctx) :
  pose mediapipe_data = Some pose_list ->
  ((Datatypes.length pose_list < 17)%nat ->
   apply_mediapipe_pose mediapipe_data c = (inr tt, c))
  /\ ((17 <= Datatypes.length pose_list < 27)%nat -> well_formed pose_list ->
      apply_mediapipe_pose mediapipe_data c = (inl IndexError, c)).
Proof.
  intros Hp. unfold apply_mediapipe_pose. rewrite Hp. split.
  - intros Hlen.
    destruct (bool_decide (pose_list = []) || (Datatypes.length pose_list <? 16)%nat);
      [reflexivity|].
    destruct (smooth_landmarks_short pose_list) as [e ->]; [lia|]. reflexivity.
  - intros Hlen Hwf.
    assert (Hguard : bool_decide (pose_list = [])
                     || (Datatypes.length pose_list <? 16)%nat = false).
    { apply orb_false_intro.
      - apply bool_decide_eq_false. intros ->. simpl in Hlen. lia.
      - apply Nat.ltb_ge. lia. }
    rewrite Hguard.
    destruct (smooth_landmarks_long pose_list Hwf) as [sm ->]; [lia|].
    unfold bind at 1. unfold lift. rewrite segments_short by lia. reflexivity.
Qed.

(** From 27 well-formed landmarks on, nothing stops the call: the
    segments are built, every segment and the torso are gone through, and
    the call returns. *)
Lemma set_bone_direction_returns (source_vec target_vec : Vector) (n : string) (c : Ctx) :
  (set_bone_direction source_vec target_vec n c).1 = inr tt.
Proof.
  unfold set_bone_direction.
  destruct (get_bone n (pose_bones (arm c))); [|reflexivity].
  destruct (Req_dec_T _ _); [reflexivity|].
  destruct (Req_dec_T _ _); [reflexivity|].
  destruct (angle _ _); reflexivity.
Qed.

Lemma apply_segments_returns (resolve : string -> option string)
    (segs : list (string * string * Vector * Vector)) (c : Ctx) :
  (apply_segments resolve segs c).1 = inr tt.
Proof.
  revert c. induction segs as [|[[[a b] av] bv] rest IH]; intros c; [reflexivity|].
  cbn [apply_segments]. unfold bind at 1.
  match goal with
  | |- context [match ?m c with _ => _ end] =>
      assert (Hm : (m c).1 = inr tt);
      [destruct (truthy_name (resolve a)); [apply set_bone_direction_returns|];
       destruct (truthy_name (resolve b)); [apply set_bone_direction_returns|reflexivity]
      |destruct (m c) as [[e|[]] c1]; [discriminate|apply IH]]
  end.
Qed.

Lemma apply_torso_returns (resolve : string -> option string) (pose_list : list (list R))
    (c : Ctx) :
  (apply_torso resolve pose_list c).1 = inr tt.
Proof.
  unfold apply_torso, try_except.
  match goal with
  | |- context [match ?m c with _ => _ end] => destruct (m c) as [[e|[]] c1]; reflexivity
  end.
Qed.

Lemma landmark_inference_proceeds_from_27 (mediapipe_data : Mediapipe)
    (pose_list : list (list R)) (c : Ctx) :
  pose mediapipe_data = Some pose_list ->
  well_formed pose_list -> (27 <= Datatypes.length pose_list)%nat ->
  (apply_mediapipe_pose mediapipe_data c).1 = inr tt.
Proof.
  intros Hp Hwf Hlen. unfold apply_mediapipe_pose. rewrite Hp.
  assert (Hguard : bool_decide (pose_list = [])
                   || (Datatypes.length pose_list <? 16)%nat = false).
  { apply orb_false_intro.
    - apply bool_decide_eq_false. intros ->. simpl in Hlen. lia.
    - apply Nat.ltb_ge. lia. }
  rewrite Hguard.
  destruct (smooth_landmarks_long pose_list Hwf) as [sm ->]; [lia|].
  assert (Hsegs : exists segs, segments pose_list sm = inr segs).
  { unfold segments.
    destruct (landmark_vec_in_range pose_list 23 Hwf) as [? ->]; [lia|].
    destruct (landmark_vec_in_range pose_list 25 Hwf) as [? ->]; [lia|].
    destruct (landmark_vec_in_range pose_list 24 Hwf) as [? ->]; [lia|].
    destruct (landmark_vec_in_range pose_list 26 Hwf) as [? ->]; [lia|].
    simpl. eauto. }
  destruct Hsegs as [segs Hsegs].
  unfold bind at 1. unfold lift. rewrite Hsegs.
  unfold bind.
  pose proof (apply_segments_returns
                (resolve_bone_name (get_bone_map_from_properties (props (ses c)))
                   (pose_bones (arm c))) segs c) as Hs.
  destruct (apply_segments _ segs c) as [[e|[]] c1]; [discriminate|].
  apply apply_torso_returns.
Qed.

(** A segment with a resolved bone and two distinct end points does write
    that bone. *)
Lemma length_up : length (mkVector 0 1 0) = 1.
Proof.
  unfold length, dot; simpl.
  replace (0 * 0 + 1 * 1 + 0 * 0) with 1 by ring. apply sqrt_1.
Qed.

Lemma length_normalized (v : Vector) : length v <> 0 -> length (normalized v) = 1.
Proof.
  intros H. unfold normalized. destruct (Req_dec_T _ _) as [e|_]; [contradiction|].
  assert (Hd : 0 <= dot v v) by (unfold dot; nra).
  assert (Hl : length v * length v = dot v v) by (apply sqrt_sqrt, Hd).
  unfold length at 1.
  replace (dot (vdiv v (length v)) (vdiv v (length v))) with 1; [apply sqrt_1|].
  unfold vdiv, dot at 1; simpl.
  transitivity (dot v v / (length v * length v)).
  - rewrite Hl. field. rewrite <- Hl. nra.
  - unfold dot. field. exact H.
Qed.

Lemma set_bone_direction_writes (source_vec target_vec : Vector) (n : string) (c : Ctx)
    (pb : PoseBone) :
  get_bone n (pose_bones (arm c)) = Some pb ->
  length (vsub target_vec source_vec) <> 0 ->
  exists q : Quaternion,
    set_bone_direction source_vec target_vec n c
    = (inr tt,
       mkCtx (with_bones
                (store_bone (mkPoseBone (name pb) "QUATERNION" q (location pb) (bone_length pb))
                   (pose_bones (arm c)))
                (arm c))
         (print (MsgSetBone (name pb)) (ses c))).
Proof.
  intros Hb Hd. unfold set_bone_direction. rewrite Hb.
  destruct (Req_dec_T _ _) as [e|_]; [contradiction|].
  destruct (Req_dec_T _ _) as [_|Hax]; [eexists; reflexivity|].
  unfold angle. rewrite length_up.
  destruct (Req_dec_T 1 0) as [e|_]; [lra|].
  rewrite (length_normalized (vsub target_vec source_vec)) by assumption.
  destruct (Req_dec_T 1 0) as [e|_]; [lra|].
  eexists; reflexivity.
Qed.

End EngineProperties.

(** ** The start-capture operator *)

Section StartCapture.

Import MocapLogic Operators.

(** Any iteration order of the set of pose bone names will do, as long as
    it yields names of the set. *)
Variable set_iter : list string -> list string.
Hypothesis set_iter_sound : forall (l : list string) (x : string), In x (set_iter l) -> In x l.

(** The armature the operator works on: the one set, else the first
    armature among the objects of the file. *)
Definition effective_target (b : Blender) : option Object :=
  match target_armature (scene_props b) with
  | Some t => Some t
  | None => List.find (fun o => String.eqb (obj_type o) "ARMATURE") (data_objects b)
  end.

Definition with_mappings (items : list MappingItem) (b : Blender) : Blender :=
  mkBlender (data_objects b) (set_mapping items (scene_props b)) (MOCAP_RECEIVER b) (start_ok b)
    (console b) (reports b).

Lemma find_bone_in_pose_names (pose_names : list string) (pattern found : string) :
  find_bone pose_names pattern = Some found -> In found pose_names.
Proof.
  unfold find_bone. case_bool_decide as Hin.
  - intros [= <-]. now apply list_elem_of_In.
  - intros H. now apply find_some in H.
Qed.

Lemma auto_map_entries (p : Props) (arm_obj : Object) :
  target_armature p = Some arm_obj ->
  String.eqb (obj_type arm_obj) "ARMATURE" = true ->
  Forall (fun item => In (mocap_name item) (map fst wanted)
                      /\ In (blender_name item) (map name (pose_bones arm_obj)))
    (mapping_collection (auto_map_mixamorig set_iter p).1).
Proof.
  intros Ht Ha. unfold auto_map_mixamorig. rewrite Ht, Ha. cbn [negb fst set_mapping
    mapping_collection].
  apply List.Forall_forall. intros item Hitem.
  apply in_map_iff in Hitem as ([m found] & <- & Hin).
  apply in_flat_map in Hin as ([m0 pattern] & Hw & Hin).
  destruct (find_bone _ pattern) as [f|] eqn:Hf; [|contradiction].
  destruct (PyStr.truthy f); [|contradiction].
  destruct Hin as [[= <- <-]|[]]. cbn [mocap_name blender_name]. split.
  - exact (in_map fst _ _ Hw).
  - apply set_iter_sound. eapply find_bone_in_pose_names, Hf.
Qed.

Lemma auto_map_forgets (p : Props) (items : list MappingItem) (arm_obj : Object) :
  target_armature p = Some arm_obj ->
  String.eqb (obj_type arm_obj) "ARMATURE" = true ->
  mapping_collection (auto_map_mixamorig set_iter (set_mapping items p)).1
  = mapping_collection (auto_map_mixamorig set_iter p).1.
Proof.
  intros Ht Ha. unfold auto_map_mixamorig. simpl. rewrite Ht, Ha. reflexivity.
Qed.

Lemma execute_mappings (b : Blender) (arm : Object) :
  is_running (scene_props b) = false ->
  effective_target b = Some arm ->
  mapping_collection (scene_props (execute set_iter b).2)
  = mapping_collection
      (auto_map_mixamorig set_iter (set_target (Some arm) (scene_props b))).1
  /\ target_armature (scene_props (execute set_iter b).2) = Some arm.
Proof.
  intros Hrun Htarget. unfold execute, effective_target in *. rewrite Hrun.
  destruct (target_armature (scene_props b)) as [t|] eqn:Ht.
  - injection Htarget as ->. rewrite Ht.
    replace (set_target (Some arm) (scene_props b)) with (scene_props b)
      by (destruct (scene_props b); simpl in *; now subst).
    assert (Hkeep : target_armature (auto_map_mixamorig set_iter (scene_props b)).1 = Some arm).
    { unfold auto_map_mixamorig. rewrite Ht.
      destruct (negb (String.eqb (obj_type arm) "ARMATURE")); simpl; assumption. }
    destruct (auto_map_mixamorig set_iter (scene_props b)) as [p out].
    destruct (start_ok b); simpl in *; auto.
  - rewrite Htarget. simpl.
    assert (Hkeep : target_armature
                      (auto_map_mixamorig set_iter (set_target (Some arm) (scene_props b))).1
                    = Some arm).
    { unfold auto_map_mixamorig. simpl.
      destruct (negb (String.eqb (obj_type arm) "ARMATURE")); reflexivity. }
    destruct (auto_map_mixamorig set_iter (set_target (Some arm) (scene_props b))) as [p out].
    destruct (start_ok b); simpl in *; auto.
Qed.

(** C10, as the code has it. When no capture is running and the target,
    set or auto-selected, is of type ARMATURE, the operator leaves in the
    mapping collection only auto-mapped entries: each pairs a key of the
    mixamorig table with the name of a pose bone of that armature, and
    the collection is the same whatever it held before. *)
Theorem start_capture_replaces_mappings (b : Blender) (arm : Object) :
  is_running (scene_props b) = false ->
  effective_target b = Some arm ->
  String.eqb (obj_type arm) "ARMATURE" = true ->
  let after := mapping_collection (scene_props (execute set_iter b).2) in
  Forall (fun item => In (mocap_name item) (map fst wanted)
                      /\ In (blender_name item) (map name (pose_bones arm))) after
  /\ (forall items : list MappingItem,
        mapping_collection (scene_props (execute set_iter (with_mappings items b)).2) = after)
  /\ target_armature (scene_props (execute set_iter b).2) = Some arm.
Proof.
  intros Hrun Htarget Harm after. subst after.
  destruct (execute_mappings b arm Hrun Htarget) as [Hm Ht]. rewrite Hm.
  split; [|split; [|exact Ht]].
  - apply auto_map_entries; [reflexivity|exact Harm].
  - intros items.
    destruct (execute_mappings (with_mappings items b) arm) as [Hm' _].
    + exact Hrun.
    + exact Htarget.
    + rewrite Hm'. simpl.
      change (set_target (Some arm) (set_mapping items (scene_props b)))
        with (set_mapping items (set_target (Some arm) (scene_props b))).
      apply (auto_map_forgets _ _ arm); [reflexivity|exact Harm].
Qed.

End StartCapture.

(** ** The engine and the operator on concrete rigs *)

Section Instances.

Import Mathutils MocapLogic Operators.

Local Open Scope R_scope.

Definition origin : Vector := mkVector 0 0 0.

Lemma length_along_x (d : R) : 0 <= d -> length (vsub (mkVector d 0 0) origin) = d.
Proof.
  intros Hd. unfold length, dot, vsub, origin; simpl.
  replace ((d - 0) * (d - 0) + (0 - 0) * (0 - 0) + (0 - 0) * (0 - 0)) with (d * d) by ring.
  now apply sqrt_square.
Qed.

Lemma two_bone_ik_boundary_witness :
  ik_joint_pos origin (mkVector (2 - / 1000) 0 0) 1 1
  = inr (Some (vdiv (vadd origin (mkVector (2 - / 1000) 0 0)) 2))
  /\ forall L1 L2 : R, ik_joint_pos origin origin L1 L2 = inr None.
Proof.
  split.
  - destruct (two_bone_ik_boundary origin (mkVector (2 - / 1000) 0 0)) as [Hfar _].
    apply Hfar. apply length_along_x. lra.
  - destruct (two_bone_ik_boundary origin origin) as [_ Hzero].
    apply Hzero. apply (length_along_x 0). lra.
Defined.

(** A bone at a half turn about the X axis, mapped from the joint of the
    same name. *)
Definition half_turn : Quaternion := mkQuaternion 0 1 0 0.

Definition turned_spine : PoseBone := mkPoseBone "Spine" "XYZ" half_turn origin 1.

Definition turned_rig : Object := mkObject "Armature" "ARMATURE" "POSE" [turned_spine].

Definition spine_session : Session :=
  mkSession None true (mkProps (Some turned_rig) [mkMappingItem "Spine" "Spine"] "WHOLE_BODY"
                         false false) ∅ [].

Lemma calibration_offset_premultiplies_witness :
  (calibrate_pose (Some turned_rig) spine_session).1.1 = inr true
  /\ CALIBRATION_OFFSETS (calibrate_pose (Some turned_rig) spine_session).2 !! "Spine"%string
     = Some (inverted half_turn)
  /\ rotation_quaternion
       (apply_rotation (CALIBRATION_OFFSETS (calibrate_pose (Some turned_rig) spine_session).2)
          turned_spine [0; 1; 0; 0])
     = identity.
Proof.
  destruct (calibration_offset_premultiplies ∅ turned_spine 0 1 0 0) as (_ & _ & _ & H).
  apply (H turned_rig spine_session).
  - unfold qdot; simpl; lra.
  - reflexivity.
  - reflexivity.
  - reflexivity.
  - reflexivity.
  - simpl. left. reflexivity.
Defined.

(** Seventeen landmarks, all well formed, on a rig with a mapped left
    shoulder: the call raises and changes nothing. Sixteen: it returns. *)
Definition centre : list R := [0.5; 0.5; 0].

Definition shoulder_rig : Object :=
  mkObject "Armature" "ARMATURE" "POSE" [rest_bone "Arm.L"].

Definition shoulder_ctx : Ctx :=
  mkCtx shoulder_rig
    (mkSession None true
       (mkProps (Some shoulder_rig) [mkMappingItem "LeftShoulder" "Arm.L"] "WHOLE_BODY" false false)
       ∅ []).

Lemma centre_well_formed (n : nat) : well_formed (repeat centre n).
Proof.
  unfold well_formed. apply List.Forall_forall. intros lm H.
  apply repeat_spec in H. subst. simpl. lia.
Qed.

Lemma landmark_set_needs_27_entries_witness :
  apply_mediapipe_pose (mkMediapipe (Some (repeat centre 16)) None) shoulder_ctx
  = (inr tt, shoulder_ctx)
  /\ apply_mediapipe_pose (mkMediapipe (Some (repeat centre 17)) None) shoulder_ctx
     = (inl IndexError, shoulder_ctx).
Proof.
  split.
  - apply (landmark_set_needs_27_entries (mkMediapipe (Some (repeat centre 16)) None)
             (repeat centre 16) shoulder_ctx eq_refl).
    simpl. lia.
  - apply (landmark_set_needs_27_entries (mkMediapipe (Some (repeat centre 17)) None)
             (repeat centre 17) shoulder_ctx eq_refl).
    + simpl. lia.
    + apply centre_well_formed.
Defined.

(** Thirty-three landmarks, the left elbow (index 13) straight above the
    left shoulder: the call goes through and the mapped bone is written. *)
Definition arm_up : list (list R) := repeat centre 13 ++ [[0.5; 0; 0]] ++ repeat centre 19.

Example landmark_inference_moves_the_arm :
  exists q : Quaternion,
    apply_mediapipe_pose (mkMediapipe (Some arm_up) None) shoulder_ctx
    = (inr tt,
       mkCtx (mkObject "Armature" "ARMATURE" "POSE"
                [mkPoseBone "Arm.L" "QUATERNION" q (mkVector 0 0 0) 1])
         (print (MsgSetBone "Arm.L") (ses shoulder_ctx))).
Proof.
  set (ls := mkVector ((0.5 - 0.5) * 2.0) ((0.5 - 0.5) * 2.0) (- 0)).
  set (le := mkVector ((0.5 - 0.5) * 2.0) ((0.5 - 0) * 2.0) (- 0)).
  assert (Hlen : length (vsub le ls) <> 0).
  { unfold length, dot, vsub, le, ls; simpl.
    match goal with |- sqrt ?x <> 0 => replace x with 1 by lra end.
    rewrite sqrt_1. lra. }
  destruct (set_bone_direction_writes ls le "Arm.L" shoulder_ctx (rest_bone "Arm.L")
              eq_refl Hlen) as [q Hq].
  exists q.
  unfold apply_mediapipe_pose. cbn [pose].
  change (bool_decide (arm_up = []) || (Datatypes.length arm_up <? 16)%nat) with false.
  cbv iota. rewrite smooth_landmarks_raw.
  set (resolve := resolve_bone_name _ _).
  assert (Hmapped : resolve "LeftShoulder"%string = Some "Arm.L"%string)
    by (vm_compute; reflexivity).
  assert (Hnone : Forall (fun n => resolve n = None)
                    ["LeftElbow"; "LeftWrist"; "RightShoulder"; "RightElbow"; "RightWrist";
                     "Hips"; "LeftUpLeg"; "LeftLeg"; "RightUpLeg"; "RightLeg"; "Spine"; "Neck";
                     "Head"]%string)
    by (repeat constructor; vm_compute; reflexivity).
  clearbody resolve.
  repeat match goal with
         | H : Forall _ (_ :: _) |- _ => apply Forall_cons_1 in H; destruct H as [? H]
         end.
  cbn -[set_bone_direction Rmult Rminus Rplus Ropp Rdiv].
  fold ls le.
  repeat match goal with H : resolve _ = _ |- _ => rewrite H end.
  cbn -[set_bone_direction Rmult Rminus Rplus Ropp Rdiv].
  unfold bind, ret. rewrite Hq.
  unfold apply_torso, try_except, bind, lift, ret.
  cbn -[set_bone_direction Rmult Rminus Rplus Ropp Rdiv].
  repeat match goal with H : resolve _ = _ |- _ => rewrite H end.
  reflexivity.
Qed.

(** A Mixamo rig and a collection holding one mapping typed by the user. *)
Definition mixamo_rig : Object :=
  mkObject "Armature" "ARMATURE" "OBJECT"
    [rest_bone "mixamorig:Hips"; rest_bone "mixamorig:Spine"; rest_bone "mixamorig:LeftForeArm";
     rest_bone "LeftHand"].

Definition user_mapping : MappingItem := mkMappingItem "Chest" "mixamorig:Spine".

Definition idle_blender : Blender :=
  mkBlender [mixamo_rig] (mkProps None [user_mapping] "WHOLE_BODY" false false) None true [] [].

Definition running_blender : Blender :=
  mkBlender [mixamo_rig] (mkProps (Some mixamo_rig) [user_mapping] "WHOLE_BODY" true true)
    None true [] [].

Definition list_order (l : list string) : list string := l.

Lemma start_capture_replaces_mappings_witness :
  let after := mapping_collection (scene_props (execute list_order idle_blender).2) in
  Forall (fun item => In (mocap_name item) (map fst wanted)
                      /\ In (blender_name item) (map name (pose_bones mixamo_rig))) after
  /\ (forall items : list MappingItem,
        mapping_collection
          (scene_props (execute list_order (with_mappings items idle_blender)).2) = after)
  /\ target_armature (scene_props (execute list_order idle_blender).2) = Some mixamo_rig.
Proof.
  apply (start_capture_replaces_mappings list_order (fun l x H => H) idle_blender mixamo_rig);
    reflexivity.
Defined.

Example start_capture_on_mixamo_rig :
  mapping_collection (scene_props (execute list_order idle_blender).2)
  = [ mkMappingItem "Hips" "mixamorig:Hips";
      mkMappingItem "Spine" "mixamorig:Spine";
      mkMappingItem "LeftElbow" "mixamorig:LeftForeArm";
      mkMappingItem "LeftWrist" "LeftHand" ].
Proof. reflexivity. Qed.

(** C10 as stated fails: executed while a capture is running, the
    operator is cancelled at its first test and the mapping typed by the
    user, which is no auto-mapped entry, stays in the collection. *)
Lemma start_capture_while_running_keeps_mappings :
  target_armature (scene_props running_blender) = Some mixamo_rig
  /\ (execute list_order running_blender).1 = CANCELLED
  /\ mapping_collection (scene_props (execute list_order running_blender).2) = [user_mapping]
  /\ ~ In (mocap_name user_mapping) (map fst wanted).
Proof.
  split; [reflexivity|]. split; [reflexivity|]. split; [reflexivity|].
  simpl. intros H. repeat (destruct H as [H|H]; [discriminate|]). exact H.
Qed.

End Instances.

(** * Further properties of the code *)

(** ** The receiver: framing, reconnection and the states it can reach *)

Section ReceiverFraming.

Import DataStream.

Context {frame : Type}.
Variable json_loads : string -> option frame.

#[local] Abbreviation QueueF := (DataStream.Queue frame).
#[local] Abbreviation LineStateF := (DataStream.LineState frame).
#[local] Abbreviation ReceiverF := (DataStream.Receiver frame).

Lemma string_app_assoc (a b c : string) : (a +:+ b) +:+ c = a +:+ (b +:+ c).
Proof.
  induction a as [|x a IH]; [reflexivity|].
  change (String x ((a +:+ b) +:+ c) = String x (a +:+ (b +:+ c))). now rewrite IH.
Qed.

Lemma split1_app (sep : ascii) (a x y c : string) :
  PyStr.split1 sep a = Some (x, y) -> PyStr.split1 sep (a +:+ c) = Some (x, y +:+ c).
Proof.
  revert x y. induction a as [|ch a IH]; intros x y; simpl; [discriminate|].
  destruct (Ascii.eqb ch sep).
  - now intros [= <- <-].
  - destruct (PyStr.split1 sep a) as [[x1 y1]|]; [|discriminate].
    intros [= <- <-]. now rewrite (IH _ _ eq_refl).
Qed.

Lemma truthy_app (a b : string) : PyStr.truthy a = true -> PyStr.truthy (a +:+ b) = true.
Proof. now destruct a. Qed.

(** Past the length of the buffer, fuel makes no difference. *)
Lemma process_lines_fuel_irrelevant (n m : nat) (s : LineStateF) :
  (String.length (ls_buffer s) <= n)%nat -> (String.length (ls_buffer s) <= m)%nat ->
  process_lines json_loads n s = process_lines json_loads m s.
Proof.
  revert m s. induction n as [|n IH]; intros m s Hn Hm.
  - destruct s as [b q d w]; simpl in *. destruct b; [|simpl in Hn; lia].
    now destruct m.
  - destruct m as [|m].
    + destruct s as [b q d w]; simpl in *. destruct b; [reflexivity|simpl in Hm; lia].
    + simpl. destruct (PyStr.split1 PyStr.nl (ls_buffer s)) as [[line rest]|] eqn:E;
        [|reflexivity].
      pose proof (split1_shorter _ _ _ _ E) as Hs.
      pose proof (split1_last_length PyStr.nl rest) as Hl.
      destruct (negb (PyStr.truthy (PyStr.strip line))); [apply IH; simpl; lia|].
      destruct (json_loads line) as [f|].
      * destruct (enqueue f (ls_queue s)) as [[e q]|q]; [reflexivity|].
        apply IH; simpl; lia.
      * apply IH; simpl; lia.
Qed.

Lemma process_lines_warnings_grow (n : nat) (s s' : LineStateF) :
  process_lines json_loads n s = LinesDone s' ->
  (length (ls_warnings s) <= length (ls_warnings s'))%nat.
Proof.
  revert s. induction n as [|n IH]; intros s; simpl;
    destruct (PyStr.split1 PyStr.nl (ls_buffer s)) as [[line rest]|];
    try discriminate; try (intros [= <-]; lia).
  destruct (negb (PyStr.truthy (PyStr.strip line))).
  { intros H. now apply IH in H. }
  destruct (json_loads line) as [f|].
  - destruct (enqueue f (ls_queue s)) as [[e q]|q]; [discriminate|].
    intros H. now apply IH in H.
  - intros H. apply IH in H. simpl in H. rewrite length_app in H. simpl in H. lia.
Qed.


Definition with_buffer (b : string) (s : LineStateF) : LineStateF :=
  mkLineState b (ls_queue s) (ls_decoded s) (ls_warnings s).

(** Lines processed without a decode failure are processed the same way
    when more text is already behind them. *)
Lemma process_lines_then_more (n : nat) (s s' : LineStateF) (c : string) :
  (String.length (ls_buffer s) <= n)%nat ->
  process_lines json_loads n s = LinesDone s' ->
  ls_warnings s' = ls_warnings s ->
  process_buffer json_loads (with_buffer (ls_buffer s +:+ c) s)
  = process_buffer json_loads (with_buffer (ls_buffer s' +:+ c) s').
Proof.
  revert s. induction n as [|n IH]; intros s Hn Hp Hw.
  - destruct s as [b q d w]; simpl in *. destruct b; [|simpl in Hn; lia].
    simpl in Hp. now injection Hp as <-.
  - simpl in Hp.
    destruct (PyStr.split1 PyStr.nl (ls_buffer s)) as [[line rest]|] eqn:E.
    2:{ now injection Hp as <-. }
    pose proof (split1_shorter _ _ _ _ E) as Hs.
    assert (Hstep : forall t : LineStateF,
               ls_buffer t = rest ->
               process_lines json_loads n t = LinesDone s' ->
               ls_warnings s' = ls_warnings t ->
               process_buffer json_loads (with_buffer (rest +:+ c) t)
               = process_buffer json_loads (with_buffer (ls_buffer s' +:+ c) s')).
    { intros t Ht Hpt Hwt. rewrite <- Ht. apply IH; [rewrite Ht; lia|assumption..]. }
    unfold process_buffer at 1. cbn [with_buffer ls_buffer].
    destruct (String.length (ls_buffer s +:+ c)) as [|k] eqn:Hk.
    { rewrite string_length_app in Hk. lia. }
    simpl. rewrite (split1_app _ _ _ _ c E).
    assert (Hfuel : forall t : LineStateF,
               ls_buffer t = rest +:+ c ->
               process_lines json_loads k t = process_buffer json_loads t).
    { intros t Ht. unfold process_buffer. apply process_lines_fuel_irrelevant; [|lia].
      rewrite Ht. rewrite string_length_app in Hk |- *. lia. }
    destruct (negb (PyStr.truthy (PyStr.strip line))).
    { rewrite Hfuel by reflexivity.
      apply (Hstep (mkLineState rest (ls_queue s) (ls_decoded s) (ls_warnings s)));
        [reflexivity|assumption..]. }
    destruct (json_loads line) as [f|].
    + destruct (enqueue f (ls_queue s)) as [[e q]|q]; [discriminate|].
      rewrite Hfuel by reflexivity.
      apply (Hstep (mkLineState rest q (ls_decoded s ++ [f]) (ls_warnings s)));
        [reflexivity|assumption..].
    + apply process_lines_warnings_grow in Hp. simpl in Hp.
      rewrite length_app, Hw in Hp. simpl in Hp. lia.
Qed.

(** What [Recv] does on a connected receiver, with the result of the
    line loop left open. *)
Lemma recv_unfold (r : ReceiverF) (chunk : string) :
  running r = true -> sock r = true -> PyStr.truthy chunk = true ->
  step json_loads r (Recv chunk)
  = match process_buffer json_loads
            (mkLineState (buffer r +:+ chunk) (data_queue r) (decoded r) (warnings r)) with
    | LinesDone s =>
        mkReceiver true (status r) (reconnect_delay r) true (ls_buffer s) (ls_queue s)
          (ls_decoded s) (ls_warnings s) (slept r)
    | LinesRaised _ s =>
        mkReceiver true STATUS_ERROR (reconnect_delay r) false (ls_buffer s) (ls_queue s)
          (ls_decoded s) (ls_warnings s) (slept r ++ [ErrorPause])
    | LinesOutOfFuel => r
    end.
Proof. intros Hrun Hsock Hc. unfold step. now rewrite Hrun, Hsock, Hc. Qed.

(** X1. Where a chunk is cut does not matter as long as no line of its
    first part fails to decode: receiving [a] and then [b] leaves the
    receiver exactly as receiving [a ++ b] at once. *)
Theorem chunk_boundary_is_invisible (r : ReceiverF) (a b : string) :
  running r = true -> sock r = true ->
  PyStr.truthy a = true -> PyStr.truthy b = true ->
  sock (step json_loads r (Recv a)) = true ->
  warnings (step json_loads r (Recv a)) = warnings r ->
  step json_loads (step json_loads r (Recv a)) (Recv b) = step json_loads r (Recv (a +:+ b)).
Proof.
  intros Hrun Hsock Ha Hb.
  rewrite (recv_unfold r a Hrun Hsock Ha).
  rewrite (recv_unfold r (a +:+ b) Hrun Hsock (truthy_app a b Ha)).
  pose proof (process_buffer_terminates json_loads
                (mkLineState (buffer r +:+ a) (data_queue r) (decoded r) (warnings r))) as Hterm.
  destruct (process_buffer json_loads
              (mkLineState (buffer r +:+ a) (data_queue r) (decoded r) (warnings r)))
    as [s1|e s1|] eqn:E; [|discriminate|contradiction].
  cbn [sock warnings]. intros _ Hw.
  rewrite recv_unfold by (try reflexivity; assumption).
  cbn [buffer data_queue decoded warnings status reconnect_delay slept].
  rewrite <- string_app_assoc.
  pose proof (process_lines_then_more _
                (mkLineState (buffer r +:+ a) (data_queue r) (decoded r) (warnings r))
                s1 b (Nat.le_refl _) E Hw) as Heq.
  unfold with_buffer in Heq. cbn [ls_buffer ls_queue ls_decoded ls_warnings] in Heq.
  rewrite Heq.
  pose proof (process_buffer_terminates json_loads
                (mkLineState (ls_buffer s1 +:+ b) (ls_queue s1) (ls_decoded s1)
                   (ls_warnings s1))) as Hterm2.
  destruct (process_buffer json_loads
              (mkLineState (ls_buffer s1 +:+ b) (ls_queue s1) (ls_decoded s1) (ls_warnings s1)));
    [reflexivity|reflexivity|contradiction].
Qed.

(** The text of lines, each closed by a newline, followed by the
    beginning [tail] of a line still to be completed. *)
Definition wire_with (tail : string) (lines : list string) : string :=
  fold_right (fun l rest => l +:+ String PyStr.nl rest) tail lines.

Lemma wire_with_length (tail : string) (lines : list string) :
  (length lines <= String.length (wire_with tail lines))%nat.
Proof.
  induction lines as [|l lines IH]; simpl; [lia|].
  rewrite string_length_app. simpl. lia.
Qed.

(** A line that does not contain a newline, is not blank and decodes. *)
Definition decodes_to (l : string) (f : frame) : Prop :=
  PyStr.split1 PyStr.nl l = None
  /\ PyStr.truthy (PyStr.strip l) = true
  /\ json_loads l = Some f.

Lemma process_valid_lines (tail : string) (ls : list string) (fs : list frame) :
  Forall2 decodes_to ls fs ->
  PyStr.split1 PyStr.nl tail = None ->
  forall (q q' : QueueF) (d : list frame) (w : list string) (n : nat),
    enqueue_all fs q = inr q' -> (length ls <= n)%nat ->
    process_lines json_loads n (mkLineState (wire_with tail ls) q d w)
    = LinesDone (mkLineState tail q' (d ++ fs) w).
Proof.
  intros Hall Htail. induction Hall as [|l f ls fs (Hnl & Hne & Hj) Hall IH];
    intros q q' d w n Hq Hn.
  - simpl in *. injection Hq as <-. rewrite app_nil_r.
    destruct n; simpl; now rewrite Htail.
  - destruct n as [|n]; [simpl in Hn; lia|].
    cbn [wire_with fold_right]. fold (wire_with tail ls).
    simpl in Hq. destruct (enqueue f q) as [[e q0]|q1] eqn:Eq; [discriminate|].
    cbn [process_lines ls_buffer ls_queue ls_decoded ls_warnings].
    rewrite split1_line by assumption. rewrite Hne, Hj. cbn [negb]. rewrite Eq.
    rewrite (IH q1 q' (d ++ [f]) w n Hq) by (simpl in Hn; lia).
    now rewrite <- app_assoc.
Qed.

(** X2. Partial reads and coalesced messages. When the buffer together
    with the chunk just received consists of complete lines that all
    decode, followed by the beginning of a further line, every one of
    these lines becomes a frame, in order and without a warning, the
    frames go through the handoff queue one after the other, and the
    unfinished line waits in the buffer. *)
Theorem valid_lines_are_all_decoded (r : ReceiverF) (chunk tail : string) (ls : list string)
    (fs : list frame) (q' : QueueF) :
  running r = true -> sock r = true -> PyStr.truthy chunk = true ->
  buffer r +:+ chunk = wire_with tail ls ->
  PyStr.split1 PyStr.nl tail = None ->
  Forall2 decodes_to ls fs ->
  enqueue_all fs (data_queue r) = inr q' ->
  step json_loads r (Recv chunk)
  = mkReceiver true (status r) (reconnect_delay r) true tail q' (decoded r ++ fs) (warnings r)
      (slept r).
Proof.
  intros Hrun Hsock Hc Hbuf Htail Hall Hq.
  rewrite (recv_connected json_loads r chunk
             (mkLineState tail q' (decoded r ++ fs) (warnings r)) (length ls) Hrun Hsock Hc).
  - reflexivity.
  - rewrite Hbuf. now apply process_valid_lines.
  - rewrite Hbuf. apply wire_with_length.
Qed.

Lemma split1_app_none (sep : ascii) (a b : string) :
  PyStr.split1 sep a = None -> PyStr.split1 sep b = None ->
  PyStr.split1 sep (a +:+ b) = None.
Proof.
  intros Ha Hb. induction a as [|c a IH]; [exact Hb|].
  simpl in Ha. change (String c a +:+ b) with (String c (a +:+ b)). simpl.
  destruct (Ascii.eqb c sep); [discriminate|].
  destruct (PyStr.split1 sep a) as [[x y]|]; [discriminate|]. now rewrite IH.
Qed.

(** A connection ends when the peer closes, resets it, or another socket
    error occurs. *)
Definition ends_connection (e : Event) : Prop :=
  e = Recv EmptyString \/ e = RecvReset \/ e = RecvError.

(** X3. A message cut off by the end of the connection is never decoded
    and never replayed: the fragment produces no frame and no warning,
    and after the reconnection the buffer is empty. *)
Theorem fragment_is_dropped_on_reconnect (r : ReceiverF) (fragment : string) (e : Event) :
  running r = true -> sock r = true ->
  PyStr.split1 PyStr.nl (buffer r) = None ->
  PyStr.truthy fragment = true ->
  PyStr.split1 PyStr.nl fragment = None ->
  ends_connection e ->
  let r' := run json_loads r [Recv fragment; e; ConnectOk] in
  buffer (step json_loads r (Recv fragment)) = buffer r +:+ fragment
  /\ buffer r' = EmptyString
  /\ decoded r' = decoded r
  /\ data_queue r' = data_queue r
  /\ warnings r' = warnings r
  /\ status r' = STATUS_CONNECTED
  /\ sock r' = true
  /\ reconnect_delay r' = 1.
Proof.
  intros Hrun Hsock Hbuf Hf Hnl He r'. subst r'. unfold run. cbn [fold_left].
  assert (Hp : process_lines json_loads 0
                 (mkLineState (buffer r +:+ fragment) (data_queue r) (decoded r) (warnings r))
               = LinesDone (mkLineState (buffer r +:+ fragment) (data_queue r) (decoded r)
                              (warnings r))).
  { simpl. now rewrite split1_app_none. }
  rewrite (recv_connected json_loads r fragment _ 0 Hrun Hsock Hf Hp) by lia.
  cbn [ls_buffer ls_queue ls_decoded ls_warnings].
  split; [reflexivity|].
  destruct He as [-> | [-> | ->]]; repeat split; reflexivity.
Qed.

(** *** The states the thread can reach *)





(** *** A handoff queue of any size *)

Lemma enqueue_bounded (m : nat) (x : frame) (q : QueueF) :
  (1 <= m)%nat -> maxsize q = Z.of_nat m -> (length (items q) <= m)%nat ->
  exists q1 dropped,
    enqueue x q = inr q1
    /\ maxsize q1 = maxsize q
    /\ items q ++ [x] = dropped ++ items q1
    /\ length (items q1) = Nat.min m (length (items q) + 1).
Proof.
  intros Hm Hmax Hlen. destruct q as [mx l]. simpl in *. subst mx.
  unfold enqueue, put_nowait, get_nowait, full, qsize. simpl.
  replace (0 <? Z.of_nat m) with true by (symmetry; apply Z.ltb_lt; lia).
  destruct (Z.of_nat m <=? Z.of_nat (length l)) eqn:Hfull; simpl.
  - apply Z.leb_le in Hfull. assert (Hl : length l = m) by lia.
    destruct l as [|y l]; [simpl in Hl; lia|]. simpl.
    replace (0 <? Z.of_nat m) with true by (symmetry; apply Z.ltb_lt; lia).
    replace (Z.of_nat m <=? Z.of_nat (length l)) with false
      by (symmetry; apply Z.leb_gt; simpl in Hl; lia).
    simpl. exists (mkQueue (Z.of_nat m) (l ++ [x])), [y]. simpl.
    repeat split. rewrite length_app. simpl in *. lia.
  - apply Z.leb_gt in Hfull.
    exists (mkQueue (Z.of_nat m) (l ++ [x])), []. simpl.
    repeat split. rewrite length_app. simpl. lia.
Qed.

(** X5. A receiver built with [max_queue_size = m >= 1] never refuses a
    frame: after any number of enqueues with no read in between the queue
    holds the newest frames, at most [m] of them and in their order of
    arrival, and [get_latest_data] returns the newest of all and leaves
    the queue empty. *)
Theorem bounded_queue_keeps_the_newest (m : nat) (q : QueueF) (xs : list frame) :
  (1 <= m)%nat -> maxsize q = Z.of_nat m -> (length (items q) <= m)%nat ->
  exists q' dropped,
    enqueue_all xs q = inr q'
    /\ maxsize q' = maxsize q
    /\ items q ++ xs = dropped ++ items q'
    /\ length (items q') = Nat.min m (length (items q) + length xs)
    /\ get_latest_data q' = Some (last (items q ++ xs), mkQueue (maxsize q) []).
Proof.
  intros Hm. revert q. induction xs as [|x xs IH]; intros q Hmax Hlen.
  - exists q, []. simpl. rewrite app_nil_r, Nat.add_0_r.
    repeat split; [lia|]. apply get_latest_data_returns.
  - destruct (enqueue_bounded m x q Hm Hmax Hlen) as (q1 & d1 & He & Hm1 & Hi1 & Hl1).
    destruct (IH q1) as (q' & d2 & Ha & Hm2 & Hi2 & Hl2 & Hg); [congruence|lia|].
    exists q', (d1 ++ d2). simpl. rewrite He, Ha.
    assert (Happ : items q ++ x :: xs = (d1 ++ d2) ++ items q').
    { change (x :: xs) with ([x] ++ xs). now rewrite app_assoc, Hi1, <- !app_assoc, Hi2. }
    repeat split.
    + congruence.
    + exact Happ.
    + rewrite Hl2, Hl1. simpl. lia.
    + rewrite Hg, Hm1. f_equal. f_equal.
      rewrite Happ, Hi2.
      destruct (items q') as [|y l] eqn:Eq.
      * simpl in Hl2. assert (d2 = []) as ->.
        { destruct (items q1); [|simpl in Hl2; lia].
          simpl in Hi2. rewrite app_nil_r in Hi2.
          destruct xs; [|simpl in Hl2; lia]. now subst. }
        assert (Hq1 : items q1 = []).
        { destruct (items q1); [reflexivity|simpl in Hl2; lia]. }
        rewrite Hq1 in Hl1. simpl in Hl1. lia.
      * rewrite !last_app.
        destruct (last (y :: l)) eqn:El; [reflexivity|].
        apply last_None in El. discriminate.
Qed.

End ReceiverFraming.

(** *** The receiver on concrete traffic, continued *)

Definition fresh_connection : DataStream.Receiver Json.value :=
  DataStream.step Json.loads (DataStream.start 1) DataStream.ConnectOk.

Lemma chunk_boundary_is_invisible_witness :
  DataStream.step Json.loads
    (DataStream.step Json.loads fresh_connection (DataStream.Recv (PyStr.take 30 line_identity)))
    (DataStream.Recv (PyStr.drop 30 (wire [line_identity; line_quarter_turn])))
  = DataStream.step Json.loads fresh_connection
      (DataStream.Recv (PyStr.take 30 line_identity
                        +:+ PyStr.drop 30 (wire [line_identity; line_quarter_turn]))).
Proof.
  apply (chunk_boundary_is_invisible Json.loads fresh_connection); vm_compute; reflexivity.
Defined.

Lemma valid_lines_are_all_decoded_witness :
  DataStream.step Json.loads fresh_connection
    (DataStream.Recv (wire_with line_cut [line_identity; line_quarter_turn]))
  = DataStream.mkReceiver true DataStream.STATUS_CONNECTED 1 true line_cut
      (DataStream.mkQueue 1 [spine_frame "0.707" "0" "0.707" "0"])
      [spine_frame "1" "0" "0" "0"; spine_frame "0.707" "0" "0.707" "0"] [] [].
Proof.
  apply (valid_lines_are_all_decoded Json.loads fresh_connection
           (wire_with line_cut [line_identity; line_quarter_turn]) line_cut
           [line_identity; line_quarter_turn]
           [spine_frame "1" "0" "0" "0"; spine_frame "0.707" "0" "0.707" "0"]
           (DataStream.mkQueue 1 [spine_frame "0.707" "0" "0.707" "0"]));
    try (vm_compute; reflexivity).
  repeat constructor; vm_compute; reflexivity.
Defined.

Lemma fragment_is_dropped_on_reconnect_witness :
  let r' := DataStream.run Json.loads fresh_connection
              [DataStream.Recv line_cut; DataStream.Recv EmptyString; DataStream.ConnectOk] in
  DataStream.buffer (DataStream.step Json.loads fresh_connection (DataStream.Recv line_cut))
  = DataStream.buffer fresh_connection +:+ line_cut
  /\ DataStream.buffer r' = EmptyString
  /\ DataStream.decoded r' = DataStream.decoded fresh_connection
  /\ DataStream.data_queue r' = DataStream.data_queue fresh_connection
  /\ DataStream.warnings r' = DataStream.warnings fresh_connection
  /\ DataStream.status r' = DataStream.STATUS_CONNECTED
  /\ DataStream.sock r' = true
  /\ DataStream.reconnect_delay r' = 1.
Proof.
  apply (fragment_is_dropped_on_reconnect Json.loads fresh_connection line_cut
           (DataStream.Recv EmptyString)); try (vm_compute; reflexivity).
  left. reflexivity.
Defined.


Lemma bounded_queue_keeps_the_newest_witness :
  exists (q' : DataStream.Queue nat) (dropped : list nat),
    DataStream.enqueue_all [3; 4; 5]%nat (DataStream.mkQueue 2 [1; 2]%nat) = inr q'
    /\ DataStream.maxsize q' = 2
    /\ [1; 2]%nat ++ [3; 4; 5]%nat = dropped ++ DataStream.items q'
    /\ length (DataStream.items q') = Nat.min 2 (2 + 3)
    /\ DataStream.get_latest_data q' = Some (Some 5%nat, DataStream.mkQueue 2 []).
Proof.
  apply (bounded_queue_keeps_the_newest 2 (DataStream.mkQueue 2 [1; 2]%nat) [3; 4; 5]%nat);
    [lia|reflexivity|simpl; lia].
Defined.

(** ** The engine: bone map, rig and calibration *)

Section EngineFrame.

Import Mathutils MocapLogic.

(** *** The bone map *)

(** An item of the mapping collection enters the bone map when both of
    its names are filled in. *)
Definition filled (item : MappingItem) : bool :=
  PyStr.truthy (mocap_name item) && PyStr.truthy (blender_name item).

Definition add_item (bone_map : list (string * string)) (item : MappingItem)
    : list (string * string) :=
  if filled item then dict_set (mocap_name item) (blender_name item) bone_map else bone_map.

Lemma bone_map_is_fold (p : Props) :
  get_bone_map_from_properties p = fold_left add_item (mapping_collection p) [].
Proof. reflexivity. Qed.

Lemma dict_get_set_same (k v : string) (d : list (string * string)) :
  dict_get k (dict_set k v d) = Some v.
Proof.
  induction d as [|[k0 v0] d IH]; simpl.
  - now rewrite String.eqb_refl.
  - destruct (String.eqb k0 k) eqn:E; simpl.
    + now rewrite String.eqb_refl.
    + now rewrite E.
Qed.

Lemma dict_get_set_other (k k' v : string) (d : list (string * string)) :
  k' <> k -> dict_get k' (dict_set k v d) = dict_get k' d.
Proof.
  intros Hne. induction d as [|[k0 v0] d IH]; simpl.
  - destruct (String.eqb k k') eqn:E; [|reflexivity].
    apply String.eqb_eq in E. congruence.
  - destruct (String.eqb k0 k) eqn:E; simpl.
    + apply String.eqb_eq in E. subst k0.
      destruct (String.eqb k k') eqn:E'; [|reflexivity].
      apply String.eqb_eq in E'. congruence.
    + now rewrite IH.
Qed.

Lemma dict_set_key_in (k v x : string) (d : list (string * string)) :
  In x (map fst (dict_set k v d)) -> x = k \/ In x (map fst d).
Proof.
  induction d as [|[k0 v0] d IH]; simpl.
  - intros [H|[]]. now left.
  - destruct (String.eqb k0 k) eqn:E; simpl.
    + apply String.eqb_eq in E. subst k0. tauto.
    + intros [H|H]; [tauto|]. destruct (IH H); tauto.
Qed.

Lemma dict_set_nodup (k v : string) (d : list (string * string)) :
  List.NoDup (map fst d) -> List.NoDup (map fst (dict_set k v d)).
Proof.
  induction d as [|[k0 v0] d IH]; simpl; intros H.
  - constructor; [tauto|constructor].
  - inversion H as [|? ? Hnotin Hnd]; subst.
    destruct (String.eqb k0 k) eqn:E; simpl.
    + apply String.eqb_eq in E. subst k0. now constructor.
    + apply String.eqb_neq in E. constructor; [|now apply IH].
      intros Hin. destruct (dict_set_key_in _ _ _ _ Hin); congruence.
Qed.

Lemma dict_get_In (k v : string) (d : list (string * string)) :
  dict_get k d = Some v -> In (k, v) d.
Proof.
  induction d as [|[k0 v0] d IH]; simpl; [discriminate|].
  destruct (String.eqb k0 k) eqn:E.
  - apply String.eqb_eq in E. intros [= <-]. left. congruence.
  - intros H. right. now apply IH.
Qed.

Lemma dict_set_In (k v k' v' : string) (d : list (string * string)) :
  In (k', v') (dict_set k v d) -> (k', v') = (k, v) \/ In (k', v') d.
Proof.
  induction d as [|[k0 v0] d IH]; simpl.
  - intros [H|[]]. left. congruence.
  - destruct (String.eqb k0 k); simpl; intros [H|H].
    + left. congruence.
    + right. now right.
    + right. now left.
    + destruct (IH H); [now left|right; now right].
Qed.

(** What the fold does to a map it starts from. *)
Lemma add_items_spec (items : list MappingItem) (acc : list (string * string)) :
  let bone_map := fold_left add_item items acc in
  (List.NoDup (map fst acc) -> List.NoDup (map fst bone_map))
  /\ (forall k v, In (k, v) bone_map ->
        In (k, v) acc
        \/ exists item, In item items /\ filled item = true
                        /\ mocap_name item = k /\ blender_name item = v)
  /\ (forall k, (forall item, In item items -> filled item = true -> mocap_name item <> k) ->
        dict_get k bone_map = dict_get k acc).
Proof.
  revert acc. induction items as [|it items IH]; intros acc; simpl.
  - repeat split; auto.
  - destruct (IH (add_item acc it)) as (Hnd & Hin & Hget).
    split; [|split].
    + intros H. apply Hnd. unfold add_item. destruct (filled it); [|exact H].
      now apply dict_set_nodup.
    + intros k v H. destruct (Hin k v H) as [Hacc|(item & Hi & Hf & Hk & Hv)].
      * unfold add_item in Hacc. destruct (filled it) eqn:Hf; [|now left].
        destruct (dict_set_In _ _ _ _ _ Hacc) as [Heq|Hold]; [|now left].
        injection Heq as -> ->. right. exists it. auto.
      * right. exists item. auto.
    + intros k Hk. rewrite Hget by (intros item Hi; apply Hk; now right).
      unfold add_item. destruct (filled it) eqn:Hf; [|reflexivity].
      apply dict_get_set_other. intros ->.
      apply (Hk it); [now left|exact Hf|reflexivity].
Qed.

(** X6. The bone map is a dictionary built from the filled-in items of
    the mapping collection: its keys are distinct, every entry comes from
    an item with both names filled in, and where several items name the
    same mocap joint the last one wins. *)
Theorem bone_map_last_item_wins (p : Props) (before after : list MappingItem)
    (item : MappingItem) :
  mapping_collection p = before ++ item :: after ->
  filled item = true ->
  (forall later, In later after -> filled later = true ->
                 mocap_name later <> mocap_name item) ->
  let bone_map := get_bone_map_from_properties p in
  dict_get (mocap_name item) bone_map = Some (blender_name item)
  /\ List.NoDup (map fst bone_map)
  /\ forall k v, In (k, v) bone_map ->
       exists it, In it (mapping_collection p) /\ filled it = true
                  /\ mocap_name it = k /\ blender_name it = v.
Proof.
  intros Hsplit Hf Hlater bone_map. subst bone_map. rewrite bone_map_is_fold.
  split; [|split].
  - rewrite Hsplit, fold_left_app. simpl.
    destruct (add_items_spec after (add_item (fold_left add_item before []) item))
      as (_ & _ & Hget).
    rewrite Hget by assumption.
    unfold add_item. rewrite Hf. apply dict_get_set_same.
  - destruct (add_items_spec (mapping_collection p) []) as (Hnd & _ & _).
    apply Hnd. constructor.
  - intros k v H.
    destruct (add_items_spec (mapping_collection p) []) as (_ & Hin & _).
    destruct (Hin k v H) as [[]|Hex]. exact Hex.
Qed.

(** *** What the engine leaves alone *)

Lemma store_bone_keeps {A : Type} (proj : PoseBone -> A) (n : string) (bones : list PoseBone)
    (b0 b' : PoseBone) :
  get_bone n bones = Some b0 -> name b' = name b0 -> proj b' = proj b0 ->
  map proj (store_bone b' bones) = map proj bones.
Proof.
  intros Hget Hname Hproj. induction bones as [|b1 r IH]; simpl in *; [reflexivity|].
  destruct (String.eqb (name b1) n) eqn:E.
  - injection Hget as ->. rewrite Hname, String.eqb_refl. simpl. now rewrite Hproj.
  - pose proof (get_bone_name _ _ _ Hget) as Hn.
    rewrite Hname, Hn, E. simpl. now rewrite IH.
Qed.

Lemma get_bone_store_other (n : string) (b' : PoseBone) (bones : list PoseBone) :
  name b' <> n -> get_bone n (store_bone b' bones) = get_bone n bones.
Proof.
  intros Hne. induction bones as [|b1 r IH]; simpl; [reflexivity|].
  destruct (String.eqb (name b1) (name b')) eqn:E; simpl.
  - apply String.eqb_eq in E.
    replace (String.eqb (name b') n) with false by (symmetry; now apply String.eqb_neq).
    replace (String.eqb (name b1) n) with false
      by (symmetry; apply String.eqb_neq; congruence).
    reflexivity.
  - now rewrite IH.
Qed.

(** The armature keeps its name, its type, its bones by name and order
    and their rest lengths. *)
Definition same_skeleton (o o' : Object) : Prop :=
  obj_name o' = obj_name o
  /\ obj_type o' = obj_type o
  /\ map name (pose_bones o') = map name (pose_bones o)
  /\ map bone_length (pose_bones o') = map bone_length (pose_bones o).

(** The same for a computation of the landmark path, which also leaves
    the properties, the calibration offsets, the active object and the
    location of every bone. *)
Definition keeps (c c' : Ctx) : Prop :=
  same_skeleton (arm c) (arm c')
  /\ props (ses c') = props (ses c)
  /\ CALIBRATION_OFFSETS (ses c') = CALIBRATION_OFFSETS (ses c)
  /\ active_object (ses c') = active_object (ses c)
  /\ map location (pose_bones (arm c')) = map location (pose_bones (arm c)).

Definition preserving {A : Type} (m : M A) : Prop := forall c, keeps c (m c).2.

Lemma keeps_refl (c : Ctx) : keeps c c.
Proof. repeat split. Qed.

Lemma keeps_trans (c1 c2 c3 : Ctx) : keeps c1 c2 -> keeps c2 c3 -> keeps c1 c3.
Proof.
  intros ((A1 & A2 & A3 & A4) & A5 & A6 & A7 & A8) ((B1 & B2 & B3 & B4) & B5 & B6 & B7 & B8).
  repeat split; congruence.
Qed.

Lemma preserving_ret {A : Type} (a : A) : preserving (ret a).
Proof. intros c. apply keeps_refl. Qed.

Lemma preserving_lift {A : Type} (r : Exn + A) : preserving (lift r).
Proof. intros c. apply keeps_refl. Qed.

Lemma preserving_say (m : Msg) : preserving (say m).
Proof. intros c. repeat split. Qed.

Lemma preserving_bind {A B : Type} (m : M A) (k : A -> M B) :
  preserving m -> (forall a, preserving (k a)) -> preserving (bind m k).
Proof.
  intros Hm Hk c. unfold bind. specialize (Hm c).
  destruct (m c) as [[e|a] c1]; simpl in *; [exact Hm|].
  eapply keeps_trans; [exact Hm|apply Hk].
Qed.

Lemma preserving_try {A : Type} (m : M A) (h : Exn -> M A) :
  preserving m -> (forall e, preserving (h e)) -> preserving (try_except m h).
Proof.
  intros Hm Hh c. unfold try_except. specialize (Hm c).
  destruct (m c) as [[e|a] c1]; simpl in *; [|exact Hm].
  eapply keeps_trans; [exact Hm|apply Hh].
Qed.

Lemma preserving_set_bone_direction (source_vec target_vec : Vector) (n : string) :
  preserving (set_bone_direction source_vec target_vec n).
Proof.
  intros c. unfold set_bone_direction.
  destruct (get_bone n (pose_bones (arm c))) as [pb|] eqn:Hb; [|apply keeps_refl].
  destruct (Req_dec_T _ _); [apply keeps_refl|].
  match goal with
  | |- context [match ?q with Some _ => _ | None => _ end] =>
      destruct q as [quat|]; [|repeat split]
  end.
  unfold bind, write_bone, say. simpl.
  repeat split; simpl;
    apply (store_bone_keeps _ n _ pb); try assumption; reflexivity.
Qed.

Lemma preserving_apply_segments (resolve : string -> option string)
    (segs : list (string * string * Vector * Vector)) :
  preserving (apply_segments resolve segs).
Proof.
  induction segs as [|[[[a b] av] bv] rest IH]; [apply preserving_ret|].
  cbn [apply_segments]. apply preserving_bind; [|intros _; exact IH].
  destruct (truthy_name (resolve a)); [apply preserving_set_bone_direction|].
  destruct (truthy_name (resolve b)); [apply preserving_set_bone_direction|apply preserving_ret].
Qed.

Lemma preserving_apply_torso (resolve : string -> option string) (pose_list : list (list R)) :
  preserving (apply_torso resolve pose_list).
Proof.
  assert (Hwhen : forall (n : option string) (k : string -> M unit),
             (forall b, preserving (k b)) ->
             preserving (match n with
                         | Some b => if PyStr.truthy b then k b else ret tt
                         | None => ret tt
                         end)).
  { intros [b|] k Hk; [|apply preserving_ret].
    destruct (PyStr.truthy b); [apply Hk|apply preserving_ret]. }
  unfold apply_torso. apply preserving_try; [|intros _; apply preserving_ret].
  repeat (apply preserving_bind; [try apply preserving_lift|intros ?]);
    try (apply Hwhen; intros; apply preserving_set_bone_direction).
Qed.

Lemma preserving_apply_mediapipe_pose (mediapipe_data : Mediapipe) :
  preserving (apply_mediapipe_pose mediapipe_data).
Proof.
  intros c. unfold apply_mediapipe_pose.
  destruct (pose mediapipe_data) as [pose_list|]; [|apply keeps_refl].
  destruct (bool_decide (pose_list = []) || _); [apply keeps_refl|].
  destruct (smooth_landmarks pose_list) as [e|sm]; [apply keeps_refl|].
  apply preserving_bind; [apply preserving_lift|intros segs].
  apply preserving_bind; [apply preserving_apply_segments|intros _].
  apply preserving_apply_torso.
Qed.

Lemma apply_rotation_keeps (offsets : gmap string Quaternion) (pb : PoseBone) (rot : list R) :
  name (apply_rotation offsets pb rot) = name pb
  /\ bone_length (apply_rotation offsets pb rot) = bone_length pb
  /\ location (apply_rotation offsets pb rot) = location pb.
Proof.
  unfold apply_rotation.
  destruct rot as [|w [|x [|y [|z [|? ?]]]]]; repeat split.
Qed.

Lemma apply_mapped_rotations_keeps {A : Type} (proj : PoseBone -> A)
    (Hproj : forall offsets pb rot, proj (apply_rotation offsets pb rot) = proj pb)
    (keep : string -> bool) (offsets : gmap string Quaternion)
    (bone_map : list (string * string)) (mocap_joints : gmap string Joint)
    (bones : list PoseBone) :
  map proj (apply_mapped_rotations keep offsets bone_map mocap_joints bones) = map proj bones.
Proof.
  unfold apply_mapped_rotations. revert bones.
  induction bone_map as [|[m b] l IH]; intros bones; [reflexivity|].
  simpl. rewrite IH.
  destruct (keep m); [|reflexivity].
  destruct (mocap_joints !! m) as [j|]; [|reflexivity].
  destruct (get_bone b bones) as [pb|] eqn:Hb; [|reflexivity].
  destruct (rotation_wzxy j) as [rot|]; [|reflexivity].
  apply (store_bone_keeps proj b _ pb); [assumption| |apply Hproj].
  apply apply_rotation_keeps.
Qed.

Lemma map_whole_body_skeleton (s : Session) (obj : Object) (mocap_joints : gmap string Joint) :
  same_skeleton obj (map_whole_body s obj mocap_joints).
Proof.
  unfold map_whole_body, same_skeleton. cbn [with_bones obj_name obj_type pose_bones].
  split; [reflexivity|]. split; [reflexivity|].
  assert (Hhips : forall {A : Type} (proj : PoseBone -> A),
             (forall v b, proj (set_location v b) = proj b) ->
             map proj
               (match mocap_joints !! "Hips"%string,
                      dict_get "Hips" (get_bone_map_from_properties (props s)) with
                | Some j, Some hips_blender =>
                    match get_bone hips_blender (pose_bones obj), joint_location j with
                    | Some hips_bone, Some [x; y; z] =>
                        store_bone (set_location (mkVector x y z) hips_bone) (pose_bones obj)
                    | _, _ => pose_bones obj
                    end
                | _, _ => pose_bones obj
                end) = map proj (pose_bones obj)).
  { intros A proj Hp.
    destruct (mocap_joints !! "Hips"%string) as [j|]; [|reflexivity].
    destruct (dict_get "Hips" _) as [hb|]; [|reflexivity].
    destruct (get_bone hb (pose_bones obj)) as [pb|] eqn:Hb; [|reflexivity].
    destruct (joint_location j) as [[|x [|y [|z [|? ?]]]]|]; try reflexivity.
    apply (store_bone_keeps proj hb _ pb); [assumption|reflexivity|apply Hp]. }
  split.
  - rewrite apply_mapped_rotations_keeps by (intros; apply apply_rotation_keeps).
    now apply Hhips.
  - rewrite apply_mapped_rotations_keeps by (intros; apply apply_rotation_keeps).
    now apply Hhips.
Qed.

Lemma map_hands_only_skeleton (s : Session) (obj : Object) (mocap_joints : gmap string Joint) :
  same_skeleton obj (map_hands_only s obj mocap_joints)
  /\ map location (pose_bones (map_hands_only s obj mocap_joints))
     = map location (pose_bones obj).
Proof.
  unfold map_hands_only, same_skeleton. cbn [with_bones obj_name obj_type pose_bones].
  repeat split; apply apply_mapped_rotations_keeps; intros; apply apply_rotation_keeps.
Qed.

Lemma same_skeleton_trans (o1 o2 o3 : Object) :
  same_skeleton o1 o2 -> same_skeleton o2 o3 -> same_skeleton o1 o3.
Proof. intros (A1 & A2 & A3 & A4) (B1 & B2 & B3 & B4). repeat split; congruence. Qed.

Lemma apply_mocap_data_keeps (obj : Object) (data : Frame) (s : Session) :
  exists obj' : Object,
    (apply_mocap_data (Some obj) data s).1.2 = Some obj'
    /\ same_skeleton obj obj'
    /\ props (apply_mocap_data (Some obj) data s).2 = props s
    /\ CALIBRATION_OFFSETS (apply_mocap_data (Some obj) data s).2 = CALIBRATION_OFFSETS s.
Proof.
  unfold apply_mocap_data.
  destruct (negb (String.eqb (obj_type obj) "ARMATURE")).
  { exists obj. repeat split. }
  destruct (negb (String.eqb (obj_mode obj) "POSE") && negb (mode_set_ok _)).
  { exists obj. repeat split. }
  set (c0 := mkCtx (set_mode "POSE" obj) (set_active (Some (obj_name obj)) s)).
  set (c1 := match mediapipe data with
             | Some mp =>
                 if dict_truthy mp then
                   (try_except (apply_mediapipe_pose mp) (fun e => say (MsgMediapipeError e)) c0).2
                 else c0
             | None => c0
             end).
  assert (H1 : keeps c0 c1).
  { subst c1. destruct (mediapipe data) as [mp|]; [|apply keeps_refl].
    destruct (dict_truthy mp); [|apply keeps_refl].
    apply preserving_try; [apply preserving_apply_mediapipe_pose|].
    intros e. apply preserving_say. }
  destruct H1 as (Hsk & Hp & Hoff & _).
  assert (H0 : same_skeleton obj (arm c0)) by (repeat split).
  pose proof (same_skeleton_trans _ _ _ H0 Hsk) as Hsk1.
  eexists. split; [reflexivity|]. cbn [snd].
  split; [|split; [exact Hp|exact Hoff]].
  destruct (String.eqb (mocap_mode (props (ses c1))) "WHOLE_BODY").
  { eapply same_skeleton_trans; [exact Hsk1|apply map_whole_body_skeleton]. }
  destruct (String.eqb (mocap_mode (props (ses c1))) "HANDS_ONLY").
  { eapply same_skeleton_trans; [exact Hsk1|apply map_hands_only_skeleton]. }
  exact Hsk1.
Qed.

(** X7. Applying a frame never restructures the rig and never touches
    the configuration: whatever the frame holds, the armature handed in
    comes back with the same name and type, the same bones by name and
    order with the same rest lengths, and the bone mapping, the mode
    setting and the calibration offsets are as they were. *)
Theorem apply_keeps_skeleton_and_settings (obj : Object) (data : Frame) (s : Session) :
  exists obj' : Object,
    (apply_mocap_data (Some obj) data s).1.2 = Some obj'
    /\ same_skeleton obj obj'
    /\ props (apply_mocap_data (Some obj) data s).2 = props s
    /\ CALIBRATION_OFFSETS (apply_mocap_data (Some obj) data s).2 = CALIBRATION_OFFSETS s.
Proof. exact (apply_mocap_data_keeps obj data s). Qed.

End EngineFrame.

Lemma bone_map_last_item_wins_witness :
  let p := MocapLogic.mkProps None
             [MocapLogic.mkMappingItem "Spine" "Old"; MocapLogic.mkMappingItem "Spine" "Spine.001";
              MocapLogic.mkMappingItem "" "Ignored"] "WHOLE_BODY" false false in
  MocapLogic.get_bone_map_from_properties p = [("Spine", "Spine.001")]%string
  /\ MocapLogic.dict_get "Spine" (MocapLogic.get_bone_map_from_properties p)
     = Some "Spine.001"%string.
Proof.
  intros p. split; [reflexivity|].
  apply (bone_map_last_item_wins p [MocapLogic.mkMappingItem "Spine" "Old"]
           [MocapLogic.mkMappingItem "" "Ignored"] (MocapLogic.mkMappingItem "Spine" "Spine.001"));
    [reflexivity|reflexivity|].
  intros later [<-|[]] Hf. discriminate Hf.
Defined.

(** ** The engine: which bones a frame can move *)

Section EngineReach.

Import Mathutils MocapLogic.


(** The rotation loop leaves a bone alone unless a kept entry of the bone
    map, whose joint is in the frame, targets it. *)
Lemma apply_mapped_rotations_other (keep : string -> bool) (offsets : gmap string Quaternion)
    (bone_map : list (string * string)) (mocap_joints : gmap string Joint)
    (bones : list PoseBone) (n : string) :
  (forall m b, In (m, b) bone_map -> keep m = true -> mocap_joints !! m <> None -> b <> n) ->
  get_bone n (apply_mapped_rotations keep offsets bone_map mocap_joints bones) = get_bone n bones.
Proof.
  unfold apply_mapped_rotations. revert bones.
  induction bone_map as [|[m b] l IH]; intros bones Hn; [reflexivity|].
  simpl. rewrite IH by (intros m0 b0 Hin; apply Hn; now right).
  destruct (keep m) eqn:Hk; [|reflexivity].
  destruct (mocap_joints !! m) as [j|] eqn:Hj; [|reflexivity].
  destruct (get_bone b bones) as [pb|] eqn:Hb; [|reflexivity].
  destruct (rotation_wzxy j) as [rot|]; [|reflexivity].
  apply get_bone_store_other.
  destruct (apply_rotation_keeps offsets pb rot) as (-> & _ & _).
  rewrite (get_bone_name _ _ _ Hb).
  apply (Hn m b); [now left|exact Hk|congruence].
Qed.

Lemma bone_map_entry (p : Props) (m b : string) :
  In (m, b) (get_bone_map_from_properties p) ->
  exists it, In it (mapping_collection p) /\ filled it = true
             /\ mocap_name it = m /\ blender_name it = b.
Proof.
  intros H. rewrite bone_map_is_fold in H.
  destruct (add_items_spec (mapping_collection p) []) as (_ & Hin & _).
  destruct (Hin m b H) as [[]|Hex]. exact Hex.
Qed.

(** A mocap joint name that [map_hands_only] lets through. *)
Definition hand_joint (mocap_name : string) : bool :=
  existsb (fun f => PyStr.contains f mocap_name) HAND_FILTER.

(** X8. The explicit joint data of a frame reaches mapped bones only. A
    bone stays exactly as it was, rotation, rotation mode and location,
    when every filled-in mapping item that targets it names a joint the
    frame does not carry; in hands-only mode it also stays when those
    joints carry no hand keyword, and in that mode no bone's location is
    ever written. *)
Theorem joint_data_reaches_mapped_bones_only (s : Session) (obj : Object)
    (mocap_joints : gmap string Joint) (n : string) :
  (forall it, In it (mapping_collection (props s)) -> filled it = true ->
              blender_name it = n ->
              mocap_joints !! mocap_name it = None \/ hand_joint (mocap_name it) = false) ->
  get_bone n (pose_bones (map_hands_only s obj mocap_joints)) = get_bone n (pose_bones obj)
  /\ map location (pose_bones (map_hands_only s obj mocap_joints))
     = map location (pose_bones obj)
  /\ ((forall it, In it (mapping_collection (props s)) -> filled it = true ->
                  blender_name it = n -> mocap_joints !! mocap_name it = None) ->
      get_bone n (pose_bones (map_whole_body s obj mocap_joints)) = get_bone n (pose_bones obj)).
Proof.
  intros Hhands. split; [|split].
  - unfold map_hands_only. cbn [with_bones pose_bones].
    apply apply_mapped_rotations_other. intros m b Hin Hk Hj ->.
    destruct (bone_map_entry _ _ _ Hin) as (it & Hi & Hf & <- & Hb).
    destruct (Hhands it Hi Hf Hb) as [H|H]; [contradiction|].
    unfold hand_joint in H. congruence.
  - apply map_hands_only_skeleton.
  - intros Hbody. unfold map_whole_body. cbn [with_bones pose_bones].
    rewrite apply_mapped_rotations_other.
    + destruct (mocap_joints !! "Hips"%string) as [j|] eqn:Hj; [|reflexivity].
      destruct (dict_get "Hips" _) as [hb|] eqn:Hd; [|reflexivity].
      destruct (get_bone hb (pose_bones obj)) as [pb|] eqn:Hb; [|reflexivity].
      destruct (joint_location j) as [[|x [|y [|z [|? ?]]]]|]; try reflexivity.
      apply get_bone_store_other. cbn [set_location name].
      rewrite (get_bone_name _ _ _ Hb). intros ->.
      apply dict_get_In in Hd.
      destruct (bone_map_entry _ _ _ Hd) as (it & Hi & Hf & Hm & Hbn).
      specialize (Hbody it Hi Hf Hbn). rewrite Hm in Hbody. congruence.
    + intros m b Hin _ Hj ->.
      destruct (bone_map_entry _ _ _ Hin) as (it & Hi & Hf & <- & Hb).
      now apply Hj, Hbody.
Qed.

End EngineReach.

(** ** The engine: calibration and direction-derived rotations *)

Section EngineRotations.

Import Mathutils MocapLogic.

Local Open Scope R_scope.

(** *** Calibration *)

Lemma calibrate_bones_other (bones : list PoseBone) (bone_map : list (string * string))
    (acc : gmap string Quaternion * nat) (k : string) :
  ~ In k (map snd bone_map) \/ get_bone k bones = None ->
  (calibrate_bones bones bone_map acc).1 !! k = acc.1 !! k.
Proof.
  revert acc. unfold calibrate_bones.
  induction bone_map as [|[m bn] l IH]; intros [offsets n] Hk; simpl; [reflexivity|].
  rewrite IH by (destruct Hk as [Hk|Hk]; [left; intros Hin; apply Hk; now right|now right]).
  destruct (get_bone bn bones) as [pb|] eqn:E; simpl; [|reflexivity].
  apply lookup_insert_ne. intros ->.
  destruct Hk as [Hk|Hk]; [apply Hk; now left|congruence].
Qed.

(** The number of entries of the bone map whose bone the rig has. *)
Definition entries_with_bone (bones : list PoseBone) (bone_map : list (string * string)) : nat :=
  Datatypes.length
    (List.filter (fun e => bool_decide (is_Some (get_bone e.2 bones))) bone_map).

Lemma calibrate_bones_count (bones : list PoseBone) (bone_map : list (string * string))
    (acc : gmap string Quaternion * nat) :
  (calibrate_bones bones bone_map acc).2 = (acc.2 + entries_with_bone bones bone_map)%nat.
Proof.
  revert acc. unfold calibrate_bones, entries_with_bone.
  induction bone_map as [|[m bn] l IH]; intros [offsets n]; simpl; [lia|].
  rewrite IH. destruct (get_bone bn bones) as [pb|]; simpl; lia.
Qed.

(** X9. A calibration of a usable rig is exact and repeatable. Whatever
    offsets were stored before, afterwards a bone has an offset exactly
    when an entry of the bone map targets it and the rig has it, and the
    offset is the inverse of its current rotation; no bone is moved; the
    count printed is the number of map entries whose bone exists, so a
    bone reached from two joints counts twice; and calibrating again at
    once stores the same offsets. *)
Theorem calibration_is_exact_and_repeatable (obj : Object) (s : Session) :
  String.eqb (obj_type obj) "ARMATURE" = true ->
  String.eqb (obj_mode obj) "POSE" = true \/ mode_set_ok s = true ->
  let bone_map := get_bone_map_from_properties (props s) in
  let out := calibrate_pose (Some obj) s in
  let again := calibrate_pose out.1.2 out.2 in
  out.1.1 = inr true
  /\ out.1.2 = Some (set_mode "POSE" obj)
  /\ (forall n q,
        CALIBRATION_OFFSETS out.2 !! n = Some q
        <-> In n (map snd bone_map)
            /\ exists pb, get_bone n (pose_bones obj) = Some pb
                          /\ q = inverted (rotation_quaternion pb))
  /\ printed out.2
     = (printed s ++ [MsgCalibrated (entries_with_bone (pose_bones obj) bone_map)])%list
  /\ again.1.1 = inr true
  /\ again.1.2 = out.1.2
  /\ CALIBRATION_OFFSETS again.2 = CALIBRATION_OFFSETS out.2.
Proof.
  intros Ht Hm bone_map out again.
  assert (Hgo : negb (String.eqb (obj_mode obj) "POSE") && negb (mode_set_ok s) = false).
  { destruct Hm as [-> | ->]; [reflexivity|apply andb_false_r]. }
  assert (Hout : out = (inr true, Some (set_mode "POSE" obj),
                        print (MsgCalibrated
                                 (calibrate_bones (pose_bones obj) bone_map (∅, O)).2)
                          (set_offsets (calibrate_bones (pose_bones obj) bone_map (∅, O)).1
                             (set_active (Some (obj_name obj)) (set_offsets ∅ s))))).
  { subst out. unfold calibrate_pose. rewrite Ht. cbn [negb].
    cbn [set_active set_offsets mode_set_ok props CALIBRATION_OFFSETS]. rewrite Hgo.
    cbn [set_mode pose_bones]. fold bone_map.
    now destruct (calibrate_bones (pose_bones obj) bone_map (∅, O)). }
  assert (Hagain : again = (inr true, Some (set_mode "POSE" obj),
                            print (MsgCalibrated
                                     (calibrate_bones (pose_bones obj) bone_map (∅, O)).2)
                              (set_offsets (calibrate_bones (pose_bones obj) bone_map (∅, O)).1
                                 (set_active (Some (obj_name obj)) (set_offsets ∅ out.2))))).
  { subst again. rewrite Hout at 1 2. cbn [fst snd]. unfold calibrate_pose.
    cbn [set_mode obj_type obj_mode obj_name pose_bones]. rewrite Ht. cbn [negb andb String.eqb].
    replace (String.eqb "POSE" "POSE") with true by reflexivity. cbn [negb andb].
    cbn [set_active set_offsets print props CALIBRATION_OFFSETS]. fold bone_map.
    rewrite Hout. cbn [snd print set_offsets set_active props]. fold bone_map.
    now destruct (calibrate_bones (pose_bones obj) bone_map (∅, O)). }
  rewrite Hagain, Hout. cbn [fst snd print set_offsets CALIBRATION_OFFSETS printed set_active].
  split; [reflexivity|]. split; [reflexivity|].
  split; [|split; [now rewrite calibrate_bones_count|repeat split]].
  intros n q. split.
  - intros Hq.
    destruct (in_dec String.string_dec n (map snd bone_map)) as [Hin|Hin].
    + destruct (get_bone n (pose_bones obj)) as [pb|] eqn:Hb.
      * rewrite (calibrate_bones_lookup _ _ _ _ pb Hb Hin) in Hq. injection Hq as <-.
        split; [exact Hin|]. now exists pb.
      * rewrite calibrate_bones_other in Hq by (now right). cbn in Hq.
        rewrite lookup_empty in Hq. discriminate.
    + rewrite calibrate_bones_other in Hq by (now left). cbn in Hq.
      rewrite lookup_empty in Hq. discriminate.
  - intros (Hin & pb & Hb & ->). now apply calibrate_bones_lookup.
Qed.

(** *** Rotations derived from a direction *)

Lemma qdot_qmul (a b : Quaternion) : qdot (qmul a b) (qmul a b) = qdot a a * qdot b b.
Proof. destruct a, b. unfold qdot, qmul; simpl. ring. Qed.

Lemma dot_unit (v : Vector) : length v = 1 -> dot v v = 1.
Proof.
  intros H. unfold length in H.
  assert (Hd : 0 <= dot v v) by (unfold dot; nra).
  rewrite <- (sqrt_sqrt _ Hd), H. ring.
Qed.

Lemma qdot_axis_angle (axis : Vector) (theta : R) :
  length axis <> 0 ->
  qdot (axis_angle (normalized axis) theta) (axis_angle (normalized axis) theta) = 1.
Proof.
  intros H. pose proof (length_normalized axis H) as H1. unfold axis_angle.
  destruct (Req_dec_T _ _) as [e|_]; [lra|].
  assert (Hn : normalized (normalized axis) = normalized axis).
  { unfold normalized at 1. destruct (Req_dec_T _ _) as [e|_]; [lra|].
    rewrite H1. unfold vdiv. destruct (normalized axis); simpl. f_equal; field. }
  rewrite Hn. pose proof (dot_unit _ H1) as Hd. unfold dot in Hd.
  pose proof (sin2_cos2 (theta / 2)) as Hsc. unfold Rsqr in Hsc.
  unfold qdot; simpl.
  set (sn := sin (theta / 2)) in *. set (cs := cos (theta / 2)) in *.
  set (n := normalized axis) in *.
  replace (cs * cs + vx n * sn * (vx n * sn) + vy n * sn * (vy n * sn)
           + vz n * sn * (vz n * sn))
    with (cs * cs + sn * sn * (vx n * vx n + vy n * vy n + vz n * vz n)) by ring.
  rewrite Hd. lra.
Qed.

(** X10. Given a bone of the rig and two distinct points,
    [set_bone_direction] always succeeds: it writes the calibration
    offset of the bone composed on the left of a unit quaternion (that
    quaternion alone without an offset), in quaternion mode, and leaves
    location and length. The unit quaternion is the identity whenever the
    direction is vertical, downward as well as upward. *)
Theorem direction_rotation_is_unit (source_vec target_vec : Vector) (n : string) (c : Ctx)
    (pb : PoseBone) :
  get_bone n (pose_bones (arm c)) = Some pb ->
  length (vsub target_vec source_vec) <> 0 ->
  exists quat : Quaternion,
    qdot quat quat = 1
    /\ (vx target_vec = vx source_vec -> vz target_vec = vz source_vec -> quat = identity)
    /\ set_bone_direction source_vec target_vec n c
       = (inr tt,
          mkCtx (with_bones
                   (store_bone
                      (mkPoseBone (name pb) "QUATERNION"
                         (match CALIBRATION_OFFSETS (ses c) !! name pb with
                          | Some offset_q => qmul offset_q quat
                          | None => quat
                          end)
                         (location pb) (bone_length pb))
                      (pose_bones (arm c)))
                   (arm c))
            (print (MsgSetBone (name pb)) (ses c))).
Proof.
  intros Hb Hd. unfold set_bone_direction. rewrite Hb.
  destruct (Req_dec_T _ _) as [e|_]; [contradiction|].
  set (dir_vec := normalized (vsub target_vec source_vec)).
  destruct (Req_dec_T (length (cross (mkVector 0 1 0) dir_vec)) 0) as [_|Hax].
  - exists identity. split; [unfold qdot, identity; simpl; ring|]. split; reflexivity.
  - unfold angle. rewrite length_up.
    destruct (Req_dec_T 1 0) as [e|_]; [lra|].
    destruct (Req_dec_T (length dir_vec) 0) as [e|_].
    { exfalso. unfold dir_vec in e. rewrite length_normalized in e by assumption. lra. }
    eexists. split; [apply qdot_axis_angle; exact Hax|]. split; [|reflexivity].
    intros Hx Hz. exfalso. apply Hax.
    unfold dir_vec, normalized. destruct (Req_dec_T _ _) as [e|_]; [contradiction|].
    unfold length at 1, dot, cross, vdiv, vsub; simpl. rewrite Hx, Hz.
    match goal with |- sqrt ?t = 0 => replace t with 0; [apply sqrt_0|] end.
    unfold Rdiv. ring.
Qed.

(** *** [resolve_bone_name] *)

Lemma get_bone_of_member (b : PoseBone) (bones : list PoseBone) :
  In b bones -> is_Some (get_bone (name b) bones).
Proof.
  induction bones as [|b0 r IH]; simpl; [contradiction|].
  intros H. destruct (String.eqb (name b0) (name b)) eqn:E; [now eexists|].
  destruct H as [->|H]; [now rewrite String.eqb_refl in E|now apply IH].
Qed.

(** X11. A joint name resolves to its explicit mapping whenever it has
    one, whether or not the rig has that bone; without a mapping the
    fallback search never invents a name: whatever it returns is the name
    of a bone of the rig, and on a rig without bones it returns nothing. *)
Theorem fallback_resolves_to_existing_bones (bone_map : list (string * string))
    (bones : list PoseBone) (mocap_name : string) :
  (forall b, dict_get mocap_name bone_map = Some b ->
             resolve_bone_name bone_map bones mocap_name = Some b)
  /\ (forall b, dict_get mocap_name bone_map = None ->
                resolve_bone_name bone_map bones mocap_name = Some b ->
                is_Some (get_bone b bones))
  /\ (dict_get mocap_name bone_map = None -> bones = [] ->
      resolve_bone_name bone_map bones mocap_name = None).
Proof.
  unfold resolve_bone_name. split; [|split].
  - now intros b ->.
  - intros b ->.
    match goal with
    | |- context [List.find ?f ?l] => destruct (List.find f l) as [c|] eqn:Hc
    end.
    + intros [= <-]. apply find_some in Hc as [_ Hc]. now apply bool_decide_eq_true in Hc.
    + match goal with
      | |- context [List.find ?f bones] => destruct (List.find f bones) as [pb|] eqn:Hp
      end; [|discriminate].
      intros [= <-]. apply find_some in Hp as [Hp _]. now apply get_bone_of_member.
  - intros -> ->.
    match goal with
    | |- context [List.find ?f ?l] => destruct (List.find f l) as [c|] eqn:Hc
    end; [|reflexivity].
    apply find_some in Hc as [_ Hc]. apply bool_decide_eq_true in Hc.
    destruct Hc as [x Hx]. discriminate Hx.
Qed.

(** *** [two_bone_ik] *)

(** X12. The joint position the two-bone solver computes always lies on
    the straight line through root and target: the two directions it
    hands to [set_bone_direction] are parallel, so the limb is never
    bent. The only exception it can raise there is the division by a
    zero clamped distance. *)
Theorem two_bone_ik_never_bends (root target : Vector) (L1 L2 : R) :
  (forall joint_pos, ik_joint_pos root target L1 L2 = inr (Some joint_pos) ->
     cross (vsub joint_pos root) (vsub target joint_pos) = mkVector 0 0 0)
  /\ (forall e, ik_joint_pos root target L1 L2 = inl e ->
        e = ZeroDivisionError /\ L1 + L2 = / 1000).
Proof.
  unfold ik_joint_pos.
  destruct (Rlt_dec _ _) as [Hlt|Hge]; [split; intros; discriminate|].
  set (d := length (vsub target root)) in *.
  set (dc := Rmin (Rmax d (Rabs (L1 - L2) + / 1000)) (L1 + L2 - / 1000)).
  assert (Hd : d <> 0) by lra.
  unfold pydiv. destruct (Req_dec_T (2.0 * dc) 0) as [Hz|Hnz]; simpl.
  - split; [intros; discriminate|]. intros e [= <-]. split; [reflexivity|].
    assert (Hdc : dc = 0) by lra. unfold dc in Hdc.
    assert (Hmax : 0 < Rmax d (Rabs (L1 - L2) + / 1000)).
    { eapply Rlt_le_trans; [|apply Rmax_l]. lra. }
    unfold Rmin in Hdc. destruct (Rle_dec _ _); lra.
  - split; [|intros; discriminate]. intros j [= <-].
    unfold normalized. fold d. destruct (Req_dec_T d 0) as [e|_]; [contradiction|].
    assert (Hdc : dc <> 0) by lra.
    unfold cross, vsub, vadd, vscale, vdiv; simpl. rewrite two_point_zero.
    f_equal; field; split; assumption.
Qed.

End EngineRotations.

(** ** Auto-mapping and the bone map it yields *)

Section AutoMapBoneMap.

Import Mathutils MocapLogic.

(** The order in which the set of pose-bone names is iterated: any
    listing of exactly the names of the set. *)
Variable set_iter : list string -> list string.
Hypothesis set_iter_sound : forall l x, In x (set_iter l) -> In x l.
Hypothesis set_iter_complete : forall l x, In x l -> In x (set_iter l).

(** The pairs [added] of lines 52-64, over any table. *)
Definition added_from (table : list (string * string)) (pose_names : list string)
    : list (string * string) :=
  flat_map
    (fun '(mocap_name, pattern) =>
       match find_bone pose_names pattern with
       | Some found => if PyStr.truthy found then [(mocap_name, found)] else []
       | None => []
       end)
    table.

Lemma auto_map_collection (p : Props) (arm_obj : Object) :
  target_armature p = Some arm_obj ->
  String.eqb (obj_type arm_obj) "ARMATURE" = true ->
  mapping_collection (auto_map_mixamorig set_iter p).1
  = map (fun '(m, b) => mkMappingItem m b)
      (added_from wanted (set_iter (map name (pose_bones arm_obj)))).
Proof. intros Ht Ha. unfold auto_map_mixamorig. now rewrite Ht, Ha. Qed.

Lemma added_from_In (table : list (string * string)) (pose_names : list string) (k v : string) :
  In (k, v) (added_from table pose_names)
  <-> exists pattern, In (k, pattern) table /\ find_bone pose_names pattern = Some v
                      /\ PyStr.truthy v = true.
Proof.
  unfold added_from. rewrite in_flat_map. split.
  - intros ([m pattern] & Hw & Hin).
    destruct (find_bone pose_names pattern) as [f|] eqn:Hf; [|contradiction].
    destruct (PyStr.truthy f) eqn:Ht; [|contradiction].
    destruct Hin as [[= <- <-]|[]]. now exists pattern.
  - intros (pattern & Hw & Hf & Ht). exists (k, pattern). split; [exact Hw|].
    rewrite Hf, Ht. now left.
Qed.

Lemma added_from_nodup (table : list (string * string)) (pose_names : list string) :
  List.NoDup (map fst table) -> List.NoDup (map fst (added_from table pose_names)).
Proof.
  induction table as [|[m pattern] rest IH]; simpl; intros H; [constructor|].
  apply List.NoDup_cons_iff in H as [Hm Hrest].
  change (added_from ((m, pattern) :: rest) pose_names)
    with (match find_bone pose_names pattern with
          | Some found => if PyStr.truthy found then [(m, found)] else []
          | None => []
          end ++ added_from rest pose_names).
  assert (Hfresh : ~ In m (map fst (added_from rest pose_names))).
  { intros Hin. apply in_map_iff in Hin as ([k v] & Hk & Hin). simpl in Hk. subst k.
    apply added_from_In in Hin as (pat & Hin & _).
    apply Hm. now apply (in_map fst) in Hin. }
  destruct (find_bone pose_names pattern) as [f|]; [|now apply IH].
  destruct (PyStr.truthy f); [|now apply IH].
  simpl. constructor; [exact Hfresh|now apply IH].
Qed.

Lemma dict_set_fresh (k v : string) (d : list (string * string)) :
  ~ In k (map fst d) -> dict_set k v d = (d ++ [(k, v)])%list.
Proof.
  induction d as [|[k0 v0] d IH]; simpl; intros H; [reflexivity|].
  destruct (String.eqb k0 k) eqn:E.
  - apply String.eqb_eq in E. tauto.
  - rewrite IH by tauto. reflexivity.
Qed.

Lemma dict_get_fresh (k : string) (d : list (string * string)) :
  ~ In k (map fst d) -> dict_get k d = None.
Proof.
  induction d as [|[k0 v0] d IH]; simpl; intros H; [reflexivity|].
  destruct (String.eqb k0 k) eqn:E.
  - apply String.eqb_eq in E. tauto.
  - apply IH. tauto.
Qed.

Lemma dict_get_nodup (k v : string) (d : list (string * string)) :
  List.NoDup (map fst d) -> In (k, v) d -> dict_get k d = Some v.
Proof.
  induction d as [|[k0 v0] d IH]; simpl; intros Hnd Hin; [contradiction|].
  apply List.NoDup_cons_iff in Hnd as [Hk0 Hnd].
  destruct Hin as [[= -> ->]|Hin].
  - now rewrite String.eqb_refl.
  - destruct (String.eqb k0 k) eqn:E; [|now apply IH].
    apply String.eqb_eq in E. subst k0. exfalso. apply Hk0.
    now apply (in_map fst) in Hin.
Qed.

(** Items with filled-in names and distinct joint names enter the bone
    map one after the other. *)
Lemma bone_map_of_distinct (l acc : list (string * string)) :
  Forall (fun e => PyStr.truthy e.1 && PyStr.truthy e.2 = true) l ->
  List.NoDup (map fst acc ++ map fst l) ->
  fold_left add_item (map (fun '(m, b) => mkMappingItem m b) l) acc = (acc ++ l)%list.
Proof.
  revert acc. induction l as [|[k v] l IH]; intros acc Hf Hnd; simpl.
  - now rewrite app_nil_r.
  - apply List.Forall_cons_iff in Hf as [Hkv Hf]. simpl in Hkv.
    unfold add_item at 2, filled. cbn [mocap_name blender_name]. rewrite Hkv.
    simpl in Hnd. pose proof (List.NoDup_remove_2 _ _ _ Hnd) as Hk.
    rewrite dict_set_fresh by (intros H; apply Hk, in_or_app; now left).
    rewrite IH; [now rewrite <- app_assoc|exact Hf|].
    rewrite map_app, <- app_assoc. exact Hnd.
Qed.

Lemma wanted_keys_distinct : List.NoDup (map fst wanted).
Proof.
  repeat (constructor; [simpl; intros H; repeat (destruct H as [H|H]; [discriminate H|]);
                        exact H|]).
  constructor.
Qed.

Lemma wanted_is_well_formed :
  Forall (fun e => PyStr.truthy e.1 = true
                   /\ PyStr.truthy e.2 = true
                   /\ PyStr.contains (PyStr.lower (PyStr.split_last ":"%char e.2))
                        (PyStr.lower e.2) = true) wanted.
Proof. repeat constructor. Qed.

Lemma find_all_false {A : Type} (f : A -> bool) (l : list A) :
  (forall x, In x l -> f x = false) -> List.find f l = None.
Proof.
  induction l as [|a l IH]; simpl; intros H; [reflexivity|].
  rewrite (H a) by now left. apply IH. intros x Hx. apply H. now right.
Qed.

Lemma same_key_same_pattern (k a b : string) (l : list (string * string)) :
  List.NoDup (map fst l) -> In (k, a) l -> In (k, b) l -> a = b.
Proof.
  intros Hnd Ha Hb. pose proof (dict_get_nodup _ _ _ Hnd Ha) as H1.
  pose proof (dict_get_nodup _ _ _ Hnd Hb) as H2. congruence.
Qed.

(** X13. After auto-mapping a target armature, the bone map the engine
    builds from the collection is the list of auto-mapped pairs itself,
    in table order, with nothing lost or merged. A joint of the table
    whose mixamorig bone the rig has under that exact name is mapped to
    it, whatever other bones would match; a joint whose short bone name
    is contained in no bone name of the rig (ignoring case) is left
    unmapped. *)
Theorem auto_map_feeds_the_bone_map (p : Props) (arm_obj : Object) :
  target_armature p = Some arm_obj ->
  String.eqb (obj_type arm_obj) "ARMATURE" = true ->
  let p' := (auto_map_mixamorig set_iter p).1 in
  let bone_map := get_bone_map_from_properties p' in
  bone_map = map (fun item => (mocap_name item, blender_name item)) (mapping_collection p')
  /\ (forall m pattern, In (m, pattern) wanted ->
        In pattern (map name (pose_bones arm_obj)) ->
        dict_get m bone_map = Some pattern)
  /\ (forall m pattern, In (m, pattern) wanted ->
        (forall bn, In bn (map name (pose_bones arm_obj)) ->
           PyStr.contains (PyStr.lower (PyStr.split_last ":"%char pattern)) (PyStr.lower bn)
           = false) ->
        dict_get m bone_map = None).
Proof.
  intros Ht Ha p' bone_map.
  set (pose_names := set_iter (map name (pose_bones arm_obj))).
  assert (Hcoll : mapping_collection p'
                  = map (fun '(m, b) => mkMappingItem m b) (added_from wanted pose_names))
    by now apply auto_map_collection.
  pose proof (added_from_nodup wanted pose_names wanted_keys_distinct) as Hnd.
  assert (Hmap : bone_map = added_from wanted pose_names).
  { subst bone_map. rewrite bone_map_is_fold, Hcoll.
    apply (bone_map_of_distinct _ []); [|exact Hnd].
    apply List.Forall_forall. intros [k v] Hin. simpl.
    apply added_from_In in Hin as (pattern & Hw & _ & Hv). rewrite Hv, andb_true_r.
    pose proof (proj1 (List.Forall_forall _ _) wanted_is_well_formed _ Hw) as (Hk & _).
    exact Hk. }
  split; [|split].
  - rewrite Hmap, Hcoll, map_map. rewrite <- (map_id (added_from wanted pose_names)) at 1.
    apply map_ext. now intros [m b].
  - intros m pattern Hw Hin. rewrite Hmap. apply dict_get_nodup; [exact Hnd|].
    apply added_from_In. exists pattern. split; [exact Hw|].
    pose proof (proj1 (List.Forall_forall _ _) wanted_is_well_formed _ Hw) as (_ & Hp & _).
    split; [|exact Hp]. unfold find_bone.
    rewrite bool_decide_eq_true_2; [reflexivity|].
    apply list_elem_of_In, set_iter_complete, Hin.
  - intros m pattern Hw Hnone. rewrite Hmap. apply dict_get_fresh. intros Hin.
    apply in_map_iff in Hin as ([k v] & Hk & Hin). simpl in Hk. subst k.
    apply added_from_In in Hin as (pat & Hw' & Hf & _).
    assert (pat = pattern) by (eapply same_key_same_pattern;
                               [apply wanted_keys_distinct|exact Hw'|exact Hw]).
    subst pat.
    pose proof (proj1 (List.Forall_forall _ _) wanted_is_well_formed _ Hw) as (_ & _ & Hself).
    simpl in Hself. unfold find_bone in Hf. case_bool_decide as Hel.
    + apply list_elem_of_In, set_iter_sound in Hel. rewrite (Hnone _ Hel) in Hself.
      discriminate.
    + rewrite find_all_false in Hf; [discriminate|].
      intros bn Hbn. apply Hnone, set_iter_sound, Hbn.
Qed.

End AutoMapBoneMap.

(** ** [operators.py]: the modal loop and the panel's other operators *)

From Stdlib Require DecimalString.

Module Capture.

Import MocapLogic.

(** [event.type]: the timer of the modal operator, or anything else. *)
Inductive EventType : Set := TIMER | OTHER_EVENT.

Inductive Result : Set := CANCELLED | PASS_THROUGH | FINISHED.

Inductive Report : Set :=
  | WarnNoArmature
  | InfoStreamStopped
  | InfoStopSignal
  | InfoNotRunning
  | ErrorNoTarget
  | InfoCalibrated
  | ErrorCalibrationFailed.

(** The scene as these operators see it: the engine's session with the
    properties in it, the selected row of the mapping list, the module's
    global [MOCAP_RECEIVER], whether the modal operator holds its timer,
    the frames whose keys the modal loop printed, and the reports. *)
Record Scene : Type := mkScene {
  session : Session;
  mapping_index : Z;
  MOCAP_RECEIVER : option (DataStream.Receiver Frame);
  timer : bool;
  frame_keys_printed : list Frame;
  reports : list Report
}.

Definition with_props (p : Props) (s : Session) : Session :=
  mkSession (active_object s) (mode_set_ok s) p (CALIBRATION_OFFSETS s) (printed s).

Definition with_session (s : Session) (sc : Scene) : Scene :=
  mkScene s (mapping_index sc) (MOCAP_RECEIVER sc) (timer sc) (frame_keys_printed sc)
    (reports sc).

Definition update_props (f : Props -> Props) (sc : Scene) : Scene :=
  with_session (with_props (f (props (session sc))) (session sc)) sc.

Definition with_receiver (r : option (DataStream.Receiver Frame)) (sc : Scene) : Scene :=
  mkScene (session sc) (mapping_index sc) r (timer sc) (frame_keys_printed sc) (reports sc).

Definition with_index (i : Z) (sc : Scene) : Scene :=
  mkScene (session sc) i (MOCAP_RECEIVER sc) (timer sc) (frame_keys_printed sc) (reports sc).

Definition report (r : Report) (sc : Scene) : Scene :=
  mkScene (session sc) (mapping_index sc) (MOCAP_RECEIVER sc) (timer sc)
    (frame_keys_printed sc) (reports sc ++ [r]).

Definition set_is_running (b : bool) (p : Props) : Props :=
  mkProps (target_armature p) (mapping_collection p) (mocap_mode p) b (data_active p).

Definition set_data_active (b : bool) (p : Props) : Props :=
  mkProps (target_armature p) (mapping_collection p) (mocap_mode p) (is_running p) b.

Definition set_target_armature (o : option Object) (p : Props) : Props :=
  mkProps o (mapping_collection p) (mocap_mode p) (is_running p) (data_active p).

Definition set_collection (items : list MappingItem) (p : Props) : Props :=
  mkProps (target_armature p) items (mocap_mode p) (is_running p) (data_active p).

(** [MocapReceiver.stop], [data_stream.py] lines 52-61: the flag is
    cleared, the thread is joined and leaves its loop, and the status is
    set. *)
Definition stop (r : DataStream.Receiver Frame) : DataStream.Receiver Frame :=
  DataStream.mkReceiver false DataStream.STATUS_DISCONNECTED (DataStream.reconnect_delay r)
    false (DataStream.buffer r) (DataStream.data_queue r) (DataStream.decoded r)
    (DataStream.warnings r) (DataStream.slept r).

Definition with_queue (q : DataStream.Queue Frame) (r : DataStream.Receiver Frame)
    : DataStream.Receiver Frame :=
  DataStream.mkReceiver (DataStream.running r) (DataStream.status r)
    (DataStream.reconnect_delay r) (DataStream.sock r) (DataStream.buffer r) q
    (DataStream.decoded r) (DataStream.warnings r) (DataStream.slept r).

(** [MOCAP_OT_live_capture.cancel], lines 115-135 *)
Definition live_capture_cancel (sc : Scene) : Result * Scene :=
  let sc := with_receiver (option_map stop (MOCAP_RECEIVER sc)) sc in
  let sc := mkScene (session sc) (mapping_index sc) (MOCAP_RECEIVER sc) false
              (frame_keys_printed sc) (reports sc) in
  let sc := update_props (set_is_running false) sc in
  let sc := update_props (set_data_active false) sc in
  let sc := with_receiver None sc in
  (CANCELLED, report InfoStreamStopped sc).

Section Modal.

(** The truth value of a decoded message: a dictionary is false exactly
    when it has no key at all, also none the engine does not read. *)
Variable frame_truthy : Frame -> bool.

(** [MOCAP_OT_live_capture.modal], lines 17-65. The armature handed to
    the engine is the object [props.target_armature] refers to, so what
    the engine does to it shows there. *)
Definition live_capture_modal (event_type : EventType) (sc : Scene) : Result * Scene :=
  let stopped :=
    if is_running (props (session sc)) then live_capture_cancel sc else (PASS_THROUGH, sc) in
  match MOCAP_RECEIVER sc with
  | None => stopped
  | Some receiver =>
      if negb (DataStream.running receiver) then stopped
      else
        match event_type with
        | OTHER_EVENT => (PASS_THROUGH, sc)
        | TIMER =>
            let sc := update_props (set_is_running (DataStream.running receiver)) sc in
            match DataStream.status receiver with
            | DataStream.STATUS_CONNECTED =>
                match DataStream.get_latest_data (DataStream.data_queue receiver) with
                | None => (PASS_THROUGH, sc)
                | Some (mocap_data, q) =>
                    let sc := with_receiver (Some (with_queue q receiver)) sc in
                    match mocap_data with
                    | Some data =>
                        if frame_truthy data then
                          let sc :=
                            mkScene (session sc) (mapping_index sc) (MOCAP_RECEIVER sc)
                              (timer sc) (frame_keys_printed sc ++ [data]) (reports sc) in
                          match target_armature (props (session sc)) with
                          | Some armature_obj =>
                              let sc := update_props (set_data_active true) sc in
                              let '(_, obj, s) :=
                                apply_mocap_data (Some armature_obj) data (session sc) in
                              (PASS_THROUGH,
                               update_props (set_target_armature obj) (with_session s sc))
                          | None => (PASS_THROUGH, report WarnNoArmature sc)
                          end
                        else (PASS_THROUGH, update_props (set_data_active false) sc)
                    | None => (PASS_THROUGH, update_props (set_data_active false) sc)
                    end
                end
            | _ => (PASS_THROUGH, update_props (set_data_active false) sc)
            end
        end
  end.

End Modal.

(** [MOCAP_OT_stop_capture.execute], lines 143-156 *)
Definition stop_capture_execute (sc : Scene) : Result * Scene :=
  let not_running :=
    let sc := report InfoNotRunning sc in
    let sc := update_props (set_is_running false) sc in
    (FINISHED, update_props (set_data_active false) sc) in
  match MOCAP_RECEIVER sc with
  | None => not_running
  | Some receiver =>
      if DataStream.running receiver then
        (FINISHED, report InfoStopSignal (with_receiver (Some (stop receiver)) sc))
      else not_running
  end.

(** [MOCAP_OT_calibrate_pose.execute], lines 164-178. An exception of
    [calibrate_pose] leaves the operator. *)
Definition calibrate_pose_execute (sc : Scene) : (Exn + Result) * Scene :=
  match target_armature (props (session sc)) with
  | None => (inr CANCELLED, report ErrorNoTarget sc)
  | Some armature_obj =>
      let '(r, obj, s) := calibrate_pose (Some armature_obj) (session sc) in
      let sc := update_props (set_target_armature obj) (with_session s sc) in
      match r with
      | inl e => (inl e, sc)
      | inr true => (inr FINISHED, report InfoCalibrated sc)
      | inr false => (inr FINISHED, report ErrorCalibrationFailed sc)
      end
  end.

(** [f"{n}"] for a length *)
Definition decimal (n : nat) : string :=
  DecimalString.NilEmpty.string_of_uint (Nat.to_uint n).

(** [MOCAP_OT_add_mapping.execute], lines 188-200 *)
Definition add_mapping_execute (sc : Scene) : Result * Scene :=
  let mapping_collection := mapping_collection (props (session sc)) in
  let default_mocap_name := "Mocap_Joint_" +:+ decimal (length mapping_collection + 1) in
  let default_blender_name := "Bone_" +:+ decimal (length mapping_collection + 1) in
  let item := mkMappingItem default_mocap_name default_blender_name in
  let mapping_collection := (mapping_collection ++ [item])%list in
  (FINISHED,
   with_index (Z.of_nat (length mapping_collection) - 1)
     (update_props (set_collection mapping_collection) sc)).

(** [MOCAP_OT_remove_mapping.execute], lines 208-218 *)
Definition remove_mapping_execute (sc : Scene) : Result * Scene :=
  let mapping_list := mapping_collection (props (session sc)) in
  let index := mapping_index sc in
  if (0 <=? index) && (index <? Z.of_nat (length mapping_list)) then
    let mapping_list := delete (Z.to_nat index) mapping_list in
    (FINISHED,
     with_index (Z.min index (Z.of_nat (length mapping_list) - 1))
       (update_props (set_collection mapping_list) sc))
  else (FINISHED, sc).

End Capture.

Section CaptureProperties.

Import MocapLogic Capture.

Variable frame_truthy : Frame -> bool.

(** *** The mapping list *)

(** The selected row is a row of the list, or -1 on an empty list. *)
Definition selection_ok (sc : Scene) : Prop :=
  let n := Z.of_nat (length (mapping_collection (props (session sc)))) in
  (n = 0 /\ mapping_index sc = -1) \/ (0 <= mapping_index sc < n).

Lemma remove_mapping_collection (sc : Scene) :
  0 <= mapping_index sc < Z.of_nat (length (mapping_collection (props (session sc)))) ->
  mapping_collection (props (session (remove_mapping_execute sc).2))
  = delete (Z.to_nat (mapping_index sc)) (mapping_collection (props (session sc)))
  /\ mapping_index (remove_mapping_execute sc).2
     = Z.min (mapping_index sc)
         (Z.of_nat (length (delete (Z.to_nat (mapping_index sc))
                              (mapping_collection (props (session sc))))) - 1).
Proof.
  intros H. unfold remove_mapping_execute.
  replace (0 <=? mapping_index sc) with true by (symmetry; apply Z.leb_le; lia).
  replace (mapping_index sc <? _) with true by (symmetry; apply Z.ltb_lt; lia).
  split; reflexivity.
Qed.

(** X14. Editing the mapping list keeps the selected row valid. Adding
    appends one item and selects it; removing right after gives back the
    collection as it was. Removing deletes exactly the selected row when
    the selection is a row of the list and moves the selection to a
    remaining row (-1 when none is left); with the selection outside the
    list it changes nothing. *)
Theorem mapping_list_editing (sc : Scene) :
  let coll := mapping_collection (props (session sc)) in
  let added := (add_mapping_execute sc).2 in
  let removed := (remove_mapping_execute sc).2 in
  length (mapping_collection (props (session added))) = S (length coll)
  /\ selection_ok added
  /\ mapping_collection (props (session (remove_mapping_execute added).2)) = coll
  /\ mapping_index (remove_mapping_execute added).2 = Z.of_nat (length coll) - 1
  /\ (0 <= mapping_index sc < Z.of_nat (length coll) ->
      mapping_collection (props (session removed))
      = (take (Z.to_nat (mapping_index sc)) coll
         ++ drop (S (Z.to_nat (mapping_index sc))) coll)%list
      /\ S (length (mapping_collection (props (session removed)))) = length coll
      /\ selection_ok removed)
  /\ (~ 0 <= mapping_index sc < Z.of_nat (length coll) ->
      remove_mapping_execute sc = (FINISHED, sc)).
Proof.
  intros coll added removed.
  assert (Hadd : mapping_collection (props (session added))
                 = (coll ++ [mkMappingItem ("Mocap_Joint_" +:+ decimal (length coll + 1))
                               ("Bone_" +:+ decimal (length coll + 1))])%list) by reflexivity.
  assert (Hidx : mapping_index added = Z.of_nat (length coll)).
  { subst added. unfold add_mapping_execute. cbn [snd with_index mapping_index].
    fold coll. rewrite length_app. simpl. lia. }
  assert (Hsel : 0 <= mapping_index added
                 < Z.of_nat (length (mapping_collection (props (session added))))).
  { rewrite Hidx, Hadd, length_app. simpl. lia. }
  split; [rewrite Hadd, length_app; simpl; lia|].
  split; [right; exact Hsel|].
  destruct (remove_mapping_collection added Hsel) as [Hc Hi].
  assert (Hdel : delete (Z.to_nat (mapping_index added))
                   (mapping_collection (props (session added))) = coll).
  { rewrite Hidx, Hadd, Nat2Z.id, delete_take_drop.
    rewrite take_app_length, drop_ge by (rewrite length_app; simpl; lia).
    apply app_nil_r. }
  split; [now rewrite Hc|].
  split; [rewrite Hi, Hdel, Hidx; lia|].
  split.
  - intros H. destruct (remove_mapping_collection sc H) as [Hc' Hi']. fold coll in Hc', Hi'.
    fold removed in Hc', Hi'.
    assert (Hlen : S (length (delete (Z.to_nat (mapping_index sc)) coll)) = length coll).
    { rewrite length_delete; [lia|]. apply lookup_lt_is_Some. lia. }
    split; [now rewrite Hc', delete_take_drop|].
    split; [now rewrite Hc'|].
    unfold selection_ok. rewrite Hc', Hi'. cbv zeta. lia.
  - intros H. unfold remove_mapping_execute. fold coll.
    destruct (0 <=? mapping_index sc) eqn:E1; [|reflexivity].
    destruct (mapping_index sc <? Z.of_nat (length coll)) eqn:E2; [|reflexivity].
    apply Z.leb_le in E1. apply Z.ltb_lt in E2. lia.
Qed.

(** X15. The default names of a new item are numbered by the length of
    the collection, not by a counter: add an item, remove an earlier row
    and add again, and the collection ends in two identical items. *)
Theorem default_names_can_collide (sc : Scene) (row : nat) :
  (row < length (mapping_collection (props (session sc))))%nat ->
  let n := length (mapping_collection (props (session sc))) in
  let item := mkMappingItem ("Mocap_Joint_" +:+ decimal (n + 1)) ("Bone_" +:+ decimal (n + 1)) in
  let sc1 := (add_mapping_execute sc).2 in
  let sc2 := (remove_mapping_execute (with_index (Z.of_nat row) sc1)).2 in
  let sc3 := (add_mapping_execute sc2).2 in
  mapping_collection (props (session sc3))
  = (delete row (mapping_collection (props (session sc))) ++ [item; item])%list
  /\ length (mapping_collection (props (session sc3))) = S n.
Proof.
  intros Hrow n item sc1 sc2 sc3.
  set (coll := mapping_collection (props (session sc))) in *.
  assert (H1 : mapping_collection (props (session sc1)) = (coll ++ [item])%list) by reflexivity.
  assert (Hsel : 0 <= mapping_index (with_index (Z.of_nat row) sc1)
                 < Z.of_nat (length (mapping_collection
                                       (props (session (with_index (Z.of_nat row) sc1)))))).
  { cbn [with_index mapping_index session]. rewrite H1, length_app. simpl. lia. }
  destruct (remove_mapping_collection _ Hsel) as [Hc _]. fold sc2 in Hc.
  cbn [with_index mapping_index session] in Hc. rewrite Nat2Z.id, H1 in Hc.
  assert (Hdel : delete row (coll ++ [item]) = (delete row coll ++ [item])%list).
  { rewrite !delete_take_drop, take_app_le, drop_app_le by lia. now rewrite app_assoc. }
  rewrite Hdel in Hc.
  assert (Hlen : S (length (delete row coll)) = n).
  { rewrite length_delete; [subst n; lia|]. now apply lookup_lt_is_Some. }
  assert (H3 : mapping_collection (props (session sc3))
               = (mapping_collection (props (session sc2))
                  ++ [mkMappingItem
                        ("Mocap_Joint_"
                         +:+ decimal (length (mapping_collection (props (session sc2))) + 1))
                        ("Bone_"
                         +:+ decimal (length (mapping_collection (props (session sc2))) + 1))])%list)
    by reflexivity.
  rewrite H3, Hc. rewrite !length_app. cbn [length].
  replace (length (delete row coll) + 1 + 1)%nat with (n + 1)%nat by lia.
  replace (length (delete row coll) + 1)%nat with n by lia.
  split; [now rewrite <- app_assoc|lia].
Qed.

(** *** Stopping a capture *)

(** X16. The stop operator only stops the receiver: the running flag of
    the properties stays as it was, and it is the next event reaching
    the modal loop, whatever its type, that ends the session: the loop
    cancels, drops the receiver and its timer and clears both flags,
    leaving rig, mappings and offsets alone. If the modal loop is gone, a
    second press of stop clears the flags itself. *)
Theorem stop_ends_the_session (sc : Scene) (r : DataStream.Receiver Frame) (ev : EventType) :
  MOCAP_RECEIVER sc = Some r ->
  DataStream.running r = true ->
  let sc1 := (stop_capture_execute sc).2 in
  let out := live_capture_modal frame_truthy ev sc1 in
  let sc2 := (stop_capture_execute sc1).2 in
  session sc1 = session sc
  /\ MOCAP_RECEIVER sc1 = Some (stop r)
  /\ (is_running (props (session sc)) = true ->
      out.1 = CANCELLED
      /\ MOCAP_RECEIVER out.2 = None
      /\ timer out.2 = false
      /\ props (session out.2)
         = set_data_active false (set_is_running false (props (session sc)))
      /\ CALIBRATION_OFFSETS (session out.2) = CALIBRATION_OFFSETS (session sc)
      /\ reports out.2 = (reports sc ++ [InfoStopSignal; InfoStreamStopped])%list)
  /\ (is_running (props (session sc)) = false -> out = (PASS_THROUGH, sc1))
  /\ props (session sc2) = set_data_active false (set_is_running false (props (session sc)))
  /\ MOCAP_RECEIVER sc2 = Some (stop r).
Proof.
  intros Hr Hrun sc1 out sc2.
  assert (H1 : sc1 = report InfoStopSignal (with_receiver (Some (stop r)) sc)).
  { subst sc1. unfold stop_capture_execute. now rewrite Hr, Hrun. }
  assert (Hout : out = if is_running (props (session sc)) then live_capture_cancel sc1
                       else (PASS_THROUGH, sc1)).
  { subst out. rewrite H1. reflexivity. }
  split; [now rewrite H1|]. split; [now rewrite H1|].
  split; [|split].
  - intros Hp. rewrite Hout, Hp, H1. unfold live_capture_cancel.
    cbn. rewrite <- app_assoc. repeat split.
  - intros Hp. now rewrite Hout, Hp.
  - subst sc2. rewrite H1. unfold stop_capture_execute. cbn. split; reflexivity.
Qed.

(** *** The modal loop and the rig *)

(** X17. A timer event with a connected receiver hands the engine the
    newest waiting frame and nothing else: the queue is left empty, the
    older frames are dropped unapplied, both flags are set, and the
    target armature and the session are those [apply_mocap_data] yields
    for that frame. *)
Theorem modal_applies_the_newest_frame (sc : Scene) (r : DataStream.Receiver Frame)
    (older : list Frame) (data : Frame) (obj : Object) :
  MOCAP_RECEIVER sc = Some r ->
  DataStream.running r = true ->
  DataStream.status r = DataStream.STATUS_CONNECTED ->
  DataStream.items (DataStream.data_queue r) = (older ++ [data])%list ->
  frame_truthy data = true ->
  target_armature (props (session sc)) = Some obj ->
  let s0 := with_props (set_data_active true (set_is_running true (props (session sc))))
              (session sc) in
  let applied := apply_mocap_data (Some obj) data s0 in
  let out := live_capture_modal frame_truthy TIMER sc in
  out.1 = PASS_THROUGH
  /\ MOCAP_RECEIVER out.2
     = Some (with_queue (DataStream.mkQueue (DataStream.maxsize (DataStream.data_queue r)) []) r)
  /\ session out.2
     = with_props (set_target_armature applied.1.2 (props applied.2)) applied.2
  /\ frame_keys_printed out.2 = (frame_keys_printed sc ++ [data])%list
  /\ is_running (props (session out.2)) = true
  /\ data_active (props (session out.2)) = true
  /\ mapping_collection (props (session out.2)) = mapping_collection (props (session sc))
  /\ CALIBRATION_OFFSETS (session out.2) = CALIBRATION_OFFSETS (session sc).
Proof.
  intros Hr Hrun Hst Hq Ht Harm s0 applied out.
  destruct (apply_mocap_data_keeps obj data s0) as (obj' & Ho & _ & Hp & Hoff).
  fold applied in Ho, Hp, Hoff.
  assert (Hout : out = (PASS_THROUGH,
                        update_props (set_target_armature applied.1.2)
                          (with_session applied.2
                             (mkScene s0 (mapping_index sc)
                                (Some (with_queue
                                         (DataStream.mkQueue
                                            (DataStream.maxsize (DataStream.data_queue r)) []) r))
                                (timer sc) (frame_keys_printed sc ++ [data]) (reports sc))))).
  { unfold out, applied, s0, live_capture_modal. rewrite Hr, Hrun. cbn [negb].
    rewrite Hst, get_latest_data_returns, Hq, last_snoc, Ht.
    cbn [update_props with_session with_receiver session props with_props set_is_running
         set_data_active target_armature mapping_index MOCAP_RECEIVER timer
         frame_keys_printed reports is_running data_active mapping_collection mocap_mode].
    rewrite Harm.
    cbn [update_props with_session with_receiver session props with_props set_is_running
         set_data_active target_armature mapping_index MOCAP_RECEIVER timer
         frame_keys_printed reports is_running data_active mapping_collection mocap_mode
         fst snd].
    now destruct (apply_mocap_data _ _ _) as [[res o] s']. }
  rewrite Hout.
  split; [reflexivity|]. split; [reflexivity|]. split; [reflexivity|].
  split; [reflexivity|].
  split; [change (is_running (props applied.2) = true); now rewrite Hp|].
  split; [change (data_active (props applied.2) = true); now rewrite Hp|].
  split; [|exact Hoff].
  change (mapping_collection (props applied.2) = mapping_collection (props (session sc))).
  now rewrite Hp.
Qed.

Ltac rig_idle := cbn; split; [intros Hne; now destruct Hne|repeat split].

(** X18. The modal loop moves the rig only on data: if the target
    armature is not what it was, the event was a timer event and the
    receiver was running, connected and held a frame with a true truth
    value. Whatever the event, the loop never changes the mapping
    collection, the mapping mode or the calibration offsets. *)
Theorem modal_moves_the_rig_only_on_data (ev : EventType) (sc : Scene) :
  let out := live_capture_modal frame_truthy ev sc in
  (target_armature (props (session out.2)) <> target_armature (props (session sc)) ->
   ev = TIMER
   /\ exists r data,
        MOCAP_RECEIVER sc = Some r
        /\ DataStream.running r = true
        /\ DataStream.status r = DataStream.STATUS_CONNECTED
        /\ last (DataStream.items (DataStream.data_queue r)) = Some data
        /\ frame_truthy data = true)
  /\ mapping_collection (props (session out.2)) = mapping_collection (props (session sc))
  /\ mocap_mode (props (session out.2)) = mocap_mode (props (session sc))
  /\ CALIBRATION_OFFSETS (session out.2) = CALIBRATION_OFFSETS (session sc).
Proof.
  intros out. subst out. unfold live_capture_modal.
  assert (Hstopped :
            forall P : Result * Scene -> Prop,
              P (live_capture_cancel sc) -> P (PASS_THROUGH, sc) ->
              P (if is_running (props (session sc)) then live_capture_cancel sc
                 else (PASS_THROUGH, sc))).
  { intros P H1 H2. now destruct (is_running _). }
  destruct (MOCAP_RECEIVER sc) as [r|] eqn:Hr.
  2: { apply Hstopped; rig_idle. }
  destruct (DataStream.running r) eqn:Hrun; cbn [negb].
  2: { apply Hstopped; rig_idle. }
  destruct ev.
  2: { rig_idle. }
  destruct (DataStream.status r) eqn:Hst;
    try rig_idle.
  rewrite get_latest_data_returns.
  destruct (last (DataStream.items (DataStream.data_queue r))) as [data|] eqn:Hl.
  2: { rig_idle. }
  destruct (frame_truthy data) eqn:Ht.
  2: { rig_idle. }
  cbn [update_props with_session with_receiver session props with_props set_is_running
       target_armature].
  destruct (target_armature (props (session sc))) as [obj|] eqn:Harm.
  2: { cbn. rewrite Harm. rig_idle. }
  cbn [update_props with_session session props with_props set_data_active
       set_is_running is_running data_active target_armature mapping_collection mocap_mode].
  match goal with
  | |- context [apply_mocap_data (Some obj) data ?s] =>
      destruct (apply_mocap_data_keeps obj data s) as (obj' & Ho & _ & Hp & Hoff);
      destruct (apply_mocap_data (Some obj) data s) as [[res o] s']
  end.
  cbn in Ho, Hp, Hoff |- *. rewrite Hp. cbn. split; [|repeat split; exact Hoff].
  intros _. split; [reflexivity|]. exists r, data. repeat split; assumption.
Qed.

(** *** The calibrate operator *)

(** X19. The calibrate operator is cancelled only when no target is set,
    and then the stored offsets survive. With a target that is not an
    armature it still finishes, reporting the failure, and the offsets
    stored before are gone; when pose mode cannot be entered the
    exception leaves the operator, also with the offsets gone. *)
Theorem calibrate_operator_outcomes (sc : Scene) :
  let out := calibrate_pose_execute sc in
  (out.1 = inr CANCELLED <-> target_armature (props (session sc)) = None)
  /\ (target_armature (props (session sc)) = None ->
      session out.2 = session sc /\ reports out.2 = (reports sc ++ [ErrorNoTarget])%list)
  /\ (forall obj, target_armature (props (session sc)) = Some obj ->
        String.eqb (obj_type obj) "ARMATURE" = false ->
        out.1 = inr FINISHED
        /\ CALIBRATION_OFFSETS (session out.2) = ∅
        /\ target_armature (props (session out.2)) = Some obj
        /\ reports out.2 = (reports sc ++ [ErrorCalibrationFailed])%list)
  /\ (forall obj, target_armature (props (session sc)) = Some obj ->
        String.eqb (obj_type obj) "ARMATURE" = true ->
        String.eqb (obj_mode obj) "POSE" = false ->
        mode_set_ok (session sc) = false ->
        out.1 = inl RuntimeError
        /\ CALIBRATION_OFFSETS (session out.2) = ∅
        /\ reports out.2 = reports sc).
Proof.
  intros out. subst out. unfold calibrate_pose_execute.
  destruct (target_armature (props (session sc))) as [obj|] eqn:Harm.
  - split; [|split; [intros H; discriminate H|split]].
    + split; [|intros H; discriminate H].
      destruct (calibrate_pose (Some obj) (session sc)) as [[[e|[|]] o] s]; cbn;
        intros H; discriminate H.
    + intros obj0 [= <-] Ht. unfold calibrate_pose. rewrite Ht. cbn. repeat split.
    + intros obj0 [= <-] Ht Hm Hok. unfold calibrate_pose. rewrite Ht. cbn.
      rewrite Hm, Hok. cbn. repeat split.
  - split; [split; reflexivity|]. split; [intros _; split; reflexivity|].
    split; intros obj H; discriminate H.
Qed.

End CaptureProperties.

(** ** The further properties on concrete rigs and scenes *)

Section FurtherInstances.

Import Mathutils MocapLogic Capture.

Local Open Scope R_scope.

(** A rig with a spine and a left hand, both mapped, in hands-only mode,
    and a frame that carries a rotation for each. *)
Definition hand_rig : Object :=
  mkObject "Armature" "ARMATURE" "POSE" [rest_bone "Spine"; rest_bone "Hand.L"].

Definition hands_session : Session :=
  mkSession None true
    (mkProps (Some hand_rig)
       [mkMappingItem "LeftHand" "Hand.L"; mkMappingItem "Spine" "Spine"] "HANDS_ONLY"
       false false) ∅ [].

Definition half_turn_joint : Joint := mkJoint (Some [0; 1; 0; 0]) None.

Definition both_joints : gmap string Joint :=
  {[ "Spine"%string := half_turn_joint; "LeftHand"%string := half_turn_joint ]}.

Lemma joint_data_reaches_mapped_bones_only_witness :
  get_bone "Spine" (pose_bones (map_hands_only hands_session hand_rig both_joints))
  = get_bone "Spine" (pose_bones hand_rig)
  /\ map location (pose_bones (map_hands_only hands_session hand_rig both_joints))
     = map location (pose_bones hand_rig).
Proof.
  destruct (joint_data_reaches_mapped_bones_only hands_session hand_rig both_joints "Spine")
    as (H1 & H2 & _).
  - intros it [<-|[<-|[]]] _ Hb; [discriminate Hb|right; reflexivity].
  - split; [exact H1|exact H2].
Defined.

Lemma calibration_is_exact_and_repeatable_witness :
  let out := calibrate_pose (Some turned_rig) spine_session in
  out.1.1 = inr true
  /\ CALIBRATION_OFFSETS out.2 !! "Spine"%string = Some (inverted half_turn)
  /\ CALIBRATION_OFFSETS out.2 !! "Hips"%string = None
  /\ CALIBRATION_OFFSETS (calibrate_pose out.1.2 out.2).2 = CALIBRATION_OFFSETS out.2.
Proof.
  intros out.
  destruct (calibration_is_exact_and_repeatable turned_rig spine_session eq_refl
              (or_introl eq_refl)) as (H1 & _ & Hiff & _ & _ & _ & H7).
  split; [exact H1|]. split.
  - apply Hiff. split; [simpl; now left|]. exists turned_spine. split; reflexivity.
  - split; [|exact H7].
    destruct (CALIBRATION_OFFSETS out.2 !! "Hips"%string) as [q|] eqn:E; [|reflexivity].
    apply Hiff in E as [[Hin|[]] _]. discriminate Hin.
Defined.

Definition straight_down : Vector := mkVector 0 (-1) 0.

Lemma length_straight_down : length (vsub straight_down origin) = 1.
Proof.
  unfold length, dot, vsub, straight_down, origin; simpl.
  replace ((0 - 0) * (0 - 0) + (-1 - 0) * (-1 - 0) + (0 - 0) * (0 - 0)) with 1 by ring.
  apply sqrt_1.
Qed.

Lemma direction_rotation_is_unit_witness :
  set_bone_direction origin straight_down "Arm.L" shoulder_ctx
  = (inr tt,
     mkCtx (mkObject "Armature" "ARMATURE" "POSE"
              [mkPoseBone "Arm.L" "QUATERNION" identity (mkVector 0 0 0) 1])
       (print (MsgSetBone "Arm.L") (ses shoulder_ctx))).
Proof.
  destruct (direction_rotation_is_unit origin straight_down "Arm.L" shoulder_ctx
              (rest_bone "Arm.L") eq_refl) as (quat & _ & Hid & Heq).
  - rewrite length_straight_down. lra.
  - rewrite Heq, (Hid eq_refl eq_refl). reflexivity.
Defined.

Lemma fallback_resolves_to_existing_bones_witness :
  resolve_bone_name [] [rest_bone "Spine"; rest_bone "UpperArm.L"] "LeftArm"
  = Some "UpperArm.L"%string
  /\ is_Some (get_bone "UpperArm.L" [rest_bone "Spine"; rest_bone "UpperArm.L"]).
Proof.
  split; [reflexivity|].
  apply (proj1 (proj2 (fallback_resolves_to_existing_bones []
                         [rest_bone "Spine"; rest_bone "UpperArm.L"] "LeftArm"))
           "UpperArm.L"%string eq_refl eq_refl).
Defined.

Lemma ik_at_unit_distance :
  ik_joint_pos origin (mkVector 1 0 0) 1 1 = inr (Some (mkVector (1 / 2) 0 0)).
Proof.
  unfold ik_joint_pos. rewrite (length_along_x 1) by lra.
  destruct (Rlt_dec 1 (/ 1000000)) as [H|_]; [lra|].
  replace (Rabs (1 - 1)) with 0 by (replace (1 - 1) with 0 by ring; now rewrite Rabs_R0).
  replace (Rmin (Rmax 1 (0 + / 1000)) (1 + 1 - / 1000)) with 1.
  2: { rewrite Rmax_left by lra. rewrite Rmin_left by lra. reflexivity. }
  unfold pydiv. destruct (Req_dec_T (2.0 * 1) 0) as [H|_]; [lra|]. simpl.
  unfold normalized. rewrite (length_along_x 1) by lra.
  destruct (Req_dec_T 1 0) as [H|_]; [lra|].
  unfold vadd, vscale, vdiv, vsub, origin; simpl. rewrite two_point_zero.
  do 2 f_equal. f_equal; field.
Qed.

Lemma two_bone_ik_never_bends_witness :
  cross (vsub (mkVector (1 / 2) 0 0) origin) (vsub (mkVector 1 0 0) (mkVector (1 / 2) 0 0))
  = mkVector 0 0 0.
Proof.
  apply (proj1 (two_bone_ik_never_bends origin (mkVector 1 0 0) 1 1)).
  exact ik_at_unit_distance.
Defined.

Definition mixamo_props : Props := mkProps (Some mixamo_rig) [] "WHOLE_BODY" false false.

Lemma auto_map_feeds_the_bone_map_witness :
  let bone_map :=
    get_bone_map_from_properties (auto_map_mixamorig list_order mixamo_props).1 in
  dict_get "Hips" bone_map = Some "mixamorig:Hips"%string
  /\ dict_get "Neck" bone_map = None.
Proof.
  intros bone_map.
  destruct (auto_map_feeds_the_bone_map list_order (fun l x H => H) (fun l x H => H)
              mixamo_props mixamo_rig eq_refl eq_refl) as (_ & Hexact & Hnone).
  split.
  - apply Hexact; simpl; auto.
  - apply (Hnone "Neck"%string "mixamorig:Neck"%string).
    + simpl. auto.
    + intros bn [<-|[<-|[<-|[<-|[]]]]]; reflexivity.
Defined.

(** *** Scenes *)

Definition two_rows : list MappingItem :=
  [mkMappingItem "Hips" "Hips"; mkMappingItem "Spine" "Spine"].

Definition editing_scene : Scene :=
  mkScene (mkSession None true (mkProps None two_rows "WHOLE_BODY" false false) ∅ [])
    0%Z None false [] [].

Lemma mapping_list_editing_witness :
  mapping_collection (props (session (remove_mapping_execute editing_scene).2))
  = [mkMappingItem "Spine" "Spine"]
  /\ mapping_index (remove_mapping_execute editing_scene).2 = 0%Z
  /\ mapping_collection
       (props (session (remove_mapping_execute (add_mapping_execute editing_scene).2).2))
     = two_rows.
Proof.
  destruct (mapping_list_editing editing_scene) as (_ & _ & Hround & _ & Hrem & _).
  destruct Hrem as (Hc & _ & _); [simpl; lia|].
  split; [exact Hc|]. split; [reflexivity|exact Hround].
Defined.

Lemma default_names_can_collide_witness :
  mapping_collection
    (props (session
       (add_mapping_execute
          (remove_mapping_execute
             (with_index 0 (add_mapping_execute editing_scene).2)).2).2))
  = [mkMappingItem "Spine" "Spine"; mkMappingItem "Mocap_Joint_3" "Bone_3";
     mkMappingItem "Mocap_Joint_3" "Bone_3"].
Proof.
  destruct (default_names_can_collide editing_scene 0) as [H _]; [simpl; lia|exact H].
Defined.

Definition whole_body_frame : Frame := mkFrame (Some "WHOLE_BODY"%string) ∅ None.

(** Any decoded message with a mode key is a non-empty dictionary. *)
Definition has_mode (f : Frame) : bool := bool_decide (is_Some (frame_mode f)).

Definition connected_receiver (waiting : list Frame) : DataStream.Receiver Frame :=
  DataStream.mkReceiver true DataStream.STATUS_CONNECTED 1 true EmptyString
    (DataStream.mkQueue 1 waiting) [] [] [].

(** A running capture on a rig still in object mode, with the mapping
    mode set to neither of the two the engine knows. *)
Definition capture_scene (waiting : list Frame) : Scene :=
  mkScene (mkSession None true (mkProps (Some mixamo_rig) two_rows "OFF" true false) ∅ [])
    0%Z (Some (connected_receiver waiting)) true [] [].

Lemma stop_ends_the_session_witness :
  let sc1 := (stop_capture_execute (capture_scene [])).2 in
  let out := live_capture_modal has_mode OTHER_EVENT sc1 in
  is_running (props (session sc1)) = true
  /\ out.1 = CANCELLED
  /\ MOCAP_RECEIVER out.2 = None
  /\ is_running (props (session out.2)) = false.
Proof.
  intros sc1 out.
  destruct (stop_ends_the_session has_mode (capture_scene []) (connected_receiver [])
              OTHER_EVENT eq_refl eq_refl) as (Hs & _ & Hcancel & _).
  fold sc1 in Hs, Hcancel. fold out in Hcancel.
  destruct (Hcancel eq_refl) as (Hv & Hr & _ & Hp & _).
  split; [now rewrite Hs|]. split; [exact Hv|]. split; [exact Hr|]. now rewrite Hp.
Defined.

Lemma modal_applies_the_newest_frame_witness :
  let out := live_capture_modal has_mode TIMER (capture_scene [empty_frame; whole_body_frame]) in
  out.1 = PASS_THROUGH
  /\ MOCAP_RECEIVER out.2 = Some (connected_receiver [])
  /\ frame_keys_printed out.2 = [whole_body_frame]
  /\ data_active (props (session out.2)) = true.
Proof.
  intros out.
  destruct (modal_applies_the_newest_frame has_mode
              (capture_scene [empty_frame; whole_body_frame])
              (connected_receiver [empty_frame; whole_body_frame])
              [empty_frame] whole_body_frame mixamo_rig
              eq_refl eq_refl eq_refl eq_refl eq_refl eq_refl)
    as (Hv & Hr & _ & Hk & _ & Ha & _).
  split; [exact Hv|]. split; [exact Hr|]. split; [exact Hk|exact Ha].
Defined.

Lemma modal_moves_the_rig_only_on_data_witness :
  option_map obj_mode
    (target_armature
       (props (session (live_capture_modal has_mode TIMER (capture_scene [whole_body_frame])).2)))
  = Some "POSE"%string
  /\ exists r data,
       MOCAP_RECEIVER (capture_scene [whole_body_frame]) = Some r
       /\ DataStream.running r = true
       /\ DataStream.status r = DataStream.STATUS_CONNECTED
       /\ last (DataStream.items (DataStream.data_queue r)) = Some data
       /\ has_mode data = true.
Proof.
  split; [reflexivity|].
  apply (proj1 (modal_moves_the_rig_only_on_data has_mode TIMER
                  (capture_scene [whole_body_frame]))).
  intros H. apply (f_equal (option_map obj_mode)) in H. discriminate H.
Defined.

Definition camera : Object := mkObject "Camera" "CAMERA" "OBJECT" [].

Definition calibrated_scene (target : option Object) : Scene :=
  mkScene
    (mkSession None true (mkProps target two_rows "WHOLE_BODY" false false)
       {[ "Spine"%string := half_turn ]} [])
    0%Z None false [] [].

Lemma calibrate_operator_outcomes_witness :
  (calibrate_pose_execute (calibrated_scene None)).1 = inr CANCELLED
  /\ CALIBRATION_OFFSETS (session (calibrate_pose_execute (calibrated_scene None)).2)
     = {[ "Spine"%string := half_turn ]}
  /\ (calibrate_pose_execute (calibrated_scene (Some camera))).1 = inr FINISHED
  /\ CALIBRATION_OFFSETS (session (calibrate_pose_execute (calibrated_scene (Some camera))).2)
     = ∅.
Proof.
  destruct (calibrate_operator_outcomes (calibrated_scene None)) as (Hc & Hkeep & _).
  destruct (calibrate_operator_outcomes (calibrated_scene (Some camera)))
    as (_ & _ & Hfail & _).
  destruct (Hkeep eq_refl) as (Hs & _).
  destruct (Hfail camera eq_refl eq_refl) as (Hv & Ho & _).
  split; [now apply Hc|]. split; [now rewrite Hs|]. split; [exact Hv|exact Ho].
Defined.

End FurtherInstances.

(** ** The engine: how the two data paths of a frame combine *)

Section EngineComposition.

Import Mathutils MocapLogic.

(** The armature and the session once the landmark path of
    [apply_mocap_data] has run, lines 166-171. *)
Definition after_landmarks (obj : Object) (data : Frame) (s : Session) : Ctx :=
  let c := mkCtx (set_mode "POSE" obj) (set_active (Some (obj_name obj)) s) in
  match mediapipe data with
  | Some mp =>
      if dict_truthy mp then
        (try_except (apply_mediapipe_pose mp) (fun e => say (MsgMediapipeError e)) c).2
      else c
  | None => c
  end.

Lemma after_landmarks_keeps (obj : Object) (data : Frame) (s : Session) :
  keeps (mkCtx (set_mode "POSE" obj) (set_active (Some (obj_name obj)) s))
    (after_landmarks obj data s).
Proof.
  unfold after_landmarks. destruct (mediapipe data) as [mp|]; [|apply keeps_refl].
  destruct (dict_truthy mp); [|apply keeps_refl].
  apply preserving_try; [apply preserving_apply_mediapipe_pose|].
  intros e. apply preserving_say.
Qed.




Lemma location_of_same (n : string) (l1 l2 : list PoseBone) :
  map name l1 = map name l2 -> map location l1 = map location l2 ->
  option_map location (get_bone n l1) = option_map location (get_bone n l2).
Proof.
  revert l2. induction l1 as [|a l1 IH]; intros [|b l2] Hn Hl; try discriminate; [reflexivity|].
  simpl in *. injection Hn as Hn1 Hn. injection Hl as Hl1 Hl. rewrite Hn1.
  destruct (String.eqb (name b) n); [simpl; now rewrite Hl1|now apply IH].
Qed.




(** X21. A frame translates no bone but the one mapped from the joint
    [Hips]: the location of every other bone is after [apply_mocap_data]
    what it was before, whatever the frame holds, and outside whole-body
    mode no location changes at all. *)
Theorem only_the_hips_bone_is_translated (obj : Object) (data : Frame) (s : Session)
    (n : string) :
  exists obj',
    (apply_mocap_data (Some obj) data s).1.2 = Some obj'
    /\ (dict_get "Hips" (get_bone_map_from_properties (props s)) <> Some n ->
        option_map location (get_bone n (pose_bones obj'))
        = option_map location (get_bone n (pose_bones obj)))
    /\ (mocap_mode (props s) <> "WHOLE_BODY"%string ->
        map location (pose_bones obj') = map location (pose_bones obj)).
Proof.
  unfold apply_mocap_data.
  destruct (negb (String.eqb (obj_type obj) "ARMATURE")).
  { exists obj. repeat split. }
  destruct (negb (String.eqb (obj_mode obj) "POSE") && negb (mode_set_ok _)).
  { exists obj. repeat split. }
  fold (after_landmarks obj data s).
  destruct (after_landmarks_keeps obj data s) as ((_ & _ & Hn & _) & Hp & _ & _ & Hl).
  set (c := after_landmarks obj data s) in *.
  cbn [arm ses set_mode set_active pose_bones props] in Hn, Hp, Hl.
  eexists. split; [reflexivity|]. cbn [snd]. rewrite Hp.
  destruct (String.eqb (mocap_mode (props s)) "WHOLE_BODY") eqn:Ew.
  - split; [|intros Hne; apply String.eqb_eq in Ew; contradiction].
    intros Hhips. unfold map_whole_body. cbn [with_bones pose_bones]. rewrite Hp.
    match goal with
    | |- context [apply_mapped_rotations ?k ?o ?bm ?js ?bones1] =>
        rewrite (location_of_same n (apply_mapped_rotations k o bm js bones1) bones1)
          by (apply apply_mapped_rotations_keeps; intros; apply apply_rotation_keeps);
        transitivity (option_map location (get_bone n (pose_bones (arm c))));
        [f_equal|now apply location_of_same]
    end.
    destruct (joints data !! "Hips"%string) as [jh|]; [|reflexivity].
    destruct (dict_get "Hips" _) as [hb|] eqn:Hd; [|reflexivity].
    destruct (get_bone hb (pose_bones (arm c))) as [hpb|] eqn:Hh; [|reflexivity].
    destruct (joint_location jh) as [[|lx [|ly [|lz [|? ?]]]]|]; try reflexivity.
    apply get_bone_store_other. cbn [set_location name].
    rewrite (get_bone_name _ _ _ Hh). congruence.
  - assert (Hall : map location
                     (pose_bones
                        (if String.eqb (mocap_mode (props s)) "HANDS_ONLY"
                         then map_hands_only (ses c) (arm c) (joints data) else arm c))
                   = map location (pose_bones obj)).
    { destruct (String.eqb (mocap_mode (props s)) "HANDS_ONLY"); [|exact Hl].
      rewrite <- Hl. apply map_hands_only_skeleton. }
    assert (Hnames : map name
                       (pose_bones
                          (if String.eqb (mocap_mode (props s)) "HANDS_ONLY"
                           then map_hands_only (ses c) (arm c) (joints data) else arm c))
                     = map name (pose_bones obj)).
    { destruct (String.eqb (mocap_mode (props s)) "HANDS_ONLY"); [|exact Hn].
      rewrite <- Hn. apply map_hands_only_skeleton. }
    split; [intros _; now apply location_of_same|intros _; exact Hall].
Qed.

End EngineComposition.

Section CompositionInstances.

Import Mathutils MocapLogic.

Local Open Scope R_scope.



(** A frame that carries a location for the hips. *)
Definition hips_frame : Frame :=
  mkFrame (Some "HANDS_ONLY"%string)
    {[ "Hips"%string := mkJoint (Some [1; 0; 0; 0]) (Some [1; 2; 3]) ]} None.

Lemma only_the_hips_bone_is_translated_witness :
  exists obj',
    (apply_mocap_data (Some hand_rig) hips_frame hands_session).1.2 = Some obj'
    /\ option_map location (get_bone "Spine" (pose_bones obj'))
       = option_map location (get_bone "Spine" (pose_bones hand_rig))
    /\ map location (pose_bones obj') = map location (pose_bones hand_rig).
Proof.
  destruct (only_the_hips_bone_is_translated hand_rig hips_frame hands_session "Spine")
    as (obj' & H1 & H2 & H3).
  exists obj'. split; [exact H1|]. split.
  - apply H2. discriminate.
  - apply H3. discriminate.
Defined.

End CompositionInstances.
